(** * libhear: the all-reduce interposer of hear.cpp

    A shallow embedding of [src/hear.cpp]: the key/nonce store of
    [HearState], the scratch-buffer handling, and the intercepted
    [MPI_Allreduce] with its non-pipelined and pipelined paths.

    Conventions.
    - [unsigned int] is a [Z] kept in [0, 2^32) by [u32].  An [int] that
      the code receives ([count], the block size) is a [Z]; an [int] that
      the code computes (the byte length [sbuf_len], the byte offset
      [next_offset]) is the two's-complement result [int] of the exact one,
      as the compiled multiplication and addition give it.
    - User buffers and scratch buffers are lists of 32-bit cells; both
      supported element types ([MPI_INT], [MPI_FLOAT]) are four bytes wide.
    - The message passing library is external.  Every shadow call (a
      [PMPI_*] function) is a [Call] node of a program tree; the tree is run
      either against an arbitrary oracle (one process, any library
      behaviour) or in lock step over all ranks of a communicator with the
      library's documented collective semantics.
    - [assert] is active: a failed assertion stops the process.
    - Build switches [USE_MPOOL], [USE_PIPELINING] and [AESNI] are fields of
      [config]; [ALLREDUCE_BASELINE], [DCHECK], [TSC_PROF] and [DEBUG] are
      taken as undefined. *)

From Stdlib Require Import ZArith Lia.
From stdpp Require Import gmap list.

Local Open Scope Z_scope.

#[local] Set Warnings "-clear-no-such-hyp".

(** ** Machine words and MPI constants *)

Abbreviation word := Z.

Definition u32 (z : Z) : word := z mod 2 ^ 32.

(** The value of a 32-bit signed [int] that was computed as [z]. *)
Definition int (z : Z) : Z := (z + 2 ^ 31) mod 2 ^ 32 - 2 ^ 31.

Arguments int : simpl never.

Definition INT_MAX : Z := 2 ^ 31 - 1.

Abbreviation MPI_Comm := Z.

Inductive MPI_Datatype :=
| MPI_CHAR | MPI_INT | MPI_UNSIGNED | MPI_LONG_LONG | MPI_FLOAT | MPI_DOUBLE.

Inductive MPI_Op :=
| MPI_MAX | MPI_MIN | MPI_SUM | MPI_PROD | MPI_BAND | MPI_BOR.

#[global] Instance MPI_Datatype_eq_dec : EqDecision MPI_Datatype.
Proof. solve_decision. Defined.

#[global] Instance MPI_Op_eq_dec : EqDecision MPI_Op.
Proof. solve_decision. Defined.

(** [MPI_Type_size]. *)
Definition type_size (datatype : MPI_Datatype) : Z :=
  match datatype with
  | MPI_CHAR => 1
  | MPI_INT | MPI_UNSIGNED | MPI_FLOAT => 4
  | MPI_LONG_LONG | MPI_DOUBLE => 8
  end.

(** Return codes of [mpi.h]. *)
Definition MPI_SUCCESS : Z := 0.
Definition MPI_ERR_BUFFER : Z := 1.
Definition MPI_ERR_TYPE : Z := 3.

Definition root_rank : Z := 0.

(** ** Build and run-time configuration *)

Record config := {
  USE_MPOOL : bool;
  USE_PIPELINING : bool;
  AESNI : bool;
  pipelining_block_size : Z;
}.

(** What one process sees of its surroundings: the answers of
    [MPI_Comm_size] and [MPI_Comm_rank], and the stream of words that
    successive calls of [encryption::encr_noise_generator] return. *)
Record process_env := {
  comm_size_of : MPI_Comm -> Z;
  comm_rank_of : MPI_Comm -> Z;
  noise : nat -> Z;
}.

(** ** Scratch buffers *)

Inductive ptr :=
| nullptr
| Slab (i : nat)
| Heap (i : nat).

#[global] Instance ptr_eq_dec : EqDecision ptr.
Proof. solve_decision. Defined.

(** The locals [prev_count], [next_count] and [encr_sendbuf_next] of
    [MPI_Allreduce] are declared without an initialiser; reading one
    before it is assigned yields whatever the stack frame holds. *)
Record stack_frame := {
  junk_prev_count : Z;
  junk_next_count : Z;
  junk_encr_sendbuf_next : ptr;
}.

Module mpool.

(** Modelled from the spec: [mpool.hpp] (class [mpool::SbufMpool]) is not
    among the sources.  The pool is a bounded ring of [P] slabs of [L]
    bytes each; [acquire_buf] hands out a slab or fails (null) when all
    are in use; [release_buf] returns a slab to the ring. *)
Record SbufMpool := {
  free_slabs : list nat;
  sbuf_len : Z;
}.

(** Modelled from the spec: the constructor of [mpool::SbufMpool] (not
    among the sources); all [P] slabs start free. *)
Definition create (mpool_size : nat) (mpool_sbuf_len : Z) : SbufMpool :=
  {| free_slabs := seq 0 mpool_size; sbuf_len := mpool_sbuf_len |}.

(** Modelled from the spec: [SbufMpool::acquire_buf] (not among the
    sources) returns a slab or fails when all are in use. *)
Definition acquire_buf (p : SbufMpool) : ptr * SbufMpool :=
  match free_slabs p with
  | [] => (nullptr, p)
  | i :: rest => (Slab i, {| free_slabs := rest; sbuf_len := sbuf_len p |})
  end.

(** Modelled from the spec: [SbufMpool::release_buf] (not among the
    sources) returns the slab to the ring; what it does with a pointer
    that is no slab is not said, the ring is left as it is. *)
Definition release_buf (buf : ptr) (p : SbufMpool) : SbufMpool :=
  match buf with
  | Slab i => {| free_slabs := free_slabs p ++ [i]; sbuf_len := sbuf_len p |}
  | _ => p
  end.

(** The pool's free-slab count. *)
Definition free_count (p : SbufMpool) : nat := length (free_slabs p).

End mpool.

(** ** The state of [HearState] *)

(** The [std::function] members, bound by the constructor.  A block
    encryptor returns the [count] cells it writes to the scratch buffer; a
    block decryptor returns the new contents of the receive region. *)
Record mask_engine := {
  encrypt_block_int_sum :
    list word -> Z -> Z -> list word -> word -> bool -> list word;
  decrypt_block_int_sum : list word -> Z -> list word -> word -> list word;
  encrypt_block_int_prod :
    list word -> Z -> Z -> list word -> word -> bool -> list word;
  decrypt_block_int_prod : list word -> Z -> list word -> word -> list word;
  encrypt_block_float_sum :
    list word -> Z -> Z -> list word -> word -> list word;
  decrypt_block_float_sum : list word -> Z -> list word -> word -> list word;
  prng : word -> word;
}.

Record HearState := {
  _k_s_storage : list (list word);
  _k_s_map : gmap Z nat;
  _k_n_storage : list word;
  _k_n_map : gmap Z nat;
  engine : mask_engine;
  _sbuf_mpool : mpool.SbufMpool;
}.

Definition set_k_s_storage (v : list (list word)) (s : HearState) :=
  {| _k_s_storage := v; _k_s_map := _k_s_map s;
     _k_n_storage := _k_n_storage s; _k_n_map := _k_n_map s;
     engine := engine s; _sbuf_mpool := _sbuf_mpool s |}.

Definition set_k_s_map (v : gmap Z nat) (s : HearState) :=
  {| _k_s_storage := _k_s_storage s; _k_s_map := v;
     _k_n_storage := _k_n_storage s; _k_n_map := _k_n_map s;
     engine := engine s; _sbuf_mpool := _sbuf_mpool s |}.

Definition set_k_n_storage (v : list word) (s : HearState) :=
  {| _k_s_storage := _k_s_storage s; _k_s_map := _k_s_map s;
     _k_n_storage := v; _k_n_map := _k_n_map s;
     engine := engine s; _sbuf_mpool := _sbuf_mpool s |}.

Definition set_k_n_map (v : gmap Z nat) (s : HearState) :=
  {| _k_s_storage := _k_s_storage s; _k_s_map := _k_s_map s;
     _k_n_storage := _k_n_storage s; _k_n_map := v;
     engine := engine s; _sbuf_mpool := _sbuf_mpool s |}.

Definition set_sbuf_mpool (v : mpool.SbufMpool) (s : HearState) :=
  {| _k_s_storage := _k_s_storage s; _k_s_map := _k_s_map s;
     _k_n_storage := _k_n_storage s; _k_n_map := _k_n_map s;
     engine := engine s; _sbuf_mpool := v |}.

(** ** Events, process state and program trees *)

Inductive mpl_call :=
| PMPI_Allreduce (sendbuf : list word) (count : Z)
    (datatype : MPI_Datatype) (op : MPI_Op) (comm : MPI_Comm)
| PMPI_Iallreduce (sendbuf : list word) (count : Z)
    (datatype : MPI_Datatype) (op : MPI_Op) (comm : MPI_Comm)
| PMPI_Wait
| PMPI_Allgather (buf : list word) (comm : MPI_Comm)
| PMPI_Bcast (buf : word) (root : Z) (comm : MPI_Comm).

#[global] Instance mpl_call_eq_dec : EqDecision mpl_call.
Proof. solve_decision. Defined.

(** What a shadow call hands back: its return code and the cells it wrote
    to the receive buffer. *)
Record mpl_reply := { r_code : Z; r_data : list word }.

Inductive event :=
| EvAdvance (comm : MPI_Comm) (old new : word)
| EvAcquire (buf : ptr)  (* null when no buffer could be had *)
| EvRelease (buf : ptr)
| EvEncrypt (datatype : MPI_Datatype) (op : MPI_Op) (count : Z) (k_n : word)
| EvDecrypt (datatype : MPI_Datatype) (op : MPI_Op) (count : Z)
| EvMPL (c : mpl_call) (r : mpl_reply).

(** [hear] is the global [HearState *hear]; [heap] the live [new char[]]
    scratch allocations of a build without the pool; [noise_pos] counts the
    draws from the noise generator; [log] records what happened, oldest
    first. *)
Record world := {
  hear : HearState;
  heap : gset nat;
  noise_pos : nat;
  log : list event;
}.

Definition set_hear (f : HearState -> HearState) (w : world) : world :=
  {| hear := f (hear w); heap := heap w; noise_pos := noise_pos w;
     log := log w |}.

Definition set_heap (h : gset nat) (w : world) : world :=
  {| hear := hear w; heap := h; noise_pos := noise_pos w; log := log w |}.

Definition set_noise_pos (n : nat) (w : world) : world :=
  {| hear := hear w; heap := heap w; noise_pos := n; log := log w |}.

Definition add_log (e : event) (w : world) : world :=
  {| hear := hear w; heap := heap w; noise_pos := noise_pos w;
     log := log w ++ [e] |}.

Inductive failure :=
| AssertionFailed
| UncaughtException
| UndefinedBehaviour
| OutOfFuel.

Inductive prog (A : Type) : Type :=
| Ret (a : A) (w : world)
| Stop (f : failure) (w : world)
| Call (c : mpl_call) (k : mpl_reply -> prog A).

Arguments Ret {A} a w.
Arguments Stop {A} f w.
Arguments Call {A} c k.

Definition M (A : Type) : Type := world -> prog A.

Fixpoint pbind {A B : Type} (p : prog A) (f : A -> M B) : prog B :=
  match p with
  | Ret a w => f a w
  | Stop e w => Stop e w
  | Call c k => Call c (fun r => pbind (k r) f)
  end.

Definition ret {A : Type} (a : A) : M A := fun w => Ret a w.

Definition stop {A : Type} (e : failure) : M A := fun w => Stop e w.

Definition bind {A B : Type} (m : M A) (f : A -> M B) : M B :=
  fun w => pbind (m w) f.

Notation "'let*' x ':=' m 'in' f" := (bind m (fun x => f))
  (at level 10, x pattern, m at level 100, f at level 200).

Definition get_hear : M HearState := fun w => Ret (hear w) w.

Definition modify_hear (f : HearState -> HearState) : M unit :=
  fun w => Ret tt (set_hear f w).

Definition emit (e : event) : M unit := fun w => Ret tt (add_log e w).

Definition mpl (c : mpl_call) : M mpl_reply :=
  fun w => Call c (fun r => Ret r (add_log (EvMPL c r) w)).

Definition c_assert (b : bool) : M unit :=
  if b then ret tt else stop AssertionFailed.

(** Memory written through a pointer: [data] overwrites a prefix of the
    region, whose extent does not change. *)
Definition mem_write (region data : list word) : list word :=
  take (length region) (data ++ drop (length data) region).

(** The cell index of a byte offset into a buffer of four-byte elements. *)
Definition cell_of (offset : Z) : nat := Z.to_nat (offset / 4).

Definition mem_at (buf : list word) (offset : Z) : list word :=
  drop (cell_of offset) buf.

Definition mem_write_at (buf : list word) (offset : Z) (region' : list word)
  : list word :=
  take (cell_of offset) buf ++ region'.

Section Code.

Context (cfg : config) (env : process_env).

(** *** Key/nonce store *)

(** [_k_n_map[comm]]: [operator[]] of [std::unordered_map] inserts a
    value-initialised entry when the key is absent. *)
Definition k_n_index (comm : MPI_Comm) : M nat := fun w =>
  match _k_n_map (hear w) !! comm with
  | Some i => Ret i w
  | None => Ret 0%nat (set_hear (fun s => set_k_n_map (<[comm := 0%nat]> (_k_n_map s)) s) w)
  end.

Definition k_s_index (comm : MPI_Comm) : M nat := fun w =>
  match _k_s_map (hear w) !! comm with
  | Some i => Ret i w
  | None => Ret 0%nat (set_hear (fun s => set_k_s_map (<[comm := 0%nat]> (_k_s_map s)) s) w)
  end.

(** [_k_n_storage[i]] and [_k_s_storage[i]]: unchecked vector access. *)
Definition k_n_read (i : nat) : M word := fun w =>
  match _k_n_storage (hear w) !! i with
  | Some v => Ret v w
  | None => Stop UndefinedBehaviour w
  end.

Definition k_n_write (i : nat) (v : word) : M unit := fun w =>
  if decide (i < length (_k_n_storage (hear w)))%nat
  then Ret tt (set_hear (fun s => set_k_n_storage (<[i := v]> (_k_n_storage s)) s) w)
  else Stop UndefinedBehaviour w.

Definition k_s_read (i : nat) : M (list word) := fun w =>
  match _k_s_storage (hear w) !! i with
  | Some v => Ret v w
  | None => Stop UndefinedBehaviour w
  end.

Definition k_s_write (i : nat) (v : list word) : M unit := fun w =>
  if decide (i < length (_k_s_storage (hear w)))%nat
  then Ret tt (set_hear (fun s => set_k_s_storage (<[i := v]> (_k_s_storage s)) s) w)
  else Stop UndefinedBehaviour w.

(** [encryption::encr_noise_generator()], cast to [unsigned int]. *)
Definition encr_noise_generator : M word := fun w =>
  Ret (u32 (noise env (noise_pos w))) (set_noise_pos (S (noise_pos w)) w).

Definition update_k_n (comm : MPI_Comm) : M unit :=
  let* i := k_n_index comm in
  let* old := k_n_read i in
  let* s := get_hear in
  let tmp := prng (engine s) old in
  let* i' := k_n_index comm in
  let* _ := k_n_write i' tmp in
  emit (EvAdvance comm old tmp).

(** [m.insert({comm, idx}).second]. *)
Definition k_s_map_insert (comm : MPI_Comm) (idx : nat) : M bool := fun w =>
  match _k_s_map (hear w) !! comm with
  | Some _ => Ret false w
  | None => Ret true (set_hear (fun s => set_k_s_map (<[comm := idx]> (_k_s_map s)) s) w)
  end.

Definition k_n_map_insert (comm : MPI_Comm) (idx : nat) : M bool := fun w =>
  match _k_n_map (hear w) !! comm with
  | Some _ => Ret false w
  | None => Ret true (set_hear (fun s => set_k_n_map (<[comm := idx]> (_k_n_map s)) s) w)
  end.

Definition insert_new_comm (comm : MPI_Comm) : M Z :=
  let comm_size := comm_size_of env comm in
  let my_rank := comm_rank_of env comm in
  let* _ := modify_hear (fun s =>
    set_k_s_storage
      (_k_s_storage s ++ [replicate (Z.to_nat comm_size) (u32 my_rank)]) s) in
  let* fresh_word := encr_noise_generator in
  let* s := get_hear in
  let back := (length (_k_s_storage s) - 1)%nat in
  let* v := k_s_read back in
  let* _ :=
    (if decide (0 <= my_rank < Z.of_nat (length v))
     then k_s_write back (<[Z.to_nat my_rank := fresh_word]> v)
     else stop UndefinedBehaviour) in
  let* ok := k_s_map_insert comm back in
  let* _ := c_assert ok in
  let* i := k_s_index comm in
  let* buf := k_s_read i in
  let* r := mpl (PMPI_Allgather buf comm) in
  let* _ := k_s_write i (mem_write buf (r_data r)) in
  if decide (r_code r <> MPI_SUCCESS) then ret (r_code r) else
  let* _ := c_assert (bool_decide (r_code r = MPI_SUCCESS)) in
  let* seed :=
    (if decide (my_rank = root_rank) then encr_noise_generator
     else ret 42) in
  let* _ := modify_hear (fun s =>
    set_k_n_storage (_k_n_storage s ++ [seed]) s) in
  let* s := get_hear in
  let* ok := k_n_map_insert comm (length (_k_n_storage s) - 1)%nat in
  let* _ := c_assert ok in
  let* i := k_n_index comm in
  let* x := k_n_read i in
  let* r := mpl (PMPI_Bcast x root_rank comm) in
  let* _ := k_n_write i (default x (head (r_data r))) in
  if decide (r_code r <> MPI_SUCCESS) then ret (r_code r) else
  let* _ := c_assert (bool_decide (r_code r = MPI_SUCCESS)) in
  ret MPI_SUCCESS.

(** *** Scratch buffers *)

(** [new char[sbuf_len]] or [_sbuf_mpool.acquire_buf()].  A throwing
    [new] never yields null; a negative length makes it throw. *)
Definition acquire_scratch (sbuf_len : Z) : M ptr := fun w =>
  if USE_MPOOL cfg then
    let '(p, pool') := mpool.acquire_buf (_sbuf_mpool (hear w)) in
    Ret p (set_hear (set_sbuf_mpool pool') w)
  else if decide (sbuf_len < 0) then Stop UncaughtException w
  else
    let i := fresh (heap w) in
    Ret (Heap i) (set_heap ({[i]} ∪ heap w) w).

(** [delete[] buf] or [_sbuf_mpool.release_buf(buf)]. *)
Definition free_scratch (buf : ptr) : M unit := fun w =>
  let w' :=
    if USE_MPOOL cfg
    then set_hear (fun s => set_sbuf_mpool (mpool.release_buf buf (_sbuf_mpool s)) s) w
    else match buf with
         | Heap i => set_heap (heap w ∖ {[i]}) w
         | _ => w
         end in
  Ret tt (add_log (EvRelease buf) w').

(** A block encryptor writes [count] elements, [need] bytes; a pool slab
    holds the pool's [sbuf_len] bytes, a heap buffer the [sbuf_len] bytes
    that [new char[sbuf_len]] was asked for. *)
Definition check_capacity (sbuf_len need : Z) : M unit := fun w =>
  let capacity :=
    if USE_MPOOL cfg then mpool.sbuf_len (_sbuf_mpool (hear w))
    else sbuf_len in
  if bool_decide (capacity < need)
  then Stop UndefinedBehaviour w
  else Ret tt w.

Definition encrypt_sendbuf (sendbuf : list word) (count : Z)
    (datatype : MPI_Datatype) (op : MPI_Op) (comm : MPI_Comm)
  : M (ptr * list word) :=
  let comm_size := comm_size_of env comm in
  let my_rank := comm_rank_of env comm in
  let sbuf_len := int (count * type_size datatype) in
  let* encr_sbuf := acquire_scratch sbuf_len in
  let* _ := emit (EvAcquire encr_sbuf) in
  if decide (encr_sbuf = nullptr) then ret (nullptr, []) else
  let fail_cleanup : M (ptr * list word) :=
    let* _ := free_scratch encr_sbuf in ret (nullptr, []) in
  let encrypt_block (f : mask_engine -> list word -> word -> list word)
    : M (ptr * list word) :=
    let* i := k_s_index comm in
    let* k_s := k_s_read i in
    let* j := k_n_index comm in
    let* k_n := k_n_read j in
    let* s := get_hear in
    let* _ := check_capacity sbuf_len (count * type_size datatype) in
    let* _ := emit (EvEncrypt datatype op count k_n) in
    ret (encr_sbuf, f (engine s) k_s k_n) in
  if decide (op = MPI_SUM) then
    if decide (datatype = MPI_INT) then
      encrypt_block (fun e k_s k_n =>
        encrypt_block_int_sum e sendbuf count my_rank k_s k_n
          (bool_decide (my_rank = comm_size - 1)))
    else if decide (datatype = MPI_FLOAT) then
      encrypt_block (fun e k_s k_n =>
        encrypt_block_float_sum e sendbuf count my_rank k_s k_n)
    else fail_cleanup
  else if decide (op = MPI_PROD) then
    if decide (datatype = MPI_INT) then
      encrypt_block (fun e k_s k_n =>
        encrypt_block_int_prod e sendbuf count my_rank k_s k_n
          (bool_decide (my_rank = comm_size - 1)))
    else fail_cleanup
  else fail_cleanup.

Definition decrypt_recvbuf (recvbuf : list word) (count : Z)
    (datatype : MPI_Datatype) (op : MPI_Op) (comm : MPI_Comm)
  : M (Z * list word) :=
  let decrypt_block (f : mask_engine -> list word -> word -> list word)
    : M (Z * list word) :=
    let* i := k_s_index comm in
    let* k_s := k_s_read i in
    let* j := k_n_index comm in
    let* k_n := k_n_read j in
    let* s := get_hear in
    let* _ := emit (EvDecrypt datatype op count) in
    ret (MPI_SUCCESS, f (engine s) k_s k_n) in
  if decide (op = MPI_SUM) then
    if decide (datatype = MPI_INT) then
      decrypt_block (fun e k_s k_n =>
        decrypt_block_int_sum e recvbuf count k_s k_n)
    else if decide (datatype = MPI_FLOAT) then
      decrypt_block (fun e k_s k_n =>
        decrypt_block_float_sum e recvbuf count k_s k_n)
    else ret (MPI_ERR_TYPE, recvbuf)
  else if decide (op = MPI_PROD) then
    if decide (datatype = MPI_INT) then
      decrypt_block (fun e k_s k_n =>
        decrypt_block_int_prod e recvbuf count k_s k_n)
    else ret (MPI_ERR_TYPE, recvbuf)
  else ret (MPI_ERR_TYPE, recvbuf).

Definition release_memory (buf : ptr) : M unit :=
  let* _ := c_assert (bool_decide (buf <> nullptr)) in
  free_scratch buf.

(** *** The intercepted all-reduce *)

(** A blocking shadow call through pointers: the library reads the send
    memory and writes its result over the receive buffer. *)
Definition shadow_allreduce (sendbuf recvbuf : list word) (count : Z)
    (datatype : MPI_Datatype) (op : MPI_Op) (comm : MPI_Comm)
  : M (Z * list word) :=
  let* r := mpl (PMPI_Allreduce sendbuf count datatype op comm) in
  ret (r_code r, mem_write recvbuf (r_data r)).

(** The [cleanup:] label. *)
Definition cleanup (encr_sendbuf : ptr) (code : Z) (recvbuf : list word)
  : M (Z * list word) :=
  let* _ := release_memory encr_sendbuf in
  ret (code, recvbuf).

(** [hear->decrypt_recvbuf(recvbuf + offset, count, ...)]. *)
Definition decrypt_at (recvbuf : list word) (offset count : Z)
    (datatype : MPI_Datatype) (op : MPI_Op) (comm : MPI_Comm)
  : M (Z * list word) :=
  let* (code, region) :=
    decrypt_recvbuf (mem_at recvbuf offset) count datatype op comm in
  ret (code, mem_write_at recvbuf offset region).

(** Forming [buf + offset]. *)
Definition check_offset (offset : Z) : M unit :=
  if decide (0 <= offset) then ret tt else stop UndefinedBehaviour.

Record locals := {
  encr_sendbuf : ptr;
  encr_data : list word;
  encr_sendbuf_next : ptr;
  encr_data_next : list word;
  prev_offset : Z;
  cur_offset : Z;
  next_offset : Z;
  prev_count : Z;
  cur_count : Z;
  next_count : Z;
  total_count : Z;
}.

(** The [while (total_count)] loop of the pipelined path followed by the
    decryption of the last block; one unit of [fuel] per iteration.  From
    [PMPI_Iallreduce] until [PMPI_Wait] returns, the library may write the
    block's part of the receive buffer: the reply to the post carries what
    it has written when the call next looks at the buffer or returns
    without waiting, the reply to the wait what it has written in the
    end. *)
Fixpoint pipeline_loop (fuel : nat) (sendbuf : list word)
    (datatype : MPI_Datatype) (op : MPI_Op) (comm : MPI_Comm)
    (l : locals) (recvbuf : list word) {struct fuel} : M (Z * list word) :=
  let dtype_size := type_size datatype in
  if decide (total_count l = 0) then
    let* (code, recvbuf) :=
      decrypt_at recvbuf (prev_offset l) (prev_count l) datatype op comm in
    if decide (code <> MPI_SUCCESS) then ret (code, recvbuf)
    else ret (MPI_SUCCESS, recvbuf)
  else
    match fuel with
    | O => stop OutOfFuel
    | S fuel' =>
      let* r := mpl (PMPI_Iallreduce (encr_data l) (cur_count l)
                       datatype op comm) in
      let recvbuf :=
        mem_write_at recvbuf (cur_offset l)
          (mem_write (mem_at recvbuf (cur_offset l)) (r_data r)) in
      if decide (r_code r <> MPI_SUCCESS)
      then cleanup (encr_sendbuf l) (r_code r) recvbuf else
      let* (code, recvbuf) :=
        (if decide (cur_offset l > 0)
         then decrypt_at recvbuf (prev_offset l) (prev_count l)
                datatype op comm
         else ret (r_code r, recvbuf)) in
      if decide (code <> MPI_SUCCESS)
      then cleanup (encr_sendbuf l) code recvbuf else
      let total_count' := total_count l - cur_count l in
      let next_offset' :=
        if decide (total_count' = 0) then next_offset l
        else int (next_offset l + int (cur_count l * dtype_size)) in
      let next_count' :=
        if decide (total_count' = 0) then next_count l
        else if decide (total_count' < pipelining_block_size cfg)
             then total_count' else pipelining_block_size cfg in
      let* (next_buf, next_data) :=
        (if decide (total_count' = 0)
         then ret (encr_sendbuf_next l, encr_data_next l)
         else
           let* _ := check_offset next_offset' in
           encrypt_sendbuf (mem_at sendbuf next_offset') next_count'
             datatype op comm) in
      if decide (total_count' <> 0 /\ next_buf = nullptr)
      then cleanup (encr_sendbuf l) MPI_ERR_BUFFER recvbuf else
      let* w := mpl PMPI_Wait in
      let recvbuf :=
        mem_write_at recvbuf (cur_offset l)
          (mem_write (mem_at recvbuf (cur_offset l)) (r_data w)) in
      let* _ := release_memory (encr_sendbuf l) in
      pipeline_loop fuel' sendbuf datatype op comm
        {| encr_sendbuf := next_buf; encr_data := next_data;
           encr_sendbuf_next := next_buf; encr_data_next := next_data;
           prev_offset := cur_offset l; cur_offset := next_offset';
           next_offset := next_offset';
           prev_count := cur_count l; cur_count := next_count';
           next_count := next_count'; total_count := total_count' |}
        recvbuf
    end.

Definition MPI_Allreduce (frame : stack_frame) (sendbuf recvbuf : list word)
    (count : Z) (datatype : MPI_Datatype) (op : MPI_Op) (comm : MPI_Comm)
  : M (Z * list word) :=
  if decide ((op <> MPI_SUM /\ op <> MPI_PROD)
             \/ (datatype <> MPI_INT /\ datatype <> MPI_FLOAT))
  then shadow_allreduce sendbuf recvbuf count datatype op comm else
  let* _ := update_k_n comm in
  if negb (USE_PIPELINING cfg) then
    let* (encr_sendbuf, encr_data) :=
      encrypt_sendbuf sendbuf count datatype op comm in
    if decide (encr_sendbuf = nullptr) then ret (MPI_ERR_BUFFER, recvbuf) else
    let* (code, recvbuf) :=
      shadow_allreduce encr_data recvbuf count datatype op comm in
    if decide (code <> MPI_SUCCESS) then cleanup encr_sendbuf code recvbuf else
    let* (code, recvbuf) :=
      decrypt_recvbuf recvbuf count datatype op comm in
    if decide (code <> MPI_SUCCESS) then cleanup encr_sendbuf code recvbuf else
    let* _ := release_memory encr_sendbuf in
    ret (MPI_SUCCESS, recvbuf)
  else
    let total_count := count in
    let cur_count :=
      if decide (total_count < pipelining_block_size cfg)
      then total_count else pipelining_block_size cfg in
    let* (encr_sendbuf, encr_data) :=
      encrypt_sendbuf sendbuf cur_count datatype op comm in
    if decide (encr_sendbuf = nullptr)
    then cleanup encr_sendbuf MPI_ERR_BUFFER recvbuf else
    pipeline_loop (S (Z.to_nat count)) sendbuf datatype op comm
      {| encr_sendbuf := encr_sendbuf; encr_data := encr_data;
         encr_sendbuf_next := junk_encr_sendbuf_next frame;
         encr_data_next := [];
         prev_offset := 0; cur_offset := 0; next_offset := 0;
         prev_count := junk_prev_count frame; cur_count := cur_count;
         next_count := junk_next_count frame;
         total_count := total_count |}
      recvbuf.

End Code.

(** ** The mask engine *)

Module encryption.

Section Naive.

Context (prf : word -> word).

(** Modelled from the spec: [encrypt.hpp] (namespace [encryption]) is
    not among the sources.  For integer sum, rank [r] masks element [j]
    with [m(r, j) = prf(K_s[r] xor (K_n + j))]; every rank but the last
    emits [x + m(r, j)], the last rank emits [x] minus the sum of the
    masks of all other ranks, modulo [2^32]. *)
Definition mask (k_s : list word) (k_n : word) (r j : nat) : word :=
  prf (Z.lxor (nth r k_s 0) (u32 (k_n + Z.of_nat j))).

(** Modelled from the spec: [encrypt.hpp] is not among the sources;
    the sum the last rank subtracts, the masks of all other ranks. *)
Definition mask_total (k_s : list word) (k_n : word) (j : nat) : Z :=
  foldr Z.add 0
    ((fun r => mask k_s k_n r j) <$> seq 0 (length k_s - 1)).

(** Modelled from the spec: [encryption::encrypt_int_sum_naive] of
    [encrypt.hpp], not among the sources, on the first [count]
    elements. *)
Definition encrypt_int_sum_naive (sbuf : list word) (count rank : Z)
    (k_s : list word) (k_n : word) (is_last : bool) : list word :=
  imap (fun j x =>
          if is_last then u32 (x - mask_total k_s k_n j)
          else u32 (x + mask k_s k_n (Z.to_nat rank) j))
       (take (Z.to_nat count) sbuf).

(** Modelled from the spec: [encryption::decrypt_int_sum_naive] of
    [encrypt.hpp], not among the sources; decryption on sum is a no-op
    on the result buffer. *)
Definition decrypt_int_sum_naive (rbuf : list word) (count : Z)
    (k_s : list word) (k_n : word) : list word := rbuf.

End Naive.

(** The members of the namespace that [HearState::HearState] binds. *)
Record lib := {
  prng_uint : word -> word;
  aesni128_prng : word -> word;
  encrypt_int_sum :
    list word -> Z -> Z -> list word -> word -> bool -> list word;
  decrypt_int_sum : list word -> Z -> list word -> word -> list word;
  encrypt_int_sum_aesni128 :
    list word -> Z -> Z -> list word -> word -> bool -> list word;
  decrypt_int_sum_aesni128 :
    list word -> Z -> list word -> word -> list word;
  encrypt_int_prod_naive :
    list word -> Z -> Z -> list word -> word -> bool -> list word;
  decrypt_int_prod_naive : list word -> Z -> list word -> word -> list word;
  encrypt_float_sum_naive :
    list word -> Z -> Z -> list word -> word -> list word;
  decrypt_float_sum_naive :
    list word -> Z -> list word -> word -> list word;
  encrypt_float_sum_aesni128_unroll :
    list word -> Z -> Z -> list word -> word -> list word;
  decrypt_float_sum_aesni128_unroll :
    list word -> Z -> list word -> word -> list word;
}.

End encryption.

(** [HearState::HearState]: the naive back-end, replaced by the block
    cipher one in an [AESNI] build when [HEAR_ENABLE_AESNI] is set. *)
Definition HearState_new (cfg : config) (E : encryption.lib)
    (HEAR_ENABLE_AESNI : bool) (mpool_size : nat) (mpool_sbuf_len : Z)
  : HearState :=
  let naive :=
    {| encrypt_block_int_sum := encryption.encrypt_int_sum E;
       decrypt_block_int_sum := encryption.decrypt_int_sum E;
       encrypt_block_float_sum := encryption.encrypt_float_sum_naive E;
       decrypt_block_float_sum := encryption.decrypt_float_sum_naive E;
       encrypt_block_int_prod := encryption.encrypt_int_prod_naive E;
       decrypt_block_int_prod := encryption.decrypt_int_prod_naive E;
       prng := encryption.prng_uint E |} in
  let aesni :=
    {| encrypt_block_int_sum := encryption.encrypt_int_sum_aesni128 E;
       decrypt_block_int_sum := encryption.decrypt_int_sum_aesni128 E;
       encrypt_block_float_sum :=
         encryption.encrypt_float_sum_aesni128_unroll E;
       decrypt_block_float_sum :=
         encryption.decrypt_float_sum_aesni128_unroll E;
       encrypt_block_int_prod := encryption.encrypt_int_prod_naive E;
       decrypt_block_int_prod := encryption.decrypt_int_prod_naive E;
       prng := encryption.aesni128_prng E |} in
  {| _k_s_storage := []; _k_s_map := ∅;
     _k_n_storage := []; _k_n_map := ∅;
     engine := if AESNI cfg && HEAR_ENABLE_AESNI then aesni else naive;
     _sbuf_mpool := mpool.create mpool_size mpool_sbuf_len |}.

(** ** Start-up and the communicator wrappers

    [alloc_state], [MPI_Init], [MPI_Init_thread] and the three wrappers
    that register a new communicator.  Their shadow calls ([PMPI_Init],
    [PMPI_Comm_dup], ...) come first in each wrapper and nothing of this
    file enters them, so what they hand back is an argument of the
    wrapper.  [MPI_Finalize], which deletes the state and calls
    [PMPI_Finalize], is left out. *)

(** [MPI_COMM_WORLD]: the handle MPICH's [mpi.h] gives it; no statement
    depends on the value. *)
Definition MPI_COMM_WORLD : MPI_Comm := 1140850688.

(** The environment variables as [alloc_state] and the constructor read
    them: [None] for a variable that is not set; a variable the code parses
    is the [int] that [std::atoi] makes of its text. *)
Record environ := {
  HEAR_PIPELINING_BLOCK_SIZE : option Z;
  HEAR_MPOOL_SIZE : option Z;
  HEAR_MPOOL_SBUF_LEN : option Z;
  HEAR_ENABLE_AESNI : bool;
}.

(** The global pointer [hear]: null until [alloc_state] has run. *)
Inductive hear_pointer := hear_null | hear_live.

(** The globals [mpool_size] and [mpool_sbuf_len], of type [size_t], and
    [hear]; [pipelining_block_size] is the field of [config]. *)
Record globals := {
  mpool_size : Z;
  mpool_sbuf_len : Z;
  hear_ptr : hear_pointer;
}.

(** The initialisers of the globals, and that of
    [pipelining_block_size]. *)
Definition initial_globals : globals :=
  {| mpool_size := 4; mpool_sbuf_len := 8388608; hear_ptr := hear_null |}.

Definition initial_block_size : Z := 65536.

(** An [int] assigned to a [size_t]. *)
Definition size_t (z : Z) : Z := z mod 2 ^ 64.

Definition set_block_size (v : Z) (cfg : config) : config :=
  {| USE_MPOOL := USE_MPOOL cfg; USE_PIPELINING := USE_PIPELINING cfg;
     AESNI := AESNI cfg; pipelining_block_size := v |}.

(** [alloc_state]: the environment overrides the globals, then a new
    [HearState] replaces whatever [hear] pointed to.  (In an [AESNI] build
    the key schedule of the block cipher is loaded as well; it lives in
    [encrypt.hpp].) *)
Definition alloc_state (cfg : config) (vars : environ) (E : encryption.lib)
    (g : globals) (w : world) : config * globals * world :=
  let cfg' :=
    if USE_PIPELINING cfg
    then match HEAR_PIPELINING_BLOCK_SIZE vars with
         | Some v => set_block_size v cfg
         | None => cfg
         end
    else cfg in
  let size :=
    if USE_MPOOL cfg
    then match HEAR_MPOOL_SIZE vars with
         | Some v => size_t v
         | None => mpool_size g
         end
    else mpool_size g in
  let len :=
    if USE_MPOOL cfg
    then match HEAR_MPOOL_SBUF_LEN vars with
         | Some v => size_t v
         | None => mpool_sbuf_len g
         end
    else mpool_sbuf_len g in
  let state :=
    if USE_MPOOL cfg
    then HearState_new cfg E (HEAR_ENABLE_AESNI vars) (Z.to_nat size) len
    else HearState_new cfg E (HEAR_ENABLE_AESNI vars) 0 0 in
  (cfg',
   {| mpool_size := size; mpool_sbuf_len := len; hear_ptr := hear_live |},
   set_hear (fun _ => state) w).

(** [hear->...]: a call through the global pointer. *)
Definition through_hear {A : Type} (g : globals) (m : M A) : M A :=
  match hear_ptr g with
  | hear_live => m
  | hear_null => stop UndefinedBehaviour
  end.

(** [MPI_Init], with [native] the return of [PMPI_Init].  The result is
    the configuration and the globals that [alloc_state] leaves, and the
    rest of the call as a program. *)
Definition MPI_Init (cfg : config) (env : process_env) (vars : environ)
    (E : encryption.lib) (native : Z) (g : globals) (w : world)
  : config * globals * prog Z :=
  let '(cfg', g', w') := alloc_state cfg vars E g w in
  (cfg', g',
   if decide (native = MPI_SUCCESS)
   then through_hear g' (insert_new_comm env MPI_COMM_WORLD) w'
   else Ret native w').

(** [MPI_Init_thread], with [native] the return of [PMPI_Init_thread]. *)
Definition MPI_Init_thread (cfg : config) (env : process_env) (vars : environ)
    (E : encryption.lib) (native : Z) (g : globals) (w : world)
  : config * globals * prog Z :=
  let '(cfg', g', w') := alloc_state cfg vars E g w in
  (cfg', g',
   if decide (native = MPI_SUCCESS)
   then through_hear g' (insert_new_comm env MPI_COMM_WORLD) w'
   else Ret native w').

(** [MPI_Comm_create], [MPI_Comm_split] and [MPI_Comm_dup].  [native] is
    the return of the shadow call and the handle it stored in [*newcomm]. *)
Definition MPI_Comm_create (env : process_env) (native : Z * MPI_Comm)
    (g : globals) : M Z :=
  let '(code, newcomm) := native in
  if decide (code = MPI_SUCCESS)
  then through_hear g (insert_new_comm env newcomm)
  else ret code.

Definition MPI_Comm_split (env : process_env) (native : Z * MPI_Comm)
    (g : globals) : M Z :=
  let '(code, newcomm) := native in
  if decide (code = MPI_SUCCESS)
  then through_hear g (insert_new_comm env newcomm)
  else ret code.

Definition MPI_Comm_dup (env : process_env) (native : Z * MPI_Comm)
    (g : globals) : M Z :=
  let '(code, newcomm) := native in
  if decide (code = MPI_SUCCESS)
  then through_hear g (insert_new_comm env newcomm)
  else ret code.

(** ** Running a program *)

Inductive outcome (A : Type) : Type :=
| Returned (a : A)
| Stopped (f : failure).

Arguments Returned {A} a.
Arguments Stopped {A} f.

(** One process against a library that may answer anything: the oracle
    sees the position of the call in the run and the call itself. *)
Definition oracle := nat -> mpl_call -> mpl_reply.

Fixpoint run {A : Type} (o : oracle) (n : nat) (p : prog A)
  : outcome A * world :=
  match p with
  | Ret a w => (Returned a, w)
  | Stop e w => (Stopped e, w)
  | Call c k => run o (S n) (k (o n c))
  end.

(** *** All ranks of one communicator in lock step *)

(** 32-bit integer reduction of one column of contributions. *)
Definition int_sum (column : list word) : word :=
  foldr (fun a acc => u32 (a + acc)) 0 column.

Definition int_prod (column : list word) : word :=
  foldr (fun a acc => u32 (a * acc)) 1 column.

Definition column (contribs : list (list word)) (j : nat) : list word :=
  (fun c => nth j c 0) <$> contribs.

(** What the library's own all-reduce computes from the send buffers of
    all ranks; [other] stands for the reductions this development does not
    look into. *)
Definition native_reduce
    (other : MPI_Datatype -> MPI_Op -> Z -> list (list word) -> list word)
    (datatype : MPI_Datatype) (op : MPI_Op) (count : Z)
    (contribs : list (list word)) : list word :=
  match datatype, op with
  | MPI_INT, MPI_SUM =>
      (fun j => int_sum (column contribs j)) <$> seq 0 (Z.to_nat count)
  | MPI_INT, MPI_PROD =>
      (fun j => int_prod (column contribs j)) <$> seq 0 (Z.to_nat count)
  | _, _ => other datatype op count contribs
  end.

Definition reduce_args (c : mpl_call)
  : option (bool * list word * (Z * MPI_Datatype * MPI_Op * MPI_Comm)) :=
  match c with
  | PMPI_Allreduce s n d o c => Some (true, s, (n, d, o, c))
  | PMPI_Iallreduce s n d o c => Some (false, s, (n, d, o, c))
  | _ => None
  end.

Definition gather_args (c : mpl_call) : option (list word * MPI_Comm) :=
  match c with
  | PMPI_Allgather b c => Some (b, c)
  | _ => None
  end.

Definition bcast_args (c : mpl_call) : option (word * (Z * MPI_Comm)) :=
  match c with
  | PMPI_Bcast b r c => Some (b, (r, c))
  | _ => None
  end.

Definition all_equal `{EqDecision T} (l : list T) : bool :=
  match l with
  | [] => true
  | x :: rest => forallb (fun y => bool_decide (y = x)) rest
  end.

(** The answer every rank gets when the ranks have entered the calls [cs]
    (rank [r] entered [cs !! r]), and the result of the reduction now in
    flight.  A reliable library: matching calls succeed with the reduction,
    the gathered vector or the root's word; calls that do not match have no
    answer. *)
Definition collective
    (other : MPI_Datatype -> MPI_Op -> Z -> list (list word) -> list word)
    (cs : list mpl_call) (in_flight : list word)
  : option (mpl_reply * list word) :=
  match cs with
  | [] => None
  | PMPI_Allreduce _ n d o _ :: _ | PMPI_Iallreduce _ n d o _ :: _ =>
      match mapM reduce_args cs with
      | Some args =>
          if all_equal ((fun a => (a.1.1, a.2)) <$> args) then
            let result :=
              native_reduce other d o n ((fun a => a.1.2) <$> args) in
            match cs with
            | PMPI_Allreduce _ _ _ _ _ :: _ =>
                Some ({| r_code := MPI_SUCCESS; r_data := result |}, in_flight)
            | _ => Some ({| r_code := MPI_SUCCESS; r_data := [] |}, result)
            end
          else None
      | None => None
      end
  | PMPI_Wait :: _ =>
      if forallb (fun c => bool_decide (c = PMPI_Wait)) cs
      then Some ({| r_code := MPI_SUCCESS; r_data := in_flight |}, [])
      else None
  | PMPI_Allgather _ _ :: _ =>
      match mapM gather_args cs with
      | Some args =>
          if all_equal (snd <$> args) then
            Some ({| r_code := MPI_SUCCESS;
                     r_data := imap (fun r a => nth r a.1 0) args |},
                  in_flight)
          else None
      | None => None
      end
  | PMPI_Bcast _ root _ :: _ =>
      match mapM bcast_args cs with
      | Some args =>
          if all_equal (snd <$> args) then
            match args !! Z.to_nat root with
            | Some a =>
                Some ({| r_code := MPI_SUCCESS; r_data := [a.1] |}, in_flight)
            | None => None
            end
          else None
      | None => None
      end
  end.

Definition finished {A : Type} (p : prog A) : option (outcome A * world) :=
  match p with
  | Ret a w => Some (Returned a, w)
  | Stop e w => Some (Stopped e, w)
  | Call _ _ => None
  end.

Definition entered {A : Type} (p : prog A) : option mpl_call :=
  match p with
  | Call c _ => Some c
  | _ => None
  end.

Definition resume {A : Type} (r : mpl_reply) (p : prog A) : prog A :=
  match p with
  | Call c k => k r
  | _ => p
  end.

(** Rank [r] runs [ps !! r].  Either every rank has finished, or every
    rank is blocked in a collective and one round of the library lets all
    of them go on; anything else (a rank that returned while the others
    wait, calls that do not match) has no result. *)
Fixpoint run_ranks {A : Type}
    (other : MPI_Datatype -> MPI_Op -> Z -> list (list word) -> list word)
    (fuel : nat) (in_flight : list word) (ps : list (prog A))
  : option (list (outcome A * world)) :=
  match mapM finished ps with
  | Some results => Some results
  | None =>
      match fuel with
      | O => None
      | S fuel' =>
          match mapM entered ps with
          | Some cs =>
              match collective other cs in_flight with
              | Some (reply, in_flight') =>
                  run_ranks other fuel' in_flight' (resume reply <$> ps)
              | None => None
              end
          | None => None
          end
      end
  end.

(** ** Vocabulary of the statements *)

(** The accessors [shared_keys(comm)] and [nonce(comm)]: what
    [_k_s_storage[_k_s_map[comm]]] and [_k_n_storage[_k_n_map[comm]]] read
    for a registered communicator. *)
Definition K_s (s : HearState) (comm : MPI_Comm) : option (list word) :=
  i ← _k_s_map s !! comm; _k_s_storage s !! i.

Definition K_n (s : HearState) (comm : MPI_Comm) : option word :=
  i ← _k_n_map s !! comm; _k_n_storage s !! i.

(** What rank [comm_rank_of env comm] hands to the all-gather of
    [insert_new_comm], and what it hands to the broadcast. *)
Definition gather_buf (env : process_env) (comm : MPI_Comm) (w : world)
  : list word :=
  <[Z.to_nat (comm_rank_of env comm) := u32 (noise env (noise_pos w))]>
    (replicate (Z.to_nat (comm_size_of env comm))
       (u32 (comm_rank_of env comm))).

Definition nonce_seed (env : process_env) (comm : MPI_Comm) (w : world)
  : word :=
  if decide (comm_rank_of env comm = root_rank)
  then u32 (noise env (S (noise_pos w))) else 42.

(** [Q] holds at every way the program can end, whatever the library
    answers. *)
Fixpoint all_leaves {A : Type} (Q : outcome A -> world -> Prop) (p : prog A)
  : Prop :=
  match p with
  | Ret a w => Q (Returned a) w
  | Stop e w => Q (Stopped e) w
  | Call c k => forall r, all_leaves Q (k r)
  end.

(** Scratch resources of a process: free slabs of the pool and live heap
    buffers. *)
Definition free_count (w : world) : nat :=
  mpool.free_count (_sbuf_mpool (hear w)).

Definition balanced (w0 w : world) : Prop :=
  free_count w = free_count w0 /\ heap w = heap w0.

(** Exactly the buffer [p] has been taken since [w0] and not given back. *)
Definition holds (cfg : config) (p : ptr) (w0 w : world) : Prop :=
  if USE_MPOOL cfg
  then (exists i, p = Slab i) /\ S (free_count w) = free_count w0
       /\ heap w = heap w0
  else (exists i, p = Heap i /\ (i ∉ heap w0) /\ heap w = {[i]} ∪ heap w0)
       /\ free_count w = free_count w0.

Definition is_reduce (c : mpl_call) : bool :=
  match c with
  | PMPI_Allreduce _ _ _ _ _ | PMPI_Iallreduce _ _ _ _ _ => true
  | _ => false
  end.

Definition is_mpl (e : event) : bool :=
  match e with EvMPL _ _ => true | _ => false end.

Definition is_advance (e : event) : bool :=
  match e with EvAdvance _ _ _ => true | _ => false end.

Definition is_encrypt (e : event) : bool :=
  match e with EvEncrypt _ _ _ _ => true | _ => false end.

(** Events of the mask engine and the scratch buffers; an encryption is
    expected to use the nonce [kn] when there is one. *)
Definition local_event (kn : option word) (e : event) : Prop :=
  match e with
  | EvAcquire _ | EvRelease _ | EvDecrypt _ _ _ => True
  | EvEncrypt _ _ _ k => forall v, kn = Some v -> k = v
  | _ => False
  end.

(** What a step that neither advances a nonce nor calls the library may
    change. *)
Record local_step (comm : MPI_Comm) (w w' : world) : Prop := {
  ls_storage : _k_n_storage (hear w') = _k_n_storage (hear w);
  ls_map : forall i, _k_n_map (hear w) !! comm = Some i ->
                     _k_n_map (hear w') !! comm = Some i;
  ls_log : exists evs, log w' = log w ++ evs
                       /\ Forall (local_event (K_n (hear w) comm)) evs;
}.

Definition released (cfg : config) (p : ptr) (w w' : world) : Prop :=
  if USE_MPOOL cfg
  then heap w' = heap w
       /\ forall i, p = Slab i -> free_count w' = S (free_count w)
  else free_count w' = free_count w
       /\ forall i, p = Heap i -> heap w' = heap w ∖ {[i]}.

(** Events that may follow the advance of the nonce to [kn]: no second
    advance, and encryptions under [kn]. *)
Definition after_advance (kn : word) (e : event) : Prop :=
  match e with
  | EvAdvance _ _ _ => False
  | EvEncrypt _ _ _ k => k = kn
  | _ => True
  end.

(** A reduction call of the library that did not succeed. *)
Definition failed_reduce (code : Z) (e : event) : Prop :=
  match e with
  | EvMPL c r => is_reduce c = true /\ r_code r = code /\ code <> MPI_SUCCESS
  | _ => False
  end.

Definition no_failed_reduce (e : event) : Prop :=
  match e with
  | EvMPL c r => is_reduce c = true -> r_code r = MPI_SUCCESS
  | _ => True
  end.

(** While the masked path runs: [comm] reads the nonce [kn], and since
    the advance (log [base]) only harmless events happened. *)
Definition on_track (comm : MPI_Comm) (kn : word) (base : list event)
    (w : world) : Prop :=
  K_n (hear w) comm = Some kn
  /\ exists evs, log w = base ++ evs
       /\ Forall (after_advance kn) evs /\ Forall no_failed_reduce evs.

(** How the masked path may end: still on track, or right after a failed
    reduction whose code it returns. *)
Definition masked_end (comm : MPI_Comm) (kn : word) (base : list event)
    (out : outcome (Z * list word)) (w : world) : Prop :=
  K_n (hear w) comm = Some kn
  /\ exists evs, log w = base ++ evs
       /\ Forall (after_advance kn) evs
       /\ forall code, Exists (failed_reduce code) evs ->
            exists recvbuf, out = Returned (code, recvbuf).

(** What the pipelined loop guarantees at every end. *)
Definition loop_post (comm : MPI_Comm) (kn : word) (base : list event)
    (w0 : world) (out : outcome (Z * list word)) (w' : world) : Prop :=
  masked_end comm kn base out w'
  /\ forall x, out = Returned x -> balanced w0 w'.

(** What a supported [MPI_Allreduce] guarantees at every end: it stopped
    in [update_k_n] on a communicator without a nonce slot, or it advanced
    the nonce once and went down the masked path; and when it returns,
    the scratch buffers are back unless the pipelined path was entered
    with [count = 0]. *)
Definition allreduce_post (cfg : config) (comm : MPI_Comm) (count : Z)
    (w : world) (out : outcome (Z * list word)) (w' : world) : Prop :=
  ((log w' = log w /\ (exists e, out = Stopped e)
    /\ forall i v,
         _k_n_map (hear w) !! comm = Some i ->
         _k_n_storage (hear w) !! i = Some v -> False)
   \/ exists old new,
        masked_end comm new (log w ++ [EvAdvance comm old new]) out w'
        /\ forall i v,
             _k_n_map (hear w) !! comm = Some i ->
             _k_n_storage (hear w) !! i = Some v ->
             old = v /\ new = prng (engine (hear w)) v)
  /\ (forall x, out = Returned x ->
       balanced w w'
       \/ (USE_PIPELINING cfg = true /\ count = 0
           /\ exists evs, log w' = log w ++ evs
                /\ Forall no_failed_reduce evs)).

(** The world after [update_k_n] on a registered communicator. *)
Definition advanced (comm : MPI_Comm) (i : nat) (old : word) (w : world) : world :=
  add_log (EvAdvance comm old (prng (engine (hear w)) old))
    (set_hear (fun s =>
       set_k_n_storage (<[i := prng (engine (hear w)) old]> (_k_n_storage s)) s) w).

(** ** Vocabulary of the correctness statement *)

(** The sum of a list of integers. *)
Definition zsum (l : list Z) : Z := foldr Z.add 0 l.

(** What rank [r] of [N] sends for the block of [b] elements that starts
    at element [c] of its input [x]. *)
Definition masked_block (prf : word -> word) (k_s : list word) (k_n : word)
    (N : nat) (x : list word) (r c b : nat) : list word :=
  encryption.encrypt_int_sum_naive prf (drop c x) (Z.of_nat b) (Z.of_nat r)
    k_s k_n (bool_decide (Z.of_nat r = Z.of_nat N - 1)).

(** A rank of [comm] that holds the shared keys [k_s] and the nonce [k_n]
    and runs the integer-sum engine of the spec over [prf]. *)
Record rank_ready (prf g : word -> word) (comm : MPI_Comm) (N : nat)
    (k_s : list word) (k_n : word) (env : process_env) (r : nat) (w : world)
  : Prop := {
  rr_size : comm_size_of env comm = Z.of_nat N;
  rr_rank : comm_rank_of env comm = Z.of_nat r;
  rr_k_s : K_s (hear w) comm = Some k_s;
  rr_k_n : K_n (hear w) comm = Some k_n;
  rr_encrypt : encrypt_block_int_sum (engine (hear w))
               = encryption.encrypt_int_sum_naive prf;
  rr_decrypt : decrypt_block_int_sum (engine (hear w))
               = encryption.decrypt_int_sum_naive;
  rr_prng : prng (engine (hear w)) = g;
}.

(** The pool, when there is one, can serve [slabs] more buffers of [bytes]
    bytes. *)
Definition pool_ready (cfg : config) (slabs : nat) (bytes : Z) (w : world)
  : Prop :=
  USE_MPOOL cfg = true ->
  (slabs <= free_count w)%nat
  /\ bytes <= mpool.sbuf_len (_sbuf_mpool (hear w)).

(** Without the pool, [new char[sbuf_len]] yields a buffer that holds the
    [bytes] bytes of a block: the length that the code computes in [int]
    is neither negative nor short of [bytes]. *)
Definition heap_ready (cfg : config) (bytes : Z) : Prop :=
  USE_MPOOL cfg = false -> 0 <= int bytes /\ bytes <= int bytes.

(** The element count of the first block that a supported request hands to
    [encrypt_sendbuf], the number of scratch buffers the request holds at
    once, and the byte offset of its last block. *)
Definition first_block (cfg : config) (count : Z) : Z :=
  if USE_PIPELINING cfg then Z.min count (pipelining_block_size cfg)
  else count.

Definition slabs_needed (cfg : config) (count : Z) : nat :=
  if USE_PIPELINING cfg && bool_decide (pipelining_block_size cfg < count)
  then 2 else 1.

Definition last_offset (cfg : config) (count : Z) : Z :=
  4 * (pipelining_block_size cfg
       * ((count - 1) / pipelining_block_size cfg)).

(** What a request of [count] four-byte elements asks of the scratch
    buffers and of the [int] arithmetic: with the pool, the free slabs it
    holds at once, each long enough for a block; without it, a block
    length in bytes that is an [int]; on the pipelined path, a last offset
    in bytes that is an [int]. *)
Record request_fits (cfg : config) (count : Z) (w : world) : Prop := {
  rf_slabs : USE_MPOOL cfg = true ->
             (slabs_needed cfg count <= free_count w)%nat;
  rf_slab_len : USE_MPOOL cfg = true ->
                4 * first_block cfg count
                <= mpool.sbuf_len (_sbuf_mpool (hear w));
  rf_new : USE_MPOOL cfg = false -> 4 * first_block cfg count <= INT_MAX;
  rf_offset : USE_PIPELINING cfg = true -> last_offset cfg count <= INT_MAX;
}.

(** The key/nonce store and the engine are the same in both worlds. *)
Definition same_store (w w' : world) : Prop :=
  _k_s_storage (hear w') = _k_s_storage (hear w)
  /\ _k_s_map (hear w') = _k_s_map (hear w)
  /\ _k_n_storage (hear w') = _k_n_storage (hear w)
  /\ _k_n_map (hear w') = _k_n_map (hear w)
  /\ engine (hear w') = engine (hear w)
  /\ mpool.sbuf_len (_sbuf_mpool (hear w'))
     = mpool.sbuf_len (_sbuf_mpool (hear w)).

(** A buffer the allocator of this build hands out. *)
Definition held (cfg : config) (p : ptr) : Prop :=
  if USE_MPOOL cfg then exists i, p = Slab i else exists i, p = Heap i.

(** The head of the pipelined loop on a ready rank with [T] elements left
    to reduce: the current block is masked and its buffer held. *)
Record loop_ready (cfg : config) (prf g : word -> word) (comm : MPI_Comm)
    (N : nat) (k_s : list word) (k_n : word) (env : process_env) (r : nat)
    (x : list word) (count T : nat) (l : locals) (w : world) : Prop := {
  lr_rank : rank_ready prf g comm N k_s k_n env r w;
  lr_total : total_count l = Z.of_nat T;
  lr_bounds : (0 < T <= count)%nat;
  lr_cur_count :
    cur_count l = Z.min (Z.of_nat T) (pipelining_block_size cfg);
  lr_cur_offset : cur_offset l = 4 * Z.of_nat (count - T);
  lr_next_offset : next_offset l = 4 * Z.of_nat (count - T);
  lr_data :
    encr_data l
    = masked_block prf k_s k_n N x r (count - T)
        (Z.to_nat (Z.min (Z.of_nat T) (pipelining_block_size cfg)));
  lr_held : held cfg (encr_sendbuf l);
  lr_pool :
    USE_MPOOL cfg = true ->
    (pipelining_block_size cfg < Z.of_nat T -> (1 <= free_count w)%nat)
    /\ 4 * Z.min (Z.of_nat count) (pipelining_block_size cfg)
       <= mpool.sbuf_len (_sbuf_mpool (hear w));
  lr_new :
    USE_MPOOL cfg = false ->
    4 * Z.min (Z.of_nat count) (pipelining_block_size cfg) <= INT_MAX;
  lr_offset : last_offset cfg (Z.of_nat count) <= INT_MAX;
  lr_blocks :
    exists k, 0 <= k /\ Z.of_nat (count - T) = k * pipelining_block_size cfg;
}.

(** The library's integer sum of the plain inputs of all ranks. *)
Definition plain_sum
    (other : MPI_Datatype -> MPI_Op -> Z -> list (list word) -> list word)
    (N : nat) (xs : nat -> list word) (count : nat) : list word :=
  native_reduce other MPI_INT MPI_SUM (Z.of_nat count) (xs <$> seq 0 N).

(** The receive buffer once the first [c] elements of the sum [total] are
    still to come from [recvbuf]'s own prefix: [recvbuf] up to [c], then
    [total] from [c] on, then the rest of [recvbuf]. *)
Definition spliced (total : list word) (c : nat) (recvbuf : list word)
  : list word :=
  take c recvbuf ++ drop c total ++ drop (length total) recvbuf.

(** ** Vocabulary of the further properties *)

(** The pairs the mask engine handles: the branches of [encrypt_sendbuf]
    and [decrypt_recvbuf] that reach a block encryptor or decryptor. *)
Definition maskable (datatype : MPI_Datatype) (op : MPI_Op) : Prop :=
  (op = MPI_SUM /\ (datatype = MPI_INT \/ datatype = MPI_FLOAT))
  \/ (op = MPI_PROD /\ datatype = MPI_INT).

(** What [encrypt_sendbuf] has the block encryptor of a maskable pair
    write, and what [decrypt_recvbuf] has its block decryptor leave. *)
Definition encrypted (e : mask_engine) (env : process_env)
    (sendbuf : list word) (count : Z) (datatype : MPI_Datatype) (op : MPI_Op)
    (comm : MPI_Comm) (k_s : list word) (k_n : word) : list word :=
  let my_rank := comm_rank_of env comm in
  let last := bool_decide (my_rank = comm_size_of env comm - 1) in
  match op, datatype with
  | MPI_SUM, MPI_INT =>
      encrypt_block_int_sum e sendbuf count my_rank k_s k_n last
  | MPI_SUM, _ => encrypt_block_float_sum e sendbuf count my_rank k_s k_n
  | _, _ => encrypt_block_int_prod e sendbuf count my_rank k_s k_n last
  end.

Definition decrypted (e : mask_engine) (recvbuf : list word) (count : Z)
    (datatype : MPI_Datatype) (op : MPI_Op) (k_s : list word) (k_n : word)
  : list word :=
  match op, datatype with
  | MPI_SUM, MPI_INT => decrypt_block_int_sum e recvbuf count k_s k_n
  | MPI_SUM, _ => decrypt_block_float_sum e recvbuf count k_s k_n
  | _, _ => decrypt_block_int_prod e recvbuf count k_s k_n
  end.

(** A send buffer that is the output of the encryptor of [(dt, op)] on a
    part of [sendbuf], under the keys [k_s] and the nonce [k_n]. *)
Definition masked_part (e : mask_engine) (env : process_env)
    (sendbuf : list word) (dt : MPI_Datatype) (op : MPI_Op) (comm : MPI_Comm)
    (k_s : list word) (k_n : word) (s : list word) : Prop :=
  exists offset count,
    s = encrypted e env (mem_at sendbuf offset) count dt op comm k_s k_n.

(** Every send buffer handed to a reduction of the library satisfies [P]. *)
Definition sends (P : list word -> Prop) (e : event) : Prop :=
  match e with
  | EvMPL (PMPI_Allreduce s _ _ _ _) _
  | EvMPL (PMPI_Iallreduce s _ _ _ _) _ => P s
  | _ => True
  end.

Definition is_iallreduce (e : event) : bool :=
  match e with EvMPL (PMPI_Iallreduce _ _ _ _ _) _ => true | _ => false end.

Definition is_wait (e : event) : bool :=
  match e with EvMPL PMPI_Wait _ => true | _ => false end.

(** How many events of [evs] satisfy [f]. *)
Definition tally (f : event -> bool) (evs : list event) : nat :=
  length (List.filter f evs).

(** A step that leaves the key/nonce store, the engine and the noise
    position alone and calls nothing of the library. *)
Record quiet_step (w w' : world) : Prop := {
  qs_store : same_store w w';
  qs_noise : noise_pos w' = noise_pos w;
  qs_log : exists evs, log w' = log w ++ evs
                       /\ Forall (fun e => is_mpl e = false) evs;
}.

(** [comm] has an entry in both maps of the store. *)
Definition registered (comm : MPI_Comm) (w : world) : Prop :=
  is_Some (_k_s_map (hear w) !! comm) /\ is_Some (_k_n_map (hear w) !! comm).

(** Since [w0]: the store is as it was, every reduction succeeded and was
    handed a buffer in [P], and [k] of the posted reductions have not been
    waited for. *)
Definition trace_at (P : list word -> Prop) (k : nat) (w0 w : world) : Prop :=
  same_store w0 w /\ noise_pos w = noise_pos w0
  /\ exists evs, log w = log w0 ++ evs
       /\ Forall (sends P) evs
       /\ Forall no_failed_reduce evs
       /\ tally is_iallreduce evs = (k + tally is_wait evs)%nat.

(** How the masked path may end after [w0]: with success and every posted
    reduction waited for; with the buffer error; or with the code of a
    failed reduction; in the last two cases [k] posted reductions are left
    without their wait. *)
Definition trace_post (P : list word -> Prop) (k : nat) (w0 : world)
    (out : outcome (Z * list word)) (w' : world) : Prop :=
  same_store w0 w' /\ noise_pos w' = noise_pos w0
  /\ exists evs, log w' = log w0 ++ evs
       /\ Forall (sends P) evs
       /\ forall code rb, out = Returned (code, rb) ->
            (code = MPI_SUCCESS /\ Forall no_failed_reduce evs
             /\ tally is_iallreduce evs = tally is_wait evs)
            \/ (code = MPI_ERR_BUFFER /\ Forall no_failed_reduce evs
                /\ tally is_iallreduce evs = (k + tally is_wait evs)%nat)
            \/ (Exists (failed_reduce code) evs
                /\ tally is_iallreduce evs = (k + tally is_wait evs)%nat).

(** The reductions left without their wait when a call ends in an error:
    one on the pipelined path, none otherwise. *)
Definition in_flight_at_error (cfg : config) : nat :=
  if USE_PIPELINING cfg then 1%nat else 0%nat.

(** ** A concrete process, for evaluations

    One process of a communicator of one rank, registered under handle 7,
    with the spec's integer-sum engine over a multiplicative hash. *)

Definition demo_prf (x : word) : word := u32 (x * 2654435761 + 12345).

Definition demo_engine : mask_engine :=
  {| encrypt_block_int_sum := encryption.encrypt_int_sum_naive demo_prf;
     decrypt_block_int_sum := encryption.decrypt_int_sum_naive;
     encrypt_block_int_prod := fun sbuf _ _ _ _ _ => sbuf;
     decrypt_block_int_prod := fun rbuf _ _ _ => rbuf;
     encrypt_block_float_sum := fun sbuf _ _ _ _ => sbuf;
     decrypt_block_float_sum := fun rbuf _ _ _ => rbuf;
     prng := demo_prf |}.

Definition demo_comm : MPI_Comm := 7.

Definition demo_env (N r : Z) : process_env :=
  {| comm_size_of := fun _ => N; comm_rank_of := fun _ => r;
     noise := fun n => 1000 * (r + 1) + Z.of_nat n |}.

Definition demo_world (slabs : list nat) : world :=
  {| hear :=
       {| _k_s_storage := [[1000; 2000]]; _k_s_map := {[demo_comm := 0%nat]};
          _k_n_storage := [1001]; _k_n_map := {[demo_comm := 0%nat]};
          engine := demo_engine;
          _sbuf_mpool := {| mpool.free_slabs := slabs; mpool.sbuf_len := 64 |} |};
     heap := ∅; noise_pos := 2; log := [] |}.

Definition demo_frame : stack_frame :=
  {| junk_prev_count := 77; junk_next_count := 88;
     junk_encr_sendbuf_next := Heap 99 |}.

Definition demo_cfg (pool pipelining : bool) (B : Z) : config :=
  {| USE_MPOOL := pool; USE_PIPELINING := pipelining; AESNI := false;
     pipelining_block_size := B |}.

(** A library for a communicator of one process: every call succeeds and a
    reduction hands back the contribution. *)
Definition solo_oracle : oracle := fun _ c =>
  {| r_code := MPI_SUCCESS;
     r_data := match c with
               | PMPI_Allreduce s _ _ _ _ => s
               | _ => []
               end |}.

(** The reductions the development does not look into, left empty. *)
Definition no_other
  : MPI_Datatype -> MPI_Op -> Z -> list (list word) -> list word :=
  fun _ _ _ _ => [].

(** The namespace [encryption] with the spec's integer-sum engine. *)
Definition demo_lib : encryption.lib :=
  {| encryption.prng_uint := demo_prf;
     encryption.aesni128_prng := demo_prf;
     encryption.encrypt_int_sum := encryption.encrypt_int_sum_naive demo_prf;
     encryption.decrypt_int_sum := encryption.decrypt_int_sum_naive;
     encryption.encrypt_int_sum_aesni128 :=
       encryption.encrypt_int_sum_naive demo_prf;
     encryption.decrypt_int_sum_aesni128 := encryption.decrypt_int_sum_naive;
     encryption.encrypt_int_prod_naive := fun sbuf _ _ _ _ _ => sbuf;
     encryption.decrypt_int_prod_naive := fun rbuf _ _ _ => rbuf;
     encryption.encrypt_float_sum_naive := fun sbuf _ _ _ _ => sbuf;
     encryption.decrypt_float_sum_naive := fun rbuf _ _ _ => rbuf;
     encryption.encrypt_float_sum_aesni128_unroll := fun sbuf _ _ _ _ => sbuf;
     encryption.decrypt_float_sum_aesni128_unroll := fun rbuf _ _ _ => rbuf |}.

(** A process right after [alloc_state]: nothing registered yet. *)
Definition blank_world : world :=
  {| hear := HearState_new (demo_cfg true false 65536) demo_lib false 4 64;
     heap := ∅; noise_pos := 0; log := [] |}.

(** The inputs of scenario S1: rank 0 sends 1..4, rank 1 sends 10..40. *)
Definition demo_inputs (r : nat) : list word :=
  nth r [[1; 2; 3; 4]; [10; 20; 30; 40]] [].

(** The environment with none of the variables set, and a process of a
    one-rank world right after [MPI_Init] has succeeded there. *)
Definition demo_vars : environ :=
  {| HEAR_PIPELINING_BLOCK_SIZE := None; HEAR_MPOOL_SIZE := None;
     HEAR_MPOOL_SBUF_LEN := None; HEAR_ENABLE_AESNI := false |}.

Definition started_world : world :=
  (run solo_oracle 0
     (MPI_Init (demo_cfg true false initial_block_size) (demo_env 1 0)
        demo_vars demo_lib MPI_SUCCESS initial_globals blank_world).2).2.

(** A library for one process that completes a posted reduction at once:
    the receive buffer is written when [PMPI_Iallreduce] returns. *)
Definition eager_oracle : oracle := fun _ c =>
  {| r_code := MPI_SUCCESS;
     r_data := match c with
               | PMPI_Allreduce s _ _ _ _ | PMPI_Iallreduce s _ _ _ _ => s
               | _ => []
               end |}.

(** A library whose reductions fail with code 5. *)
Definition failing_oracle : oracle := fun _ _ =>
  {| r_code := 5; r_data := [] |}.

(** * Properties *)

(** ** Program trees *)

Lemma all_leaves_run {A : Type} (Q : outcome A -> world -> Prop) (p : prog A) :
  all_leaves Q p -> forall o n, Q (run o n p).1 (run o n p).2.
Proof.
  induction p as [a w|e w|c k IH]; simpl; intros HQ o n; auto.
Qed.

Lemma all_leaves_mono {A : Type} (Q Q' : outcome A -> world -> Prop) (p : prog A) :
  all_leaves Q p -> (forall out w, Q out w -> Q' out w) -> all_leaves Q' p.
Proof.
  induction p as [a w|e w|c k IH]; simpl; intros HQ Himp; auto.
Qed.

Lemma all_leaves_pbind {A B : Type} (p : prog A) (f : A -> M B)
    (Q : outcome B -> world -> Prop) :
  all_leaves (fun out w =>
                match out with
                | Returned a => all_leaves Q (f a w)
                | Stopped e => Q (Stopped e) w
                end) p ->
  all_leaves Q (pbind p f).
Proof.
  induction p as [a w|e w|c k IH]; simpl; intros H; auto.
Qed.

Lemma all_leaves_bind {A B : Type} (m : M A) (f : A -> M B) (w : world)
    (Q : outcome B -> world -> Prop) :
  all_leaves (fun out w' =>
                match out with
                | Returned a => all_leaves Q (f a w')
                | Stopped e => Q (Stopped e) w'
                end) (m w) ->
  all_leaves Q (bind m f w).
Proof. apply all_leaves_pbind. Qed.

(** ** Key/nonce store *)

Lemma k_n_index_registered comm w i :
  _k_n_map (hear w) !! comm = Some i -> k_n_index comm w = Ret i w.
Proof. intros H. unfold k_n_index. by rewrite H. Qed.

Lemma k_s_index_registered comm w i :
  _k_s_map (hear w) !! comm = Some i -> k_s_index comm w = Ret i w.
Proof. intros H. unfold k_s_index. by rewrite H. Qed.

Lemma k_n_read_at i w v :
  _k_n_storage (hear w) !! i = Some v -> k_n_read i w = Ret v w.
Proof. intros H. unfold k_n_read. by rewrite H. Qed.

Lemma k_s_read_at i w v :
  _k_s_storage (hear w) !! i = Some v -> k_s_read i w = Ret v w.
Proof. intros H. unfold k_s_read. by rewrite H. Qed.

Lemma k_n_write_at i w v :
  (i < length (_k_n_storage (hear w)))%nat ->
  k_n_write i v w
  = Ret tt (set_hear (fun s => set_k_n_storage (<[i := v]> (_k_n_storage s)) s) w).
Proof. intros H. unfold k_n_write. by rewrite decide_True. Qed.

Lemma k_s_write_at i w v :
  (i < length (_k_s_storage (hear w)))%nat ->
  k_s_write i v w
  = Ret tt (set_hear (fun s => set_k_s_storage (<[i := v]> (_k_s_storage s)) s) w).
Proof. intros H. unfold k_s_write. by rewrite decide_True. Qed.

Lemma update_k_n_registered comm w i old :
  _k_n_map (hear w) !! comm = Some i ->
  _k_n_storage (hear w) !! i = Some old ->
  update_k_n comm w = Ret tt (advanced comm i old w).
Proof.
  intros Hm Hs. unfold update_k_n, bind.
  rewrite (k_n_index_registered _ _ _ Hm). simpl.
  rewrite (k_n_read_at _ _ _ Hs). simpl.
  rewrite (k_n_index_registered _ _ _ Hm). simpl.
  rewrite k_n_write_at by (by eapply lookup_lt_Some).
  reflexivity.
Qed.

Lemma HearState_new_prng cfg E flag P L :
  prng (engine (HearState_new cfg E flag P L))
  = if AESNI cfg && flag then encryption.aesni128_prng E
    else encryption.prng_uint E.
Proof. unfold HearState_new. simpl. by destruct (AESNI cfg && flag). Qed.

(** C8: on a process whose engine is the one the constructor bound, and on
    a registered communicator, [update_k_n] returns, the slot of [comm] in
    [_k_n_storage] then holds the image of its previous value under the
    generator selected at initialisation ([aesni128_prng] in an AESNI
    build with [HEAR_ENABLE_AESNI] set, [prng_uint] otherwise), and every
    other slot, both maps, the shared keys, the engine and the pool are
    unchanged. *)
Theorem update_k_n_advances_only_its_nonce cfg E flag P L comm w i old :
  engine (hear w) = engine (HearState_new cfg E flag P L) ->
  _k_n_map (hear w) !! comm = Some i ->
  _k_n_storage (hear w) !! i = Some old ->
  let selected :=
    if AESNI cfg && flag then encryption.aesni128_prng E
    else encryption.prng_uint E in
  exists w',
    update_k_n comm w = Ret tt w'
    /\ K_n (hear w') comm = Some (selected old)
    /\ (forall j, j <> i ->
          _k_n_storage (hear w') !! j = _k_n_storage (hear w) !! j)
    /\ length (_k_n_storage (hear w')) = length (_k_n_storage (hear w))
    /\ _k_n_map (hear w') = _k_n_map (hear w)
    /\ _k_s_storage (hear w') = _k_s_storage (hear w)
    /\ _k_s_map (hear w') = _k_s_map (hear w)
    /\ engine (hear w') = engine (hear w)
    /\ _sbuf_mpool (hear w') = _sbuf_mpool (hear w).
Proof.
  intros He Hm Hs selected. exists (advanced comm i old w).
  split; [by apply update_k_n_registered|].
  assert (Hlt : (i < length (_k_n_storage (hear w)))%nat)
    by (by eapply lookup_lt_Some).
  repeat split; simpl; try done.
  - unfold K_n. simpl. rewrite Hm. simpl.
    rewrite He, HearState_new_prng. by apply list_lookup_insert_eq.
  - intros j Hj. by apply list_lookup_insert_ne.
  - by rewrite length_insert.
Qed.

Lemma back_lookup {A : Type} (l : list A) (x : A) :
  (l ++ [x]) !! (length (l ++ [x]) - 1)%nat = Some x.
Proof.
  rewrite length_app. simpl.
  replace (length l + 1 - 1)%nat with (length l + 0)%nat by lia.
  by rewrite lookup_app_r, Nat.add_sub' by lia.
Qed.

Lemma back_lt {A : Type} (l : list A) (x : A) :
  (length (l ++ [x]) - 1 < length (l ++ [x]))%nat.
Proof. rewrite length_app. simpl. lia. Qed.

Lemma run_entered {A : Type} (p : prog A) c o n :
  entered p = Some c -> run o n p = run o (S n) (resume (o n c) p).
Proof. destruct p; simpl; intros H; by simplify_eq. Qed.

(** ** Registration *)

(** C6: when [comm] already has an entry in the store, [insert_new_comm]
    on it does not return: whatever the library answers, the process stops
    in the assertion on the result of the map insertion. *)
Theorem insert_new_comm_duplicate_aborts env comm (w : world) (o : oracle) n :
  0 <= comm_rank_of env comm < comm_size_of env comm ->
  is_Some (_k_s_map (hear w) !! comm) ->
  (run o n (insert_new_comm env comm w)).1 = Stopped AssertionFailed.
Proof.
  intros Hr [i Hi].
  unfold insert_new_comm, bind, modify_hear, encr_noise_generator, get_hear.
  simpl.
  unfold k_s_read at 1. simpl. rewrite back_lookup. simpl.
  rewrite decide_True by (rewrite length_replicate; lia). simpl.
  rewrite k_s_write_at by (simpl; apply back_lt).
  simpl. unfold k_s_map_insert at 1. simpl. by rewrite Hi.
Qed.

(** The course of [insert_new_comm] on a communicator new to the store:
    the all-gather, then either the early return with its code, or the
    broadcast and the return. *)
Lemma insert_new_comm_shape env comm (w : world) :
  0 <= comm_rank_of env comm < comm_size_of env comm ->
  _k_s_map (hear w) !! comm = None ->
  _k_n_map (hear w) !! comm = None ->
  exists k1,
    insert_new_comm env comm w
    = Call (PMPI_Allgather (gather_buf env comm w) comm) k1
    /\ forall r1,
       (r_code r1 <> MPI_SUCCESS ->
        exists w',
          k1 r1 = Ret (r_code r1) w'
          /\ K_s (hear w') comm
             = Some (mem_write (gather_buf env comm w) (r_data r1)))
       /\ (r_code r1 = MPI_SUCCESS ->
           exists k2,
             k1 r1 = Call (PMPI_Bcast (nonce_seed env comm w) root_rank comm) k2
             /\ forall r2, exists w',
                k2 r2
                = Ret (if decide (r_code r2 <> MPI_SUCCESS)
                       then r_code r2 else MPI_SUCCESS) w'
                /\ K_s (hear w') comm
                   = Some (mem_write (gather_buf env comm w) (r_data r1))
                /\ K_n (hear w') comm
                   = Some (default (nonce_seed env comm w) (head (r_data r2)))).
Proof.
  intros Hr Hs Hn.
  unfold insert_new_comm, bind, modify_hear, encr_noise_generator, get_hear.
  simpl.
  set (v0 := replicate _ _).
  set (back := (length (_k_s_storage (hear w) ++ [v0]) - 1)%nat).
  assert (Hback : (_k_s_storage (hear w) ++ [v0]) !! back = Some v0)
    by apply back_lookup.
  assert (Hblt : (back < length (_k_s_storage (hear w) ++ [v0]))%nat)
    by apply back_lt.
  unfold k_s_read at 1. simpl. rewrite Hback. simpl.
  rewrite decide_True by (unfold v0; rewrite length_replicate; lia). simpl.
  rewrite k_s_write_at by done.
  simpl. unfold k_s_map_insert at 1. simpl. rewrite Hs. simpl.
  rewrite k_s_index_registered with (i := back)
    by (simpl; apply lookup_insert_eq).
  simpl.
  unfold k_s_read at 1. simpl. rewrite list_lookup_insert_eq by done. simpl.
  eexists. split; [reflexivity|].
  intros r1. simpl.
  rewrite k_s_write_at by (simpl; by rewrite length_insert).
  simpl. split.
  - intros Hc. rewrite decide_True by done. eexists. split; [reflexivity|].
    unfold K_s. simpl. rewrite lookup_insert_eq. simpl.
    by rewrite list_lookup_insert_eq by (by rewrite length_insert).
  - intros Hc. rewrite decide_False by (intros ?; done).
    unfold c_assert at 1. rewrite bool_decide_true by done. simpl.
    unfold k_n_map_insert at 1. simpl.
    destruct (decide (comm_rank_of env comm = root_rank)) as [Hroot|Hroot];
      simpl; rewrite Hn; simpl;
      (rewrite k_n_index_registered
         with (i := (length (_k_n_storage (hear w) ++ [nonce_seed env comm w])
                     - 1)%nat)
         by (unfold nonce_seed; rewrite ?decide_True, ?decide_False by done;
             simpl; apply lookup_insert_eq));
      unfold nonce_seed; rewrite ?decide_True, ?decide_False by done; simpl;
      unfold k_n_read at 1; simpl; rewrite back_lookup; simpl;
      (eexists; split; [reflexivity|]); intros r2; simpl;
      rewrite k_n_write_at by (simpl; apply back_lt); simpl;
      (destruct (decide (r_code r2 <> MPI_SUCCESS)) as [Hc2|Hc2]; simpl;
       [|unfold c_assert at 1;
         rewrite bool_decide_true
           by (by destruct (decide (r_code r2 = MPI_SUCCESS));
               [|exfalso; apply Hc2])];
       simpl);
      (eexists; split; [reflexivity|]); unfold K_s, K_n; simpl;
      rewrite !lookup_insert_eq; simpl;
      rewrite !list_lookup_insert_eq
        by (rewrite ?length_insert; first [done | apply back_lt]);
      done.
Qed.

(** ** Lock-step runs *)

Lemma run_ranks_done {A : Type} other fuel in_flight (ps : list (prog A)) res :
  mapM finished ps = Some res ->
  run_ranks other fuel in_flight ps = Some res.
Proof. intros H. destruct fuel; simpl; by rewrite H. Qed.

Lemma run_ranks_round {A : Type} other fuel in_flight (ps : list (prog A))
    cs reply in_flight' :
  ps <> [] ->
  mapM entered ps = Some cs ->
  collective other cs in_flight = Some (reply, in_flight') ->
  run_ranks other (S fuel) in_flight ps
  = run_ranks other fuel in_flight' (resume reply <$> ps).
Proof.
  intros Hne He Hc. simpl.
  assert (Hfin : mapM finished ps = None).
  { apply mapM_None. destruct ps as [|p ps]; [done|].
    apply Exists_cons_hd. apply mapM_Some_1 in He.
    inversion He as [|? c ? ? Hp]; subst. by destruct p. }
  by rewrite Hfin, He, Hc.
Qed.

Lemma fmap_seq_ext {A : Type} (f g : nat -> A) s N :
  (forall r, (s <= r < s + N)%nat -> f r = g r) ->
  f <$> seq s N = g <$> seq s N.
Proof.
  intros H. apply list_eq. intros i. rewrite !list_lookup_fmap.
  destruct (decide (i < N)%nat) as [Hi|Hi].
  - rewrite lookup_seq_lt by done. simpl. f_equal. apply H. lia.
  - by rewrite lookup_seq_ge by lia.
Qed.

Lemma mapM_fmap_seq {A B : Type} (f : A -> option B) (P : nat -> A)
    (c : nat -> B) N :
  (forall r, (r < N)%nat -> f (P r) = Some (c r)) ->
  mapM f (P <$> seq 0 N) = Some (c <$> seq 0 N).
Proof.
  intros H. apply mapM_Some. apply Forall2_fmap.
  apply Forall_Forall2_diag. apply Forall_forall. intros r Hr.
  apply elem_of_seq in Hr. apply H. lia.
Qed.

Lemma all_equal_const `{EqDecision T} {A : Type} (f : A -> T) (x : T)
    (l : list A) :
  (forall a, a ∈ l -> f a = x) -> all_equal (f <$> l) = true.
Proof.
  intros H. destruct l as [|a l]; [done|]. simpl.
  apply forallb_forall. intros y Hy. apply bool_decide_eq_true.
  apply list_elem_of_In, list_elem_of_fmap in Hy as [b [-> Hb]].
  rewrite (H a), (H b); [done| |]; set_solver.
Qed.

(** One rank per index: the programs of a lock-step run given by rank. *)
Lemma run_ranks_round_by_rank {A : Type} other fuel in_flight N
    (P P' : nat -> prog A) (c : nat -> mpl_call) reply in_flight' :
  (0 < N)%nat ->
  (forall r, (r < N)%nat -> entered (P r) = Some (c r)) ->
  collective other (c <$> seq 0 N) in_flight = Some (reply, in_flight') ->
  (forall r, (r < N)%nat -> resume reply (P r) = P' r) ->
  run_ranks other (S fuel) in_flight (P <$> seq 0 N)
  = run_ranks other fuel in_flight' (P' <$> seq 0 N).
Proof.
  intros HN He Hc Hr.
  erewrite run_ranks_round; [| |by apply mapM_fmap_seq|done].
  - f_equal. rewrite <- list_fmap_compose. apply fmap_seq_ext.
    intros r Hlt. simpl. apply Hr. lia.
  - destruct N; [lia|]. done.
Qed.

Lemma run_ranks_done_by_rank {A : Type} other fuel in_flight N
    (P : nat -> prog A) (res : nat -> outcome A * world) :
  (forall r, (r < N)%nat -> finished (P r) = Some (res r)) ->
  run_ranks other fuel in_flight (P <$> seq 0 N) = Some (res <$> seq 0 N).
Proof. intros H. apply run_ranks_done. by apply mapM_fmap_seq. Qed.

Lemma fmap_seq_head {A : Type} (f : nat -> A) N :
  f <$> seq 0 (S N) = f 0%nat :: (f <$> seq 1 N).
Proof. done. Qed.

Lemma imap_fmap_seq {A B : Type} (f : nat -> A -> B) (g : nat -> A) N :
  imap f (g <$> seq 0 N) = (fun r => f r (g r)) <$> seq 0 N.
Proof.
  apply list_eq. intros i.
  rewrite list_lookup_imap, !list_lookup_fmap.
  destruct (decide (i < N)%nat) as [Hi|Hi].
  - by rewrite lookup_seq_lt by done.
  - by rewrite lookup_seq_ge by lia.
Qed.

Lemma collective_allgather other N (b : nat -> list word) comm in_flight :
  (0 < N)%nat ->
  collective other ((fun r => PMPI_Allgather (b r) comm) <$> seq 0 N) in_flight
  = Some ({| r_code := MPI_SUCCESS;
             r_data := (fun r => nth r (b r) 0) <$> seq 0 N |}, in_flight).
Proof.
  intros HN. destruct N as [|N]; [lia|].
  unfold collective. rewrite fmap_seq_head at 1.
  rewrite (mapM_fmap_seq gather_args _ (fun r => (b r, comm))) by done.
  rewrite <- list_fmap_compose.
  rewrite (all_equal_const _ comm) by done.
  by rewrite imap_fmap_seq.
Qed.

Lemma collective_bcast other N (x : nat -> word) comm in_flight :
  (0 < N)%nat ->
  collective other ((fun r => PMPI_Bcast (x r) root_rank comm) <$> seq 0 N)
    in_flight
  = Some ({| r_code := MPI_SUCCESS; r_data := [x 0%nat] |}, in_flight).
Proof.
  intros HN. destruct N as [|N]; [lia|].
  unfold collective. rewrite fmap_seq_head at 1.
  rewrite (mapM_fmap_seq bcast_args _ (fun r => (x r, (root_rank, comm))))
    by done.
  rewrite <- list_fmap_compose.
  rewrite (all_equal_const _ (root_rank, comm)) by done.
  done.
Qed.

Lemma collective_allreduce other N (s : nat -> list word) n d o comm in_flight :
  (0 < N)%nat ->
  collective other ((fun r => PMPI_Allreduce (s r) n d o comm) <$> seq 0 N)
    in_flight
  = Some ({| r_code := MPI_SUCCESS;
             r_data := native_reduce other d o n (s <$> seq 0 N) |},
          in_flight).
Proof.
  intros HN. destruct N as [|N]; [lia|].
  unfold collective. rewrite fmap_seq_head at 1.
  rewrite (mapM_fmap_seq reduce_args _ (fun r => (true, s r, (n, d, o, comm))))
    by done.
  rewrite <- !list_fmap_compose.
  rewrite (all_equal_const _ (true, (n, d, o, comm))) by done.
  done.
Qed.

Lemma collective_iallreduce other N (s : nat -> list word) n d o comm in_flight :
  (0 < N)%nat ->
  collective other ((fun r => PMPI_Iallreduce (s r) n d o comm) <$> seq 0 N)
    in_flight
  = Some ({| r_code := MPI_SUCCESS; r_data := [] |},
          native_reduce other d o n (s <$> seq 0 N)).
Proof.
  intros HN. destruct N as [|N]; [lia|].
  unfold collective. rewrite fmap_seq_head at 1.
  rewrite (mapM_fmap_seq reduce_args _ (fun r => (false, s r, (n, d, o, comm))))
    by done.
  rewrite <- !list_fmap_compose.
  rewrite (all_equal_const _ (false, (n, d, o, comm))) by done.
  done.
Qed.

Lemma collective_wait other N in_flight :
  (0 < N)%nat ->
  collective other ((fun _ => PMPI_Wait) <$> seq 0 N) in_flight
  = Some ({| r_code := MPI_SUCCESS; r_data := in_flight |}, []).
Proof.
  intros HN. destruct N as [|N]; [lia|].
  unfold collective. rewrite fmap_seq_head at 1.
  replace (forallb _ _) with true; [done|].
  symmetry. apply forallb_forall. intros c Hc.
  apply list_elem_of_In, list_elem_of_fmap in Hc as [r [-> _]].
  by apply bool_decide_eq_true.
Qed.

(** A choice of one value per rank. *)
Lemma rank_choice {X : Type} (d : X) (N : nat) (P : nat -> X -> Prop) :
  (forall r, (r < N)%nat -> exists x, P r x) ->
  exists f, forall r, (r < N)%nat -> P r (f r).
Proof.
  induction N as [|N IH]; intros H.
  - exists (fun _ => d). intros r Hr. lia.
  - destruct IH as [f Hf]; [intros r Hr; apply H; lia|].
    destruct (H N) as [x Hx]; [lia|].
    exists (fun r => if decide (r = N) then x else f r).
    intros r Hr. destruct (decide (r = N)) as [->|Hne]; [done|].
    apply Hf. lia.
Qed.

Lemma run_ranks_finished {A : Type} other fuel in_flight N (P : nat -> prog A)
    (Q : nat -> outcome A * world -> Prop) :
  (forall r, (r < N)%nat -> exists x, finished (P r) = Some x /\ Q r x) ->
  exists res,
    run_ranks other fuel in_flight (P <$> seq 0 N) = Some res
    /\ length res = N
    /\ forall r, (r < N)%nat -> exists x, res !! r = Some x /\ Q r x.
Proof.
  intros H. destruct N as [|N].
  - exists []. split; [by apply run_ranks_done|]. split; [done|]. lia.
  - destruct (H 0%nat) as [d _]; [lia|].
    destruct (rank_choice d (S N)
                (fun r x => finished (P r) = Some x /\ Q r x) H) as [f Hf].
    exists (f <$> seq 0 (S N)). split; [|split].
    + apply run_ranks_done_by_rank. intros r Hr. by apply Hf.
    + by rewrite length_fmap, length_seq.
    + intros r Hr. exists (f r). split; [|by apply Hf].
      by rewrite list_lookup_fmap, lookup_seq_lt.
Qed.

Lemma mem_write_same_length (region data : list word) :
  length data = length region -> mem_write region data = data.
Proof.
  intros H. unfold mem_write. rewrite <- H.
  by rewrite take_app_length.
Qed.

Lemma length_mem_write (region data : list word) :
  length (mem_write region data) = length region.
Proof.
  unfold mem_write. rewrite length_take, length_app, length_drop. lia.
Qed.

Lemma length_gather_buf env comm w :
  length (gather_buf env comm w) = Z.to_nat (comm_size_of env comm).
Proof. unfold gather_buf. by rewrite length_insert, length_replicate. Qed.

Lemma gather_buf_own env comm w :
  0 <= comm_rank_of env comm < comm_size_of env comm ->
  nth (Z.to_nat (comm_rank_of env comm)) (gather_buf env comm w) 0
  = u32 (noise env (noise_pos w)).
Proof.
  intros Hr. apply nth_lookup_Some with (d := 0). unfold gather_buf.
  apply list_lookup_insert_eq. rewrite length_replicate. lia.
Qed.

(** C7: when the [N] ranks of [comm] run [insert_new_comm] together on a
    communicator new to their stores, each of them returns success and
    then holds as shared-key vector the [N] fresh words, rank [q]'s own
    draw at index [q], and as nonce the word the root drew for it.  On a
    single rank and whatever the library answers, the call returns the
    code of the all-gather if that is not success, else the code of the
    broadcast if that is not success, else success. *)
Theorem insert_new_comm_registers other (N : nat) comm
    (envs : nat -> process_env) (ws : nat -> world) :
  (0 < N)%nat ->
  (forall r, (r < N)%nat ->
     comm_size_of (envs r) comm = Z.of_nat N
     /\ comm_rank_of (envs r) comm = Z.of_nat r
     /\ _k_s_map (hear (ws r)) !! comm = None
     /\ _k_n_map (hear (ws r)) !! comm = None) ->
  let fresh_word q := u32 (noise (envs q) (noise_pos (ws q))) in
  let root_word := u32 (noise (envs 0%nat) (S (noise_pos (ws 0%nat)))) in
  (forall fuel, (2 <= fuel)%nat ->
     exists res,
       run_ranks other fuel []
         ((fun r => insert_new_comm (envs r) comm (ws r)) <$> seq 0 N)
       = Some res
       /\ length res = N
       /\ forall r, (r < N)%nat ->
            exists x, res !! r = Some x
              /\ x.1 = Returned MPI_SUCCESS
              /\ K_s (hear x.2) comm = Some (fresh_word <$> seq 0 N)
              /\ length (fresh_word <$> seq 0 N) = N
              /\ (fresh_word <$> seq 0 N) !! r = Some (fresh_word r)
              /\ K_n (hear x.2) comm = Some root_word)
  /\ (forall r o n, (r < N)%nat ->
        let r1 := o n (PMPI_Allgather (gather_buf (envs r) comm (ws r)) comm) in
        let r2 := o (S n) (PMPI_Bcast (nonce_seed (envs r) comm (ws r))
                             root_rank comm) in
        (run o n (insert_new_comm (envs r) comm (ws r))).1
        = Returned (if decide (r_code r1 <> MPI_SUCCESS) then r_code r1
                    else if decide (r_code r2 <> MPI_SUCCESS) then r_code r2
                         else MPI_SUCCESS)).
Proof.
  intros HN Hranks fresh_word root_word.
  assert (Hshape : forall r, (r < N)%nat ->
            0 <= comm_rank_of (envs r) comm < comm_size_of (envs r) comm).
  { intros r Hr. destruct (Hranks r Hr) as (-> & -> & _). lia. }
  split.
  - intros fuel Hfuel.
    destruct fuel as [|[|fuel]]; [lia|lia|].
    set (P := fun r => insert_new_comm (envs r) comm (ws r)).
    set (reply1 := {| r_code := MPI_SUCCESS;
                      r_data := fresh_word <$> seq 0 N |}).
    set (reply2 := {| r_code := MPI_SUCCESS; r_data := [root_word] |}).
    rewrite (run_ranks_round_by_rank other _ [] N P
               (fun r => resume reply1 (P r))
               (fun r => PMPI_Allgather (gather_buf (envs r) comm (ws r)) comm)
               reply1 []); [|done| | |done].
    2:{ intros r Hr. destruct (Hranks r Hr) as (_ & _ & Hs & Hn).
        destruct (insert_new_comm_shape _ _ _ (Hshape r Hr) Hs Hn)
          as (k1 & Hk1 & _).
        unfold P. by rewrite Hk1. }
    2:{ rewrite collective_allgather by done. unfold reply1. do 3 f_equal.
        apply fmap_seq_ext. intros r Hr.
        destruct (Hranks r) as (_ & Hrk & _); [lia|]. unfold fresh_word.
        rewrite <- (gather_buf_own (envs r) comm (ws r)) by (apply Hshape; lia).
        by rewrite Hrk, Nat2Z.id. }
    rewrite (run_ranks_round_by_rank other _ [] N
               (fun r => resume reply1 (P r))
               (fun r => resume reply2 (resume reply1 (P r)))
               (fun r => PMPI_Bcast (nonce_seed (envs r) comm (ws r))
                           root_rank comm)
               reply2 []); [|done| | |done].
    2:{ intros r Hr. destruct (Hranks r Hr) as (_ & _ & Hs & Hn).
        destruct (insert_new_comm_shape _ _ _ (Hshape r Hr) Hs Hn)
          as (k1 & Hk1 & Hrest).
        destruct (Hrest reply1) as [_ Hok].
        destruct Hok as (k2 & Hk2 & _); [done|].
        unfold P. rewrite Hk1. simpl. by rewrite Hk2. }
    2:{ rewrite collective_bcast by done. unfold reply2. do 4 f_equal.
        unfold nonce_seed, root_word.
        destruct (Hranks 0%nat HN) as (_ & -> & _). by rewrite decide_True. }
    apply run_ranks_finished. intros r Hr.
    destruct (Hranks r Hr) as (Hsz & _ & Hs & Hn).
    destruct (insert_new_comm_shape _ _ _ (Hshape r Hr) Hs Hn)
      as (k1 & Hk1 & Hrest).
    destruct (Hrest reply1) as [_ Hok].
    destruct Hok as (k2 & Hk2 & Hfin); [done|].
    destruct (Hfin reply2) as (w' & Hw' & HKs & HKn).
    exists (Returned MPI_SUCCESS, w'). unfold P. rewrite Hk1. simpl.
    rewrite Hk2. simpl. rewrite Hw'. simpl.
    split; [done|]. split; [done|].
    split; [|split; [|split]].
    + rewrite HKs. f_equal. simpl. apply mem_write_same_length.
      by rewrite length_gather_buf, Hsz, Nat2Z.id, length_fmap, length_seq.
    + by rewrite length_fmap, length_seq.
    + by rewrite list_lookup_fmap, lookup_seq_lt.
    + by rewrite HKn.
  - intros r o n Hr r1 r2.
    destruct (Hranks r Hr) as (_ & _ & Hs & Hn).
    destruct (insert_new_comm_shape _ _ _ (Hshape r Hr) Hs Hn)
      as (k1 & Hk1 & Hrest).
    rewrite Hk1. simpl. fold r1.
    destruct (Hrest r1) as [Hfail Hok].
    destruct (decide (r_code r1 <> MPI_SUCCESS)) as [Hc|Hc].
    + destruct (Hfail Hc) as (w' & -> & _). done.
    + destruct Hok as (k2 & Hk2 & Hfin).
      { by destruct (decide (r_code r1 = MPI_SUCCESS)); [|exfalso; apply Hc]. }
      rewrite Hk2. simpl. fold r2.
      destruct (Hfin r2) as (w' & -> & _). done.
Qed.

(** ** Local steps *)

Ltac log_solver :=
  eexists; split;
  [ simpl; rewrite <- ?app_assoc; simpl;
    first [reflexivity | symmetry; apply app_nil_r]
  | repeat (constructor; simpl; try done);
    try (intros ? Hv; unfold K_n in Hv; simplify_option_eq; done) ].

Ltac local_step_solver :=
  split; simpl;
  [ done
  | try done; intros ? ?; simplify_eq
  | log_solver ].

Ltac case_step :=
  simpl;
  match goal with
  | |- context [match ?x with _ => _ end] => destruct x eqn:?
  end.

Ltac resource_solver :=
  unfold balanced, holds, released, free_count, mpool.free_count,
    mpool.release_buf;
  simpl;
  repeat match goal with
         | H : USE_MPOOL _ = _ |- _ => rewrite H
         | H : mpool.free_slabs _ = _ |- _ => rewrite H
         end;
  simpl; rewrite ?length_app; simpl;
  repeat split; try done; try lia; eauto;
  try (intros ? ?; simplify_eq; simpl; rewrite ?length_app; simpl; try lia);
  try set_solver.

Lemma local_step_refl comm w : local_step comm w w.
Proof. local_step_solver. Qed.

Lemma encrypt_sendbuf_spec cfg env sendbuf count dt op comm w :
  all_leaves (fun out w' =>
     local_step comm w w'
     /\ match out with
        | Returned (p, _) =>
            (p = nullptr /\ balanced w w') \/ (p <> nullptr /\ holds cfg p w w')
        | Stopped _ => True
        end)
    (encrypt_sendbuf cfg env sendbuf count dt op comm w).
Proof.
  unfold encrypt_sendbuf, bind, acquire_scratch, emit, free_scratch,
    k_s_index, k_s_read, k_n_index, k_n_read, get_hear, check_capacity, ret.
  pose proof (is_fresh (heap w)) as Hfresh.
  destruct (USE_MPOOL cfg) eqn:Hpool.
  - unfold mpool.acquire_buf.
    destruct (mpool.free_slabs (_sbuf_mpool (hear w))) as [|s rest] eqn:Hfree;
      simpl.
    + split; [local_step_solver|]. left. resource_solver.
    + repeat case_step; simpl; (split; [local_step_solver|]); try done.
      all: try (right; split; [done|resource_solver]).
      all: try (left; split; [done|resource_solver]).
  - repeat case_step; simpl; (split; [local_step_solver|]); try done.
    all: try (right; split; [done|resource_solver]).
    all: try (left; split; [done|resource_solver]).
Qed.

Lemma decrypt_recvbuf_spec recvbuf count dt op comm w :
  all_leaves (fun out w' => local_step comm w w' /\ balanced w w')
    (decrypt_recvbuf recvbuf count dt op comm w).
Proof.
  unfold decrypt_recvbuf, bind, emit, k_s_index, k_s_read, k_n_index,
    k_n_read, get_hear, ret.
  repeat case_step; simpl; (split; [local_step_solver|resource_solver]).
Qed.

Lemma decrypt_at_spec recvbuf offset count dt op comm w :
  all_leaves (fun out w' => local_step comm w w' /\ balanced w w')
    (decrypt_at recvbuf offset count dt op comm w).
Proof.
  unfold decrypt_at. apply all_leaves_bind.
  eapply all_leaves_mono; [apply decrypt_recvbuf_spec|].
  intros [[code region]|e] w'; simpl; done.
Qed.

Lemma release_memory_spec cfg comm p w :
  all_leaves (fun out w' =>
     local_step comm w w'
     /\ match out with
        | Returned _ => p <> nullptr /\ released cfg p w w'
        | Stopped e => p = nullptr /\ e = AssertionFailed
        end)
    (release_memory cfg p w).
Proof.
  unfold release_memory, bind, c_assert, free_scratch, ret, stop.
  destruct (USE_MPOOL cfg) eqn:Hpool;
    destruct p; simpl; (split; [local_step_solver|]); try done.
  all: split; [done|resource_solver].
Qed.

Lemma cleanup_spec cfg comm p code recvbuf w :
  all_leaves (fun out w' =>
     local_step comm w w'
     /\ match out with
        | Returned x => x = (code, recvbuf) /\ p <> nullptr /\ released cfg p w w'
        | Stopped e => p = nullptr /\ e = AssertionFailed
        end)
    (cleanup cfg p code recvbuf w).
Proof.
  unfold cleanup. apply all_leaves_bind.
  eapply all_leaves_mono; [apply (release_memory_spec cfg comm)|].
  intros [[]|e] w'; simpl; [|done]. intros [Hl [Hp Hr]]. done.
Qed.

Lemma holds_not_null cfg p w0 w : holds cfg p w0 w -> p <> nullptr.
Proof.
  unfold holds. destruct (USE_MPOOL cfg).
  - intros ([i ->] & _). done.
  - intros ((i & -> & _) & _). done.
Qed.

(** ** Accounting for scratch buffers *)

Lemma balanced_refl w : balanced w w.
Proof. done. Qed.

Lemma balanced_trans w0 w1 w2 :
  balanced w0 w1 -> balanced w1 w2 -> balanced w0 w2.
Proof. unfold balanced. intros [-> ->] [-> ->]. done. Qed.

Lemma balanced_add_log e w : balanced w (add_log e w).
Proof. done. Qed.

Lemma holds_balanced cfg p w0 w w' :
  holds cfg p w0 w -> balanced w w' -> holds cfg p w0 w'.
Proof.
  unfold holds, balanced. intros H [Hc Hh].
  destruct (USE_MPOOL cfg); rewrite Hc, Hh; done.
Qed.

Lemma holds_start cfg p w0 w w' :
  balanced w0 w -> holds cfg p w w' -> holds cfg p w0 w'.
Proof.
  unfold holds, balanced. intros [Hc Hh] H.
  destruct (USE_MPOOL cfg); rewrite <- Hc, <- Hh; done.
Qed.

Lemma holds_released cfg p w0 w w' :
  holds cfg p w0 w -> released cfg p w w' -> balanced w0 w'.
Proof.
  unfold holds, released, balanced.
  destruct (USE_MPOOL cfg).
  - intros ([i ->] & Hc & Hh) [Hh' Hc']. rewrite (Hc' i) by done. split; congruence.
  - intros ((i & -> & Hi & Hh) & Hc) [Hc' Hh'].
    rewrite (Hh' i) by done. split; [congruence|]. set_solver.
Qed.

Lemma holds_rotate cfg cur next w0 w1 w2 w3 :
  holds cfg cur w0 w1 -> holds cfg next w1 w2 -> released cfg cur w2 w3 ->
  holds cfg next w0 w3.
Proof.
  unfold holds, released.
  destruct (USE_MPOOL cfg).
  - intros ([i ->] & Hc & Hh) ([j ->] & Hc2 & Hh2) [Hh3 Hc3].
    split; [eauto|]. rewrite (Hc3 i) by done. split; [lia|congruence].
  - intros ((i & -> & Hi & Hh) & Hc) ((j & -> & Hj & Hh2) & Hc2) [Hc3 Hh3].
    split; [|congruence]. exists j. split; [done|].
    rewrite (Hh3 i) by done. set_solver.
Qed.

(** ** The trace of the masked path *)

Lemma local_event_after_advance kn e :
  local_event (Some kn) e -> after_advance kn e /\ no_failed_reduce e.
Proof. destruct e; simpl; try done. intros H. split; [by apply H|done]. Qed.

Lemma on_track_local_step comm kn base w w' :
  on_track comm kn base w -> local_step comm w w' -> on_track comm kn base w'.
Proof.
  intros [HK (evs & Hlog & Ha & Hf)] [Hst Hmap (evs' & Hlog' & Hl)].
  split.
  - unfold K_n in *. destruct (_k_n_map (hear w) !! comm) as [i|] eqn:Hi;
      [|done]. rewrite (Hmap i) by done. simpl in *. by rewrite Hst.
  - exists (evs ++ evs'). rewrite Hlog', Hlog, app_assoc. split; [done|].
    rewrite HK in Hl.
    split; apply Forall_app; (split; [done|]);
      eapply Forall_impl; try exact Hl; intros e He;
      by apply local_event_after_advance in He as [? ?].
Qed.

Lemma on_track_mpl comm kn base w c r :
  on_track comm kn base w ->
  (is_reduce c = true -> r_code r = MPI_SUCCESS) ->
  on_track comm kn base (add_log (EvMPL c r) w).
Proof.
  intros [HK (evs & Hlog & Ha & Hf)] Hr. split; [done|].
  exists (evs ++ [EvMPL c r]). simpl. rewrite Hlog, app_assoc.
  split; [done|]. split; apply Forall_app; (split; [done|]);
    by repeat constructor.
Qed.

Lemma on_track_end comm kn base w out :
  on_track comm kn base w -> masked_end comm kn base out w.
Proof.
  intros [HK (evs & Hlog & Ha & Hf)]. split; [done|].
  exists evs. split; [done|]. split; [done|].
  intros code Hex. exfalso. apply Exists_exists in Hex as (e & He & Hfail).
  rewrite Forall_forall in Hf. specialize (Hf e He).
  destruct e; simpl in *; try done.
  destruct Hfail as (Hred & Hcode & Hne). rewrite Hf in Hcode by done. congruence.
Qed.

Lemma masked_end_failed comm kn base w c r w' recvbuf :
  on_track comm kn base w ->
  local_step comm (add_log (EvMPL c r) w) w' ->
  masked_end comm kn base (Returned (r_code r, recvbuf)) w'.
Proof.
  intros [HK (evs & Hlog & Ha & Hf)] [Hst Hmap (evs' & Hlog' & Hl)].
  simpl in *. split.
  - unfold K_n in *. destruct (_k_n_map (hear w) !! comm) as [i|] eqn:Hi;
      [|done]. rewrite (Hmap i) by done. simpl in *. by rewrite Hst.
  - rewrite HK in Hl.
    exists (evs ++ [EvMPL c r] ++ evs'). split.
    { rewrite Hlog', Hlog. by rewrite <- !app_assoc. }
    split.
    { apply Forall_app. split; [done|]. apply Forall_app. split.
      - by repeat constructor.
      - eapply Forall_impl; [exact Hl|]. intros e He.
        by apply local_event_after_advance in He as [? ?]. }
    intros code Hex. exists recvbuf.
    apply Exists_app in Hex as [Hex|Hex].
    { exfalso. apply Exists_exists in Hex as (e & He & Hfail).
      rewrite Forall_forall in Hf. specialize (Hf e He).
      destruct e; simpl in *; try done.
      destruct Hfail as (Hred & Hcode & Hne). rewrite Hf in Hcode by done.
      congruence. }
    apply Exists_app in Hex as [Hex|Hex].
    { apply Exists_cons in Hex as [Hex|Hex]; [|by apply Exists_nil in Hex].
      simpl in Hex. destruct Hex as (_ & <- & _). done. }
    exfalso. apply Exists_exists in Hex as (e & He & Hfail).
    rewrite Forall_forall in Hl. specialize (Hl e He).
    destruct e; simpl in *; done.
Qed.

Lemma loop_exit_spec comm kn base recvbuf offset count dt op w :
  on_track comm kn base w ->
  all_leaves (fun out w' => masked_end comm kn base out w' /\ balanced w w')
    (pbind (decrypt_at recvbuf offset count dt op comm w)
       (fun '(code, recvbuf) =>
          if decide (code <> MPI_SUCCESS) then ret (code, recvbuf)
          else ret (MPI_SUCCESS, recvbuf))).
Proof.
  intros Ht. apply all_leaves_pbind.
  eapply all_leaves_mono; [apply decrypt_at_spec|].
  intros [[code rb]|e] w' [Hl Hbal]; simpl.
  - destruct (decide (code <> MPI_SUCCESS)); simpl; split;
      eauto using on_track_end, on_track_local_step.
  - split; [eauto using on_track_end, on_track_local_step|done].
Qed.

Lemma loop_exit_on_track comm kn base recvbuf offset count dt op w :
  on_track comm kn base w ->
  all_leaves (fun out w' => on_track comm kn base w')
    (pbind (decrypt_at recvbuf offset count dt op comm w)
       (fun '(code, recvbuf) =>
          if decide (code <> MPI_SUCCESS) then ret (code, recvbuf)
          else ret (MPI_SUCCESS, recvbuf))).
Proof.
  intros Ht. apply all_leaves_pbind.
  eapply all_leaves_mono; [apply decrypt_at_spec|].
  intros [[code rb]|e] w' [Hl Hbal]; simpl.
  - destruct (decide (code <> MPI_SUCCESS)); simpl;
      eauto using on_track_local_step.
  - eauto using on_track_local_step.
Qed.

Lemma cleanup_failed_spec cfg comm kn base w0 p c r recvbuf w :
  on_track comm kn base w ->
  holds cfg p w0 w ->
  all_leaves (loop_post comm kn base w0)
    (cleanup cfg p (r_code r) recvbuf (add_log (EvMPL c r) w)).
Proof.
  intros Ht Hh.
  eapply all_leaves_mono; [apply (cleanup_spec cfg comm)|].
  intros [x|e] w' [Hl Hx]; simpl.
  - destruct Hx as (-> & Hp & Hr). split.
    + eapply masked_end_failed; eauto.
    + intros _ _. eapply holds_released; [|exact Hr].
      eapply holds_balanced; [exact Hh|]. apply balanced_add_log.
  - destruct Hx as [-> _]. by apply holds_not_null in Hh.
Qed.

Lemma cleanup_local_spec cfg comm kn base w0 p code recvbuf w :
  on_track comm kn base w ->
  holds cfg p w0 w ->
  all_leaves (loop_post comm kn base w0) (cleanup cfg p code recvbuf w).
Proof.
  intros Ht Hh.
  eapply all_leaves_mono; [apply (cleanup_spec cfg comm)|].
  intros [x|e] w' [Hl Hx]; simpl.
  - destruct Hx as (-> & Hp & Hr). split.
    + eauto using on_track_end, on_track_local_step.
    + intros _ _. eapply holds_released; eauto.
  - destruct Hx as [-> _]. by apply holds_not_null in Hh.
Qed.

Lemma pipeline_loop_spec cfg env comm kn base w0 fuel :
  forall sendbuf dt op l recvbuf w,
  on_track comm kn base w ->
  (total_count l <> 0 -> holds cfg (encr_sendbuf l) w0 w) ->
  (total_count l = 0 -> balanced w0 w) ->
  all_leaves (loop_post comm kn base w0)
    (pipeline_loop cfg env fuel sendbuf dt op comm l recvbuf w).
Proof.
  induction fuel as [|fuel IH]; intros sendbuf dt op l recvbuf w Ht Hh Hb;
    simpl; destruct (decide (total_count l = 0)) as [Hz|Hnz].
  - eapply all_leaves_mono; [by apply loop_exit_spec|].
    intros out w' [? ?]. split; [done|]. intros _ _.
    eapply balanced_trans; eauto.
  - simpl. split; [by apply on_track_end|done].
  - eapply all_leaves_mono; [by apply loop_exit_spec|].
    intros out w' [? ?]. split; [done|]. intros _ _.
    eapply balanced_trans; eauto.
  - specialize (Hh Hnz). clear Hb.
    unfold bind at 1. unfold mpl at 1. simpl. intros r.
    destruct (decide (r_code r <> MPI_SUCCESS)) as [Hfail|Hok].
    { by apply cleanup_failed_spec. }
    assert (Hcode : r_code r = MPI_SUCCESS).
    { by destruct (decide (r_code r = MPI_SUCCESS)); [|exfalso; apply Hok]. }
    assert (Ht1 : on_track comm kn base
                    (add_log (EvMPL (PMPI_Iallreduce (encr_data l) (cur_count l) dt op comm) r) w)).
    { by apply on_track_mpl. }
    assert (Hh1 : holds cfg (encr_sendbuf l) w0
                    (add_log (EvMPL (PMPI_Iallreduce (encr_data l) (cur_count l) dt op comm) r) w)).
    { eapply holds_balanced; [exact Hh|apply balanced_add_log]. }
    revert Ht1 Hh1. generalize (add_log (EvMPL (PMPI_Iallreduce (encr_data l) (cur_count l) dt op comm) r) w).
    clear Ht Hh w. intros w Ht Hh.
    apply all_leaves_bind.
    apply all_leaves_mono
      with (Q := fun out w' => local_step comm w w' /\ balanced w w'
                               /\ forall x, out = Returned x ->
                                    x.1 <> MPI_SUCCESS -> cur_offset l > 0).
    { destruct (decide (cur_offset l > 0)).
      - eapply all_leaves_mono; [apply decrypt_at_spec|].
        intros out w' [? ?]. done.
      - simpl. split; [apply local_step_refl|]. split; [done|].
        intros x [= <-]. simpl. done. }
    intros [[code rb]|e] w1 (Hl1 & Hb1 & _); simpl;
      [|split; [eauto using on_track_end, on_track_local_step|done]].
    assert (Ht1 : on_track comm kn base w1) by eauto using on_track_local_step.
    assert (Hh1 : holds cfg (encr_sendbuf l) w0 w1)
      by eauto using holds_balanced.
    clear Ht Hh Hl1 Hb1 w.
    destruct (decide (code <> MPI_SUCCESS)).
    { by apply cleanup_local_spec. }
    apply all_leaves_bind.
    destruct (decide (total_count l - cur_count l = 0)) as [Hlast|Hmore].
    { (* last block: nothing to encrypt *)
      simpl. rewrite decide_False by (intros [? _]; done).
      unfold bind at 1. unfold mpl at 1. simpl. intros rw.
      apply all_leaves_pbind.
      eapply all_leaves_mono; [apply (release_memory_spec cfg comm)|].
      intros [[]|e] w2 [Hl2 Hx]; simpl.
      + destruct Hx as [Hp Hr]. apply IH; simpl.
        * eapply on_track_local_step; [|exact Hl2]. by apply on_track_mpl.
        * done.
        * intros _. eapply holds_released; [|exact Hr].
          eapply holds_balanced; [exact Hh1|apply balanced_add_log].
      + destruct Hx as [Hnull _]. by apply holds_not_null in Hh1. }
    apply all_leaves_bind.
    unfold check_offset. destruct (decide (0 <= _)); simpl;
      [|split; [by apply on_track_end|done]].
    eapply all_leaves_mono; [apply encrypt_sendbuf_spec|].
    intros [[next_buf next_data]|e] w2 [Hl2 Hx]; simpl;
      [|split; [eauto using on_track_end, on_track_local_step|done]].
    assert (Ht2 : on_track comm kn base w2)
      by eauto using on_track_local_step.
    destruct Hx as [[-> Hb2]|[Hp2 Hh2]].
    + rewrite decide_True by done.
      apply cleanup_local_spec; [done|]. by eapply holds_balanced.
    + rewrite decide_False by (intros [_ ?]; done).
      unfold bind at 1. unfold mpl at 1. simpl. intros rw.
      apply all_leaves_pbind.
      eapply all_leaves_mono; [apply (release_memory_spec cfg comm)|].
      intros [[]|e] w3 [Hl3 Hx]; simpl.
      * destruct Hx as [Hp Hr]. apply IH; simpl.
        -- eapply on_track_local_step; [|exact Hl3]. by apply on_track_mpl.
        -- intros _. eapply holds_rotate; [exact Hh1| |exact Hr].
           eapply holds_balanced; [exact Hh2|apply balanced_add_log].
        -- done.
      * destruct Hx as [Hnull _]. by apply holds_not_null in Hh1.
Qed.

Lemma update_k_n_spec comm w :
  all_leaves (fun out w' =>
     balanced w w'
     /\ match out with
        | Returned _ =>
            exists old new,
              log w' = log w ++ [EvAdvance comm old new]
              /\ K_n (hear w') comm = Some new
              /\ forall i v,
                   _k_n_map (hear w) !! comm = Some i ->
                   _k_n_storage (hear w) !! i = Some v ->
                   old = v /\ new = prng (engine (hear w)) v
        | Stopped _ =>
            log w' = log w
            /\ forall i v,
                 _k_n_map (hear w) !! comm = Some i ->
                 _k_n_storage (hear w) !! i = Some v -> False
        end)
    (update_k_n comm w).
Proof.
  unfold update_k_n, bind, k_n_index, k_n_read, k_n_write, get_hear, emit.
  destruct (_k_n_map (hear w) !! comm) as [i|] eqn:Hi; simpl.
  - destruct (_k_n_storage (hear w) !! i) as [old|] eqn:Hold; simpl;
      [|split; [done|]; split; [done|]; intros; simplify_eq].
    rewrite Hi. simpl.
    rewrite decide_True by (by eapply lookup_lt_Some). simpl.
    split; [done|]. eexists _, _. split; [done|]. split.
    + unfold K_n. simpl. rewrite Hi. simpl.
      apply list_lookup_insert_eq. by eapply lookup_lt_Some.
    + intros i' v Hi' Hv. by simplify_eq.
  - destruct (_k_n_storage (hear w) !! 0%nat) as [old|] eqn:Hold; simpl;
      [|split; [done|]; split; [done|]; intros; simplify_eq].
    rewrite lookup_insert_eq. simpl.
    rewrite decide_True by (by eapply lookup_lt_Some). simpl.
    split; [done|]. eexists _, _. split; [done|]. split.
    + unfold K_n. simpl. rewrite lookup_insert_eq. simpl.
      apply list_lookup_insert_eq. by eapply lookup_lt_Some.
    + intros i' v Hi' Hv. done.
Qed.

Lemma on_track_start comm kn base w :
  K_n (hear w) comm = Some kn -> log w = base -> on_track comm kn base w.
Proof.
  intros HK Hlog. split; [done|]. exists []. rewrite app_nil_r.
  split; [done|]. split; constructor.
Qed.

Lemma MPI_Allreduce_masked_spec cfg env frame sendbuf recvbuf count dt op comm w :
  op = MPI_SUM \/ op = MPI_PROD ->
  dt = MPI_INT \/ dt = MPI_FLOAT ->
  all_leaves (allreduce_post cfg comm count w)
    (MPI_Allreduce cfg env frame sendbuf recvbuf count dt op comm w).
Proof.
  intros Hop Hdt. unfold MPI_Allreduce.
  rewrite decide_False by (intros [[? ?]|[? ?]]; destruct Hop, Hdt; done).
  set (loop := pipeline_loop _ _ _ _ _ _ _).
  apply all_leaves_bind.
  eapply all_leaves_mono; [apply update_k_n_spec|].
  intros [[]|e] w1 [Hb1 Hx]; simpl;
    [|split; [left; destruct Hx; eauto|done]].
  destruct Hx as (old & new & Hlog1 & HK1 & Hreg).
  assert (Ht1 : on_track comm new (log w ++ [EvAdvance comm old new]) w1)
    by (by apply on_track_start).
  apply all_leaves_mono
    with (Q := fun out w' =>
                 masked_end comm new (log w ++ [EvAdvance comm old new]) out w'
                 /\ (forall x, out = Returned x ->
                      balanced w1 w'
                      \/ (USE_PIPELINING cfg = true /\ count = 0
                          /\ on_track comm new
                               (log w ++ [EvAdvance comm old new]) w'))).
  2:{ intros out w' [Hend Hbal]. split; [right; eauto|].
      intros x Hx. destruct (Hbal x Hx) as [Hb|(Hp & Hc & Ht)].
      - left. eapply balanced_trans; eauto.
      - right. split; [done|]. split; [done|].
        destruct Ht as [_ (evs & Hlog & _ & Hf)].
        exists ([EvAdvance comm old new] ++ evs).
        rewrite Hlog, <- app_assoc. split; [done|].
        apply Forall_app. split; [|done]. by repeat constructor. }
  destruct (USE_PIPELINING cfg) eqn:Hpipe; cbn [negb].
  - (* pipelined *)
    apply all_leaves_bind.
    eapply all_leaves_mono; [apply encrypt_sendbuf_spec|].
    intros [[p d]|e] w2 [Hl2 Hx]; simpl;
      [|split; [eauto using on_track_end, on_track_local_step|done]].
    assert (Ht2 : on_track comm new (log w ++ [EvAdvance comm old new]) w2)
      by eauto using on_track_local_step.
    destruct Hx as [[-> Hb2]|[Hp2 Hh2]].
    + rewrite decide_True by done.
      eapply all_leaves_mono; [apply (cleanup_spec cfg comm)|].
      intros [x|e] w3 [Hl3 Hx]; simpl.
      * by destruct Hx as (_ & ? & _).
      * split; [eauto using on_track_end, on_track_local_step|done].
    + rewrite decide_False by done.
      subst loop. destruct (decide (count = 0)) as [->|Hcount].
      * simpl. eapply all_leaves_mono; [by apply loop_exit_on_track|].
        intros out w' Ht'. split; [by apply on_track_end|]. intros x _.
        right. done.
      * eapply all_leaves_mono;
          [apply pipeline_loop_spec with (w0 := w1); simpl; eauto; done|].
        intros out w' [? ?]. split; [done|]. eauto.
  - (* not pipelined *)
    apply all_leaves_bind.
    eapply all_leaves_mono; [apply encrypt_sendbuf_spec|].
    intros [[p d]|e] w2 [Hl2 Hx]; simpl;
      [|split; [eauto using on_track_end, on_track_local_step|done]].
    assert (Ht2 : on_track comm new (log w ++ [EvAdvance comm old new]) w2)
      by eauto using on_track_local_step.
    destruct Hx as [[-> Hb2]|[Hp2 Hh2]].
    + rewrite decide_True by done. simpl.
      split; [by apply on_track_end|]. eauto.
    + rewrite decide_False by done.
      unfold shadow_allreduce, bind at 1 2. unfold mpl at 1. simpl. intros r.
      destruct (decide (r_code r <> MPI_SUCCESS)) as [Hfail|Hok].
      { eapply all_leaves_mono; [by eapply cleanup_failed_spec|].
        intros out w' [? ?]. split; [done|]. eauto. }
      assert (Hcode : r_code r = MPI_SUCCESS).
      { by destruct (decide (r_code r = MPI_SUCCESS)); [|exfalso; apply Hok]. }
      apply all_leaves_bind.
      eapply all_leaves_mono; [apply decrypt_recvbuf_spec|].
      intros [[code rb]|e] w3 [Hl3 Hb3]; simpl.
      2:{ split; [|done]. eapply on_track_end, on_track_local_step; [|exact Hl3].
          by apply on_track_mpl. }
      assert (Ht3 : on_track comm new (log w ++ [EvAdvance comm old new]) w3).
      { eapply on_track_local_step; [|exact Hl3]. by apply on_track_mpl. }
      assert (Hh3 : holds cfg p w1 w3).
      { eapply holds_balanced; [|exact Hb3].
        eapply holds_balanced; [exact Hh2|apply balanced_add_log]. }
      destruct (decide (code <> MPI_SUCCESS)).
      { eapply all_leaves_mono; [by eapply cleanup_local_spec|].
        intros out w' [? ?]. split; [done|]. eauto. }
      apply all_leaves_bind.
      eapply all_leaves_mono; [apply (release_memory_spec cfg comm)|].
      intros [[]|e] w4 [Hl4 Hx]; simpl.
      * destruct Hx as [_ Hr]. split.
        -- eauto using on_track_end, on_track_local_step.
        -- intros _ _. left. eapply holds_released; eauto.
      * destruct Hx as [Hnull _]. by apply holds_not_null in Hh3.
Qed.

(** ** The intercepted all-reduce *)

(** C3: on a supported request for a communicator with a nonce slot, and
    whatever the library answers, the events of the call begin with the
    one advance of the nonce; no other advance follows; every encryption
    that follows, one per block on the pipelined path, uses the advanced
    nonce; and the store ends with that nonce, one [prng] step from the
    old one. *)
Theorem MPI_Allreduce_advances_nonce_once cfg env frame sendbuf recvbuf count
    dt op comm w i old o n :
  op = MPI_SUM \/ op = MPI_PROD ->
  dt = MPI_INT \/ dt = MPI_FLOAT ->
  _k_n_map (hear w) !! comm = Some i ->
  _k_n_storage (hear w) !! i = Some old ->
  let res := run o n (MPI_Allreduce cfg env frame sendbuf recvbuf count dt op
                        comm w) in
  let kn := prng (engine (hear w)) old in
  exists evs,
    log res.2 = log w ++ EvAdvance comm old kn :: evs
    /\ Forall (after_advance kn) evs
    /\ K_n (hear res.2) comm = Some kn.
Proof.
  intros Hop Hdt Hi Hold res kn.
  pose proof (all_leaves_run _ _
                (MPI_Allreduce_masked_spec cfg env frame sendbuf recvbuf count
                   dt op comm w Hop Hdt) o n) as [Hpost _].
  fold res in Hpost.
  destruct Hpost as [(_ & _ & Hno)|(old' & new & Hend & Hreg)].
  { exfalso. eauto. }
  destruct (Hreg i old Hi Hold) as [-> ->].
  destruct Hend as (HK & evs & Hlog & Ha & _).
  exists evs. rewrite Hlog, <- app_assoc. done.
Qed.

(** C5: on a supported request, when the log of the call shows a shadow
    reduction ([PMPI_Allreduce] or [PMPI_Iallreduce]) that answered a code
    other than success, the call returns that very code, and the scratch
    buffers are back: the free-slab count and the live heap buffers are
    those from before the call. *)
Theorem MPI_Allreduce_propagates_reduce_error cfg env frame sendbuf recvbuf
    count dt op comm w o n evs c r :
  op = MPI_SUM \/ op = MPI_PROD ->
  dt = MPI_INT \/ dt = MPI_FLOAT ->
  let res := run o n (MPI_Allreduce cfg env frame sendbuf recvbuf count dt op
                        comm w) in
  log res.2 = log w ++ evs ->
  EvMPL c r ∈ evs ->
  is_reduce c = true ->
  r_code r <> MPI_SUCCESS ->
  (exists recvbuf', res.1 = Returned (r_code r, recvbuf'))
  /\ balanced w res.2.
Proof.
  intros Hop Hdt res Hlog Hin Hred Hfail.
  pose proof (all_leaves_run _ _
                (MPI_Allreduce_masked_spec cfg env frame sendbuf recvbuf count
                   dt op comm w Hop Hdt) o n) as [Hpost Hbal].
  fold res in Hpost, Hbal.
  assert (Hret : exists recvbuf', res.1 = Returned (r_code r, recvbuf')).
  { destruct Hpost as [(Hlog' & _)|(old' & new & Hend & _)].
    - rewrite Hlog in Hlog'. rewrite <- (app_nil_r (log w)) in Hlog' at 2.
      apply app_inv_head in Hlog'. subst evs. by apply elem_of_nil in Hin.
    - destruct Hend as (_ & evs' & Hlog' & _ & Hex).
      rewrite Hlog, <- app_assoc in Hlog'. apply app_inv_head in Hlog'.
      subst evs. apply Hex. apply Exists_exists. exists (EvMPL c r).
      split; [|done].
      simpl in Hin. by apply elem_of_cons in Hin as [Heq|Hin]. }
  split; [done|]. destruct Hret as [rb Hret].
  destruct (Hbal _ Hret) as [?|(_ & _ & evs' & Hlog' & Hnf)]; [done|].
  rewrite Hlog in Hlog'. apply app_inv_head in Hlog'. subst evs'.
  rewrite Forall_forall in Hnf.
  specialize (Hnf _ Hin). simpl in Hnf. by apply Hnf in Hred.
Qed.

Lemma MPI_Allreduce_bypass cfg env frame sendbuf recvbuf count dt op comm w :
  (op <> MPI_SUM /\ op <> MPI_PROD) \/ (dt <> MPI_INT /\ dt <> MPI_FLOAT) ->
  MPI_Allreduce cfg env frame sendbuf recvbuf count dt op comm w
  = shadow_allreduce sendbuf recvbuf count dt op comm w.
Proof. intros H. unfold MPI_Allreduce. by rewrite decide_True. Qed.

Lemma scratch_released_on_return cfg env frame sendbuf recvbuf count dt op
    comm w o n x :
  ~ (USE_PIPELINING cfg = true /\ count = 0) ->
  (run o n (MPI_Allreduce cfg env frame sendbuf recvbuf count dt op comm w)).1
  = Returned x ->
  balanced w
    (run o n (MPI_Allreduce cfg env frame sendbuf recvbuf count dt op comm w)).2.
Proof.
  intros Hc Hret.
  destruct (decide ((op <> MPI_SUM /\ op <> MPI_PROD)
                    \/ (dt <> MPI_INT /\ dt <> MPI_FLOAT))) as [Hby|Hsup].
  - rewrite MPI_Allreduce_bypass by done. done.
  - assert (Hop : op = MPI_SUM \/ op = MPI_PROD).
    { destruct (decide (op = MPI_SUM)); [by left|].
      destruct (decide (op = MPI_PROD)); [by right|].
      exfalso. apply Hsup. by left. }
    assert (Hdt : dt = MPI_INT \/ dt = MPI_FLOAT).
    { destruct (decide (dt = MPI_INT)); [by left|].
      destruct (decide (dt = MPI_FLOAT)); [by right|].
      exfalso. apply Hsup. by right. }
    pose proof (all_leaves_run _ _
                  (MPI_Allreduce_masked_spec cfg env frame sendbuf recvbuf
                     count dt op comm w Hop Hdt) o n) as [_ Hbal].
    destruct (Hbal _ Hret) as [?|(? & ? & _)]; [done|]. exfalso. by apply Hc.
Qed.

(** C1 (the code departs from the claim): the same [(MPI_FLOAT, MPI_PROD)]
    request, run as a direct shadow call and through the interposer.  The
    direct call reaches the library and leaves the nonce alone; the
    interposed call advances the nonce, takes and gives back a slab, never
    reaches the library and returns [MPI_ERR_BUFFER]. *)
Theorem float_prod_is_not_forwarded :
  let w := demo_world [0; 1; 2; 3]%nat in
  let native :=
    run solo_oracle 0
      (shadow_allreduce [5] [0] 1 MPI_FLOAT MPI_PROD demo_comm w) in
  let intercepted :=
    run solo_oracle 0
      (MPI_Allreduce (demo_cfg true false 65536) (demo_env 1 0) demo_frame
         [5] [0] 1 MPI_FLOAT MPI_PROD demo_comm w) in
  native.1 = Returned (MPI_SUCCESS, [5])
  /\ K_n (hear native.2) demo_comm = Some 1001
  /\ filter (fun e => is_mpl e = true) (log native.2) <> []
  /\ intercepted.1 = Returned (MPI_ERR_BUFFER, [0])
  /\ K_n (hear intercepted.2) demo_comm = Some (demo_prf 1001)
  /\ log intercepted.2
     = [EvAdvance demo_comm 1001 (demo_prf 1001); EvAcquire (Slab 0);
        EvRelease (Slab 0)].
Proof. vm_compute. repeat split; try done. Qed.

Lemma float_prod_returns_directly cfg env frame sendbuf recvbuf count comm w
    i old :
  USE_PIPELINING cfg = false ->
  (USE_MPOOL cfg = false -> 0 <= int (count * type_size MPI_FLOAT)) ->
  _k_n_map (hear w) !! comm = Some i ->
  _k_n_storage (hear w) !! i = Some old ->
  exists w' evs,
    MPI_Allreduce cfg env frame sendbuf recvbuf count MPI_FLOAT MPI_PROD comm w
    = Ret (MPI_ERR_BUFFER, recvbuf) w'
    /\ _k_n_map (hear w') = _k_n_map (hear w)
    /\ _k_n_storage (hear w')
       = <[i := prng (engine (hear w)) old]> (_k_n_storage (hear w))
    /\ log w'
       = log w ++ EvAdvance comm old (prng (engine (hear w)) old) :: evs
    /\ Forall (fun e => is_mpl e = false /\ is_encrypt e = false) evs.
Proof.
  intros Hpipe Hcount Hi Hold.
  unfold MPI_Allreduce.
  rewrite decide_False by (intros [[? ?]|[? ?]]; done).
  unfold bind at 1. rewrite (update_k_n_registered _ _ _ _ Hi Hold).
  simpl. rewrite Hpipe. simpl.
  unfold encrypt_sendbuf, bind, acquire_scratch, emit, free_scratch, ret.
  simpl.
  destruct (USE_MPOOL cfg) eqn:Hpool; simpl.
  - unfold mpool.acquire_buf.
    destruct (mpool.free_slabs (_sbuf_mpool (hear w))) as [|s rest] eqn:Hfree;
      simpl; rewrite ?Hpool; simpl;
      eexists _, _; (split; [reflexivity|]); simpl;
      (split; [done|]); (split; [done|]);
      (split; [by rewrite <- !app_assoc|]); by repeat constructor.
  - specialize (Hcount eq_refl). simpl in Hcount.
    rewrite decide_False by lia. simpl.
    eexists _, _. split; [reflexivity|]. simpl.
    split; [done|]. split; [done|].
    split; [by rewrite <- !app_assoc|]. by repeat constructor.
Qed.

(** C10 (the code departs from the claim): the [(MPI_FLOAT, MPI_PROD)]
    request in a build with pipelining, with and without the pool.  The
    nonce is advanced, [encrypt_sendbuf] gives its buffer back and returns
    null, the call sets [MPI_ERR_BUFFER] and jumps to [cleanup], and the
    assertion of [release_memory] stops the process: no error is returned.
    Without pipelining the same request returns [MPI_ERR_BUFFER]. *)
Theorem float_prod_aborts_with_pipelining :
  let w := demo_world [0; 1; 2; 3]%nat in
  let call cfg :=
    run solo_oracle 0
      (MPI_Allreduce cfg (demo_env 1 0) demo_frame [5] [0] 1 MPI_FLOAT
         MPI_PROD demo_comm w) in
  (call (demo_cfg true true 65536)).1 = Stopped AssertionFailed
  /\ K_n (hear (call (demo_cfg true true 65536)).2) demo_comm
     = Some (demo_prf 1001)
  /\ log (call (demo_cfg true true 65536)).2
     = [EvAdvance demo_comm 1001 (demo_prf 1001); EvAcquire (Slab 0);
        EvRelease (Slab 0)]
  /\ (call (demo_cfg false true 65536)).1 = Stopped AssertionFailed
  /\ K_n (hear (call (demo_cfg false true 65536)).2) demo_comm
     = Some (demo_prf 1001)
  /\ (call (demo_cfg true false 65536)).1 = Returned (MPI_ERR_BUFFER, [0])
  /\ (call (demo_cfg false false 65536)).1 = Returned (MPI_ERR_BUFFER, [0]).
Proof. vm_compute. repeat split; try done. Qed.

(** C4 (the code departs from the claim): on the pipelined path a request
    with [count = 0] takes a slab for the first block, skips the loop,
    and returns success without ever releasing it: one free slab fewer
    than before the call. *)
Theorem pipelined_empty_request_keeps_a_slab :
  let w := demo_world [0; 1; 2; 3]%nat in
  let res :=
    run solo_oracle 0
      (MPI_Allreduce (demo_cfg true true 65536) (demo_env 1 0) demo_frame
         [] [] 0 MPI_INT MPI_SUM demo_comm w) in
  res.1 = Returned (MPI_SUCCESS, [])
  /\ free_count w = 4%nat
  /\ free_count res.2 = 3%nat
  /\ log res.2
     = [EvAdvance demo_comm 1001 (demo_prf 1001); EvAcquire (Slab 0);
        EvEncrypt MPI_INT MPI_SUM 0 (demo_prf 1001);
        EvDecrypt MPI_INT MPI_SUM (junk_prev_count demo_frame)].
Proof. vm_compute. repeat split; try done. Qed.

(** C9 (the code departs from the claim): on the pipelined path, when the
    pool has no slab for the first block, the jump to [cleanup] hands the
    null buffer to [release_memory], whose assertion stops the process;
    [MPI_ERR_BUFFER] is never returned.  Shown on a pool created empty and
    on the default pool of four slabs after four requests with
    [count = 0]. *)
Theorem pipelined_first_block_without_buffer_aborts :
  let cfg := demo_cfg true true 65536 in
  let call sendbuf recvbuf count w :=
    run solo_oracle 0
      (MPI_Allreduce cfg (demo_env 1 0) demo_frame sendbuf recvbuf count
         MPI_INT MPI_SUM demo_comm w) in
  let drained :=
    (call [] [] 0 (call [] [] 0 (call [] [] 0 (call [] [] 0
       (demo_world [0; 1; 2; 3]%nat)).2).2).2).2 in
  (call [5] [0] 1 (demo_world [])).1 = Stopped AssertionFailed
  /\ log (call [5] [0] 1 (demo_world [])).2
     = [EvAdvance demo_comm 1001 (demo_prf 1001); EvAcquire nullptr]
  /\ free_count drained = 0%nat
  /\ (call [5] [0] 1 drained).1 = Stopped AssertionFailed
  /\ last (log (call [5] [0] 1 drained).2) = Some (EvAcquire nullptr).
Proof. vm_compute. repeat split; try done. Qed.

Lemma no_buffer_without_pipelining cfg env frame sendbuf recvbuf count dt op
    comm w i old o n :
  USE_MPOOL cfg = true ->
  USE_PIPELINING cfg = false ->
  op = MPI_SUM \/ op = MPI_PROD ->
  dt = MPI_INT \/ dt = MPI_FLOAT ->
  _k_n_map (hear w) !! comm = Some i ->
  _k_n_storage (hear w) !! i = Some old ->
  mpool.free_slabs (_sbuf_mpool (hear w)) = [] ->
  (run o n (MPI_Allreduce cfg env frame sendbuf recvbuf count dt op comm w)).1
  = Returned (MPI_ERR_BUFFER, recvbuf).
Proof.
  intros Hpool Hpipe Hop Hdt Hi Hold Hfree.
  unfold MPI_Allreduce.
  rewrite decide_False by (intros [[? ?]|[? ?]]; destruct Hop, Hdt; done).
  unfold bind at 1. rewrite (update_k_n_registered _ _ _ _ Hi Hold).
  simpl. rewrite Hpipe. simpl.
  unfold encrypt_sendbuf, bind, acquire_scratch, emit, ret.
  simpl. rewrite Hpool. unfold mpool.acquire_buf. rewrite Hfree. done.
Qed.

Lemma no_buffer_with_pipelining cfg env frame sendbuf recvbuf count dt op
    comm w i old o n :
  USE_MPOOL cfg = true ->
  USE_PIPELINING cfg = true ->
  op = MPI_SUM \/ op = MPI_PROD ->
  dt = MPI_INT \/ dt = MPI_FLOAT ->
  _k_n_map (hear w) !! comm = Some i ->
  _k_n_storage (hear w) !! i = Some old ->
  mpool.free_slabs (_sbuf_mpool (hear w)) = [] ->
  (run o n (MPI_Allreduce cfg env frame sendbuf recvbuf count dt op comm w)).1
  = Stopped AssertionFailed.
Proof.
  intros Hpool Hpipe Hop Hdt Hi Hold Hfree.
  unfold MPI_Allreduce.
  rewrite decide_False by (intros [[? ?]|[? ?]]; destruct Hop, Hdt; done).
  set (loop := pipeline_loop _ _ _ _ _ _ _).
  unfold bind at 1. rewrite (update_k_n_registered _ _ _ _ Hi Hold).
  simpl. rewrite Hpipe. simpl.
  unfold encrypt_sendbuf, bind, acquire_scratch, emit, ret.
  simpl. rewrite Hpool. unfold mpool.acquire_buf. rewrite Hfree. done.
Qed.

(** With one free slab and two blocks, the request for the second block's
    buffer fails and the call returns the buffer error. *)
Lemma pipelined_second_block_without_buffer :
  let res :=
    run solo_oracle 0
      (MPI_Allreduce (demo_cfg true true 3) (demo_env 1 0) demo_frame
         [1; 2; 3; 4] [0; 0; 0; 0] 4 MPI_INT MPI_SUM demo_comm
         (demo_world [0%nat])) in
  res.1 = Returned (MPI_ERR_BUFFER, [0; 0; 0; 0])
  /\ free_count res.2 = 1%nat.
Proof. vm_compute. done. Qed.

(** ** Arithmetic of the masks *)

Lemma int_small z : - 2 ^ 31 <= z <= INT_MAX -> int z = z.
Proof. unfold int, INT_MAX. intros H. rewrite Z.mod_small by lia. lia. Qed.

Lemma int_range z : - 2 ^ 31 <= int z <= INT_MAX.
Proof.
  unfold int, INT_MAX.
  pose proof (Z.mod_pos_bound (z + 2 ^ 31) (2 ^ 32)). lia.
Qed.

Lemma u32_u32 z : u32 (u32 z) = u32 z.
Proof. unfold u32. by rewrite Z.mod_mod. Qed.

Lemma u32_add_l a b : u32 (u32 a + b) = u32 (a + b).
Proof. unfold u32. by rewrite Zplus_mod_idemp_l. Qed.

Lemma u32_add_r a b : u32 (a + u32 b) = u32 (a + b).
Proof. unfold u32. by rewrite Zplus_mod_idemp_r. Qed.

Lemma zsum_cons a l : zsum (a :: l) = a + zsum l.
Proof. done. Qed.

Lemma int_sum_cons a l : int_sum (a :: l) = u32 (a + int_sum l).
Proof. done. Qed.

Lemma int_sum_zsum (l : list word) : int_sum l = u32 (zsum l).
Proof.
  induction l as [|a l IH]; [done|].
  rewrite int_sum_cons, zsum_cons, IH. apply u32_add_r.
Qed.

Lemma zsum_app l1 l2 : zsum (l1 ++ l2) = zsum l1 + zsum l2.
Proof.
  induction l1 as [|a l1 IH]; [done|].
  rewrite <- app_comm_cons, !zsum_cons, IH. lia.
Qed.

Lemma u32_zsum_fmap_u32 {A : Type} (f : A -> Z) (l : list A) :
  u32 (zsum ((fun a => u32 (f a)) <$> l)) = u32 (zsum (f <$> l)).
Proof.
  induction l as [|a l IH]; [done|].
  rewrite !fmap_cons, !zsum_cons.
  by rewrite u32_add_l, <- (u32_add_r (f a)), IH, u32_add_r.
Qed.

Lemma zsum_fmap_add {A : Type} (f g : A -> Z) (l : list A) :
  zsum ((fun a => f a + g a) <$> l) = zsum (f <$> l) + zsum (g <$> l).
Proof.
  induction l as [|a l IH]; [done|].
  rewrite !fmap_cons, !zsum_cons, IH. lia.
Qed.

Lemma seq_last s n : seq s (S n) = seq s n ++ [(s + n)%nat].
Proof. by rewrite seq_S. Qed.

(** The column sent by the ranks, and what it sums to. *)
Lemma masked_column_sum (prf : word -> word) (k_s : list word) (k_n : word)
    (M : nat) (x : nat -> Z) (j : nat) :
  length k_s = S M ->
  u32 (zsum ((fun r =>
               if bool_decide (Z.of_nat r = Z.of_nat (S M) - 1)
               then u32 (x r - encryption.mask_total prf k_s k_n j)
               else u32 (x r + encryption.mask prf k_s k_n (Z.to_nat (Z.of_nat r)) j))
             <$> seq 0 (S M)))
  = u32 (zsum (x <$> seq 0 (S M))).
Proof.
  intros Hlen.
  rewrite (fmap_seq_ext _
    (fun r => u32 (if bool_decide (r = M)
                   then x r - encryption.mask_total prf k_s k_n j
                   else x r + encryption.mask prf k_s k_n r j)) 0 (S M)).
  2:{ intros r _. rewrite Nat2Z.id.
      destruct (decide (r = M)) as [->|Hne].
      - rewrite !bool_decide_true by lia. done.
      - rewrite !bool_decide_false by lia. done. }
  rewrite u32_zsum_fmap_u32.
  rewrite !seq_last, !fmap_app, !zsum_app. rewrite !Nat.add_0_l.
  rewrite !list_fmap_singleton, !bool_decide_true by done.
  rewrite (fmap_seq_ext _
    (fun r => x r + encryption.mask prf k_s k_n r j) 0 M).
  2:{ intros r Hr. by rewrite bool_decide_false by lia. }
  rewrite zsum_fmap_add.
  unfold encryption.mask_total. rewrite Hlen.
  replace (S M - 1)%nat with M by lia.
  fold (zsum ((fun r => encryption.mask prf k_s k_n r j) <$> seq 0 M)).
  f_equal. rewrite !zsum_cons. change (zsum []) with 0. lia.
Qed.

Lemma lookup_nth_lt (x : list word) i :
  (i < length x)%nat -> x !! i = Some (nth i x 0).
Proof.
  intros Hi. destruct (nth_lookup_or_length x i 0) as [H|H]; [done|lia].
Qed.

Lemma nth_masked_block prf k_s k_n N x r c b j :
  (j < b)%nat -> (c + b <= length x)%nat ->
  nth j (masked_block prf k_s k_n N x r c b) 0
  = if bool_decide (Z.of_nat r = Z.of_nat N - 1)
    then u32 (nth (c + j) x 0 - encryption.mask_total prf k_s k_n j)
    else u32 (nth (c + j) x 0
              + encryption.mask prf k_s k_n (Z.to_nat (Z.of_nat r)) j).
Proof.
  intros Hj Hlen. apply nth_lookup_Some with (d := 0).
  unfold masked_block, encryption.encrypt_int_sum_naive.
  rewrite list_lookup_imap, (Nat2Z.id b).
  rewrite lookup_take_lt by done. rewrite lookup_drop.
  rewrite (lookup_nth_lt x (c + j)) by lia. simpl.
  by destruct (bool_decide _).
Qed.

Lemma fmap_seq_shift {A : Type} (f : nat -> A) c b :
  f <$> seq c b = (fun j => f (c + j)%nat) <$> seq 0 b.
Proof.
  apply list_eq. intros i. rewrite !list_lookup_fmap.
  destruct (decide (i < b)%nat) as [Hi|Hi].
  - by rewrite !lookup_seq_lt by done.
  - by rewrite !lookup_seq_ge by lia.
Qed.

Lemma take_drop_seq c b n :
  (c + b <= n)%nat -> take b (drop c (seq 0 n)) = seq c b.
Proof.
  intros H. apply list_eq. intros i.
  destruct (decide (i < b)%nat) as [Hi|Hi].
  - rewrite lookup_take_lt by done. rewrite lookup_drop.
    by rewrite !lookup_seq_lt by lia.
  - rewrite lookup_take_ge by lia. by rewrite lookup_seq_ge by lia.
Qed.

Lemma column_by_rank (y : nat -> list word) N j :
  column (y <$> seq 0 N) j = (fun r => nth j (y r) 0) <$> seq 0 N.
Proof. unfold column. by rewrite <- list_fmap_compose. Qed.

(** The library's sum of the masked blocks is the block of the sum of the
    plain inputs. *)
Lemma reduce_masked_block other prf k_s k_n N (xs : nat -> list word)
    (count c b : nat) :
  (0 < N)%nat ->
  length k_s = N ->
  (c + b <= count)%nat ->
  (forall r, (r < N)%nat -> (count <= length (xs r))%nat) ->
  native_reduce other MPI_INT MPI_SUM (Z.of_nat b)
    ((fun r => masked_block prf k_s k_n N (xs r) r c b) <$> seq 0 N)
  = take b (drop c (native_reduce other MPI_INT MPI_SUM (Z.of_nat count)
                      (xs <$> seq 0 N))).
Proof.
  intros HN Hk Hcb Hlen. unfold native_reduce. rewrite !Nat2Z.id.
  rewrite <- (fmap_drop _ c), <- (fmap_take _ b).
  rewrite (take_drop_seq c b count) by done.
  rewrite (fmap_seq_shift _ c b). apply fmap_seq_ext. intros j Hj.
  rewrite !column_by_rank, !int_sum_zsum.
  destruct N as [|M]; [lia|].
  rewrite (fmap_seq_ext _
    (fun r =>
       if bool_decide (Z.of_nat r = Z.of_nat (S M) - 1)
       then u32 (nth (c + j) (xs r) 0 - encryption.mask_total prf k_s k_n j)
       else u32 (nth (c + j) (xs r) 0
                 + encryption.mask prf k_s k_n (Z.to_nat (Z.of_nat r)) j))
    0 (S M)).
  2:{ intros r Hr. apply nth_masked_block; [lia|].
      specialize (Hlen r). lia. }
  by rewrite (masked_column_sum prf k_s k_n M
                (fun r => nth (c + j) (xs r) 0) j Hk).
Qed.

Lemma length_native_int_sum other count contribs :
  length (native_reduce other MPI_INT MPI_SUM count contribs)
  = Z.to_nat count.
Proof. unfold native_reduce. by rewrite length_fmap, length_seq. Qed.

Lemma same_store_refl w : same_store w w.
Proof. done. Qed.

Lemma same_store_trans w1 w2 w3 :
  same_store w1 w2 -> same_store w2 w3 -> same_store w1 w3.
Proof.
  unfold same_store. intros (?&?&?&?&?&?) (?&?&?&?&?&?).
  repeat split; congruence.
Qed.

Lemma rank_ready_same_store prf g comm N k_s k_n env r w w' :
  rank_ready prf g comm N k_s k_n env r w -> same_store w w' ->
  rank_ready prf g comm N k_s k_n env r w'.
Proof.
  intros [] (H1 & H2 & H3 & H4 & H5 & _).
  split; try done; unfold K_s, K_n in *;
    rewrite ?H1, ?H2, ?H3, ?H4, ?H5; done.
Qed.

Lemma K_s_Some s comm k_s :
  K_s s comm = Some k_s ->
  exists i, _k_s_map s !! comm = Some i /\ _k_s_storage s !! i = Some k_s.
Proof.
  unfold K_s. destruct (_k_s_map s !! comm) as [i|]; [|done]. eauto.
Qed.

Lemma K_n_Some s comm k_n :
  K_n s comm = Some k_n ->
  exists i, _k_n_map s !! comm = Some i /\ _k_n_storage s !! i = Some k_n.
Proof.
  unfold K_n. destruct (_k_n_map s !! comm) as [i|]; [|done]. eauto.
Qed.

Lemma encrypt_sendbuf_ready cfg prf g comm N k_s k_n env r w x (b : nat) c :
  rank_ready prf g comm N k_s k_n env r w ->
  pool_ready cfg 1 (Z.of_nat b * 4) w ->
  (USE_MPOOL cfg = false -> Z.of_nat b * 4 <= INT_MAX) ->
  exists p w',
    encrypt_sendbuf cfg env (drop c x) (Z.of_nat b) MPI_INT MPI_SUM comm w
    = Ret (p, masked_block prf k_s k_n N x r c b) w'
    /\ held cfg p
    /\ holds cfg p w w'
    /\ same_store w w'.
Proof.
  intros [Hsz Hrk HKs HKn Henc Hdec Hprng] Hpool Hnew.
  apply K_s_Some in HKs as (i & Hi & Hks).
  apply K_n_Some in HKn as (j & Hj & Hkn).
  unfold encrypt_sendbuf, bind, acquire_scratch, emit, ret, get_hear,
    check_capacity, held, holds.
  pose proof (is_fresh (heap w)) as Hfresh.
  destruct (USE_MPOOL cfg) eqn:Hp.
  - destruct Hpool as [Hfree Hcap]; [done|].
    unfold free_count, mpool.free_count in *.
    unfold mpool.acquire_buf.
    destruct (mpool.free_slabs (_sbuf_mpool (hear w))) as [|s rest] eqn:Hfs;
      [simpl in Hfree; lia|].
    simpl.
    rewrite k_s_index_registered with (i := i) by done. simpl.
    rewrite k_s_read_at with (v := k_s) by done. simpl.
    rewrite k_n_index_registered with (i := j) by done. simpl.
    rewrite k_n_read_at with (v := k_n) by done. simpl.
    rewrite bool_decide_false by lia. simpl.
    eexists _, _. split.
    { unfold masked_block. rewrite Henc, Hsz, Hrk. reflexivity. }
    split; [eauto|]. split; [|done].
    split; [eauto|]. simpl. done.
  - specialize (Hnew eq_refl). simpl.
    rewrite (int_small (Z.of_nat b * 4)) by (unfold INT_MAX in *; lia).
    rewrite decide_False by lia. simpl.
    rewrite k_s_index_registered with (i := i) by done. simpl.
    rewrite k_s_read_at with (v := k_s) by done. simpl.
    rewrite k_n_index_registered with (i := j) by done. simpl.
    rewrite k_n_read_at with (v := k_n) by done. simpl.
    rewrite bool_decide_false by lia. simpl.
    eexists _, _. split.
    { unfold masked_block. rewrite Henc, Hsz, Hrk. reflexivity. }
    split; [eauto|]. split; [|done].
    split; [|done]. eauto.
Qed.

Lemma held_not_null cfg p : held cfg p -> p <> nullptr.
Proof. unfold held. destruct (USE_MPOOL cfg); intros [i ->]; done. Qed.

Lemma decrypt_recvbuf_ready prf g comm N k_s k_n env r w recvbuf count :
  rank_ready prf g comm N k_s k_n env r w ->
  decrypt_recvbuf recvbuf count MPI_INT MPI_SUM comm w
  = Ret (MPI_SUCCESS, recvbuf) (add_log (EvDecrypt MPI_INT MPI_SUM count) w).
Proof.
  intros [Hsz Hrk HKs HKn Henc Hdec Hprng].
  apply K_s_Some in HKs as (i & Hi & Hks).
  apply K_n_Some in HKn as (j & Hj & Hkn).
  unfold decrypt_recvbuf, bind, emit, ret, get_hear. simpl.
  rewrite k_s_index_registered with (i := i) by done. simpl.
  rewrite k_s_read_at with (v := k_s) by done. simpl.
  rewrite k_n_index_registered with (i := j) by done. simpl.
  rewrite k_n_read_at with (v := k_n) by done. simpl.
  by rewrite Hdec.
Qed.

Lemma mem_write_at_same recvbuf offset :
  mem_write_at recvbuf offset (mem_at recvbuf offset) = recvbuf.
Proof. unfold mem_write_at, mem_at. apply take_drop. Qed.

Lemma mem_write_nothing recvbuf offset :
  mem_write_at recvbuf offset (mem_write (mem_at recvbuf offset) [])
  = recvbuf.
Proof.
  unfold mem_write. simpl. rewrite drop_0, take_ge by done.
  apply mem_write_at_same.
Qed.

Lemma decrypt_at_ready prf g comm N k_s k_n env r w recvbuf offset count :
  rank_ready prf g comm N k_s k_n env r w ->
  decrypt_at recvbuf offset count MPI_INT MPI_SUM comm w
  = Ret (MPI_SUCCESS, recvbuf) (add_log (EvDecrypt MPI_INT MPI_SUM count) w).
Proof.
  intros Hr. unfold decrypt_at, bind.
  rewrite (decrypt_recvbuf_ready _ _ _ _ _ _ _ _ _ _ _ Hr). simpl.
  unfold ret. by rewrite mem_write_at_same.
Qed.

Lemma release_memory_held cfg p w :
  held cfg p ->
  exists w',
    release_memory cfg p w = Ret tt w'
    /\ released cfg p w w' /\ same_store w w'.
Proof.
  unfold held, release_memory, bind, c_assert, free_scratch, released,
    free_count, mpool.free_count.
  destruct (USE_MPOOL cfg) eqn:Hp; intros [i ->]; simpl;
    (eexists; split; [reflexivity|]); simpl.
  - split; [|done]. split; [done|]. intros i' [= <-].
    rewrite length_app. simpl. lia.
  - split; [|done]. split; [done|]. by intros i' [= <-].
Qed.

Lemma rank_ready_advanced prf g comm N k_s k_n env r w j :
  rank_ready prf g comm N k_s k_n env r w ->
  _k_n_map (hear w) !! comm = Some j ->
  rank_ready prf g comm N k_s (g k_n) env r (advanced comm j k_n w).
Proof.
  intros [Hsz Hrk HKs HKn Henc Hdec Hprng] Hj.
  split; try done. unfold K_n in *. simpl. rewrite Hj in *. simpl in *.
  rewrite Hprng. apply list_lookup_insert_eq. by eapply lookup_lt_Some.
Qed.

Lemma allreduce_int_sum_shape cfg prf g comm N k_s k_n env r w frame x
    recvbuf (count : nat) :
  USE_PIPELINING cfg = false ->
  rank_ready prf g comm N k_s k_n env r w ->
  request_fits cfg (Z.of_nat count) w ->
  exists k,
    MPI_Allreduce cfg env frame x recvbuf (Z.of_nat count) MPI_INT MPI_SUM
      comm w
    = Call (PMPI_Allreduce (masked_block prf k_s (g k_n) N x r 0 count)
              (Z.of_nat count) MPI_INT MPI_SUM comm) k
    /\ forall reply,
         r_code reply = MPI_SUCCESS ->
         exists w',
           k reply = Ret (MPI_SUCCESS, mem_write recvbuf (r_data reply)) w'
           /\ rank_ready prf g comm N k_s (g k_n) env r w'
           /\ balanced w w'.
Proof.
  intros Hpipe Hr [Hslabs Hlen Hnew _].
  unfold first_block, slabs_needed in *. rewrite Hpipe in *. simpl in *.
  destruct (K_n_Some _ _ _ (rr_k_n _ _ _ _ _ _ _ _ _ Hr)) as (j & Hj & Hkn).
  pose proof (rank_ready_advanced _ _ _ _ _ _ _ _ _ _ Hr Hj) as Hr1.
  assert (Hpool1 : pool_ready cfg 1 (Z.of_nat count * 4)
                     (advanced comm j k_n w)).
  { intros Hp. specialize (Hslabs Hp). specialize (Hlen Hp).
    unfold free_count in *. simpl. split; lia. }
  destruct (encrypt_sendbuf_ready cfg _ _ _ _ _ _ _ _ _ x count 0%nat
              Hr1 Hpool1) as (p & w2 & Henc & Hheld & Hholds & Hsame).
  { intros Hp. specialize (Hnew Hp). lia. }
  rewrite drop_0 in Henc.
  unfold MPI_Allreduce.
  rewrite decide_False by (intros [[? ?]|[? ?]]; done).
  set (loop := pipeline_loop _ _ _ _ _ _ _).
  unfold bind at 1. rewrite (update_k_n_registered _ _ _ _ Hj Hkn).
  rewrite <- (rr_prng _ _ _ _ _ _ _ _ _ Hr) in Henc.
  simpl. rewrite Hpipe. simpl.
  unfold bind at 1. rewrite Henc. simpl.
  rewrite decide_False by (by apply held_not_null in Hheld).
  unfold shadow_allreduce, bind at 1 2. simpl.
  rewrite (rr_prng _ _ _ _ _ _ _ _ _ Hr).
  eexists. split; [reflexivity|].
  intros reply Hcode. simpl. rewrite Hcode.
  rewrite decide_False by (intros ?; done).
  assert (Hr2 : rank_ready prf g comm N k_s (g k_n) env r
                  (add_log (EvMPL (PMPI_Allreduce
                     (masked_block prf k_s (g k_n) N x r 0 count)
                     (Z.of_nat count) MPI_INT MPI_SUM comm) reply) w2)).
  { eapply rank_ready_same_store; [exact Hr1|]. exact Hsame. }
  unfold bind at 1.
  rewrite (decrypt_recvbuf_ready _ _ _ _ _ _ _ _ _ _ _ Hr2). simpl.
  unfold bind at 1.
  edestruct (release_memory_held cfg p) as (w3 & -> & Hrel & Hsame3);
    [exact Hheld|].
  simpl. eexists. split; [reflexivity|]. split.
  - eapply rank_ready_same_store; [exact Hr2|exact Hsame3].
  - eapply holds_released; [|exact Hrel].
    eapply holds_balanced; [exact Hholds|done].
Qed.

Lemma cell_of_4 (k : nat) : cell_of (4 * Z.of_nat k) = k.
Proof.
  unfold cell_of. rewrite Z.mul_comm, Z.div_mul by lia. apply Nat2Z.id.
Qed.

Lemma pipeline_loop_exit cfg prf g comm N k_s k_n env r w fuel x l recvbuf :
  rank_ready prf g comm N k_s k_n env r w ->
  total_count l = 0 ->
  pipeline_loop cfg env fuel x MPI_INT MPI_SUM comm l recvbuf w
  = Ret (MPI_SUCCESS, recvbuf)
      (add_log (EvDecrypt MPI_INT MPI_SUM (prev_count l)) w).
Proof.
  intros Hr Hz.
  destruct fuel; simpl; rewrite decide_True by done; unfold bind;
    rewrite (decrypt_at_ready _ _ _ _ _ _ _ _ _ _ _ _ Hr); simpl; done.
Qed.

Lemma pipeline_iteration cfg prf g comm N k_s k_n env r x count T l w fuel
    recvbuf :
  1 <= pipelining_block_size cfg ->
  loop_ready cfg prf g comm N k_s k_n env r x count T l w ->
  let b := Z.to_nat (Z.min (Z.of_nat T) (pipelining_block_size cfg)) in
  exists k1,
    pipeline_loop cfg env (S fuel) x MPI_INT MPI_SUM comm l recvbuf w
    = Call (PMPI_Iallreduce
              (masked_block prf k_s k_n N x r (count - T) b)
              (Z.of_nat b) MPI_INT MPI_SUM comm) k1
    /\ forall r1,
         r_code r1 = MPI_SUCCESS ->
         let posted :=
           mem_write_at recvbuf (4 * Z.of_nat (count - T))
             (mem_write (mem_at recvbuf (4 * Z.of_nat (count - T)))
                (r_data r1)) in
         exists k2,
           k1 r1 = Call PMPI_Wait k2
           /\ forall r2, exists l' w',
                k2 r2
                = pipeline_loop cfg env fuel x MPI_INT MPI_SUM comm l'
                    (mem_write_at posted (4 * Z.of_nat (count - T))
                       (mem_write
                          (mem_at posted (4 * Z.of_nat (count - T)))
                          (r_data r2)))
                    w'
                /\ (((T - b)%nat = 0%nat /\ total_count l' = 0
                     /\ rank_ready prf g comm N k_s k_n env r w')
                    \/ loop_ready cfg prf g comm N k_s k_n env r x count
                         (T - b) l' w').
Proof.
  intros HB [Hr Htot Hbd Hcur Hoff Hnoff Hdata Hheld Hpool Hnew Hlimit0 Hblk] b.
  assert (Hb : Z.of_nat b = Z.min (Z.of_nat T) (pipelining_block_size cfg)).
  { unfold b. rewrite Z2Nat.id; lia. }
  assert (Hb1 : (1 <= b <= T)%nat) by lia.
  simpl. rewrite decide_False by lia.
  unfold bind at 1. unfold mpl at 1. simpl.
  rewrite Hdata. fold b. rewrite Hcur, <- Hb.
  eexists. split; [reflexivity|].
  intros r1 Hc1. simpl. rewrite Hc1.
  rewrite decide_False by (intros ?; done).
  set (posted := mem_write_at recvbuf (cur_offset l)
                   (mem_write (mem_at recvbuf (cur_offset l)) (r_data r1))).
  set (w1 := add_log _ w).
  assert (Hr1 : rank_ready prf g comm N k_s k_n env r w1) by
    (eapply rank_ready_same_store; [exact Hr|done]).
  (* decryption of the previous block *)
  unfold bind at 1.
  assert (Hdec : exists w2,
            (if decide (cur_offset l > 0)
             then decrypt_at posted (prev_offset l) (prev_count l) MPI_INT
                    MPI_SUM comm
             else ret (MPI_SUCCESS, posted)) w1
            = Ret (MPI_SUCCESS, posted) w2
            /\ same_store w1 w2 /\ balanced w1 w2).
  { destruct (decide (cur_offset l > 0)).
    - rewrite (decrypt_at_ready _ _ _ _ _ _ _ _ _ _ _ _ Hr1).
      eexists. split; [reflexivity|]. done.
    - eexists. split; [reflexivity|]. done. }
  destruct Hdec as (w2 & -> & Hs2 & Hb2). simpl.
  assert (Hr2 : rank_ready prf g comm N k_s k_n env r w2) by
    (eapply rank_ready_same_store; eauto).
  assert (Hpool2 :
            USE_MPOOL cfg = true ->
            (pipelining_block_size cfg < Z.of_nat T -> (1 <= free_count w2)%nat)
            /\ 4 * Z.min (Z.of_nat count) (pipelining_block_size cfg)
               <= mpool.sbuf_len (_sbuf_mpool (hear w2))).
  { intros Hp. destruct (Hpool Hp) as [Hfree Hcap].
    destruct Hb2 as [Hc2 _]. destruct Hs2 as (_&_&_&_&_&Hl2).
    rewrite Hc2, Hl2. unfold w1, free_count. simpl. done. }
  rewrite Htot, Hnoff.
  destruct (decide (Z.of_nat T - Z.of_nat b = 0)) as [Hlast|Hmore].
  - (* the last block *)
    unfold bind at 1. simpl.
    rewrite decide_False by (intros [? _]; done).
    unfold bind at 1. unfold mpl at 1. simpl.
    eexists. split; [reflexivity|].
    intros r2. simpl.
    edestruct (release_memory_held cfg (encr_sendbuf l)) as (w3 & Hrel & _ & Hs3);
      [exact Hheld|].
    unfold bind at 1. rewrite Hrel. simpl. subst posted. rewrite Hoff.
    eexists _, _. split; [reflexivity|]. left.
    split; [lia|]. split; [done|].
    eapply rank_ready_same_store; [|exact Hs3].
    eapply rank_ready_same_store; [exact Hr2|done].
  - (* one more block to mask *)
    set (T' := (T - b)%nat).
    assert (HT' : Z.of_nat T - Z.of_nat b = Z.of_nat T') by lia.
    set (b' := Z.to_nat (Z.min (Z.of_nat T') (pipelining_block_size cfg))).
    assert (Hb' : Z.of_nat b'
                  = Z.min (Z.of_nat T') (pipelining_block_size cfg)).
    { unfold b'. rewrite Z2Nat.id; lia. }
    assert (HbB : Z.of_nat b = pipelining_block_size cfg) by lia.
    destruct Hblk as (k & Hk0 & Hk).
    assert (Hlimit : 4 * Z.of_nat (count - T') <= INT_MAX).
    { etransitivity; [|exact Hlimit0]. unfold last_offset.
      apply Z.mul_le_mono_nonneg_l; [lia|].
      replace (Z.of_nat (count - T'))
        with (pipelining_block_size cfg * (k + 1)) by lia.
      apply Z.mul_le_mono_nonneg_l; [lia|].
      apply Z.div_le_lower_bound; lia. }
    assert (Hnext : int (4 * Z.of_nat (count - T) + int (Z.of_nat b * 4))
                    = 4 * Z.of_nat (count - T')).
    { rewrite (int_small (Z.of_nat b * 4)) by (unfold INT_MAX in *; lia).
      rewrite int_small by (unfold INT_MAX in *; lia). lia. }
    unfold bind at 1. unfold bind at 1. unfold check_offset.
    simpl type_size. rewrite Hnext.
    rewrite decide_True by lia. simpl.
    assert (Hcnt : (if decide (Z.of_nat T - Z.of_nat b
                               < pipelining_block_size cfg)
                    then Z.of_nat T - Z.of_nat b
                    else pipelining_block_size cfg) = Z.of_nat b').
    { rewrite Hb', HT'. destruct (decide _); lia. }
    rewrite Hcnt. unfold mem_at. rewrite cell_of_4.
    edestruct (encrypt_sendbuf_ready cfg prf g comm N k_s k_n env r w2 x b'
                 (count - T')%nat Hr2)
      as (p & w3 & Henc & Hheld3 & Hholds3 & Hs3).
    { intros Hp. destruct (Hpool2 Hp) as [Hfree ?]. split; [|lia].
      apply Hfree. lia. }
    { intros Hp. specialize (Hnew Hp). lia. }
    rewrite Henc. simpl.
    rewrite decide_False
      by (intros [_ ?]; by apply held_not_null in Hheld3).
    unfold bind at 1. unfold mpl at 1. simpl.
    eexists. split; [reflexivity|].
    intros r2. simpl.
    edestruct (release_memory_held cfg (encr_sendbuf l))
      as (w4 & Hrel & Hreleased & Hs4); [exact Hheld|].
    unfold bind at 1. rewrite Hrel. simpl. subst posted. rewrite Hoff.
    eexists _, _. split; [reflexivity|]. right.
    split; simpl; try done; try lia.
    + eapply rank_ready_same_store; [|exact Hs4].
      eapply (rank_ready_same_store _ _ _ _ _ _ _ _ w3); [|done].
      eapply rank_ready_same_store; [exact Hr2|exact Hs3].
    + intros Hp. destruct (Hpool2 Hp) as [Hfree Hcap]. split.
      * intros _. assert (1 <= free_count w2)%nat by (apply Hfree; lia).
        unfold holds, released, held in *. rewrite Hp in *.
        destruct Hheld as [i Hi].
        destruct Hholds3 as (_ & Hc3 & _). destruct Hreleased as [_ Hc4].
        rewrite (Hc4 i) by done. simpl. unfold free_count in *. simpl in *.
        lia.
      * destruct Hs4 as (_&_&_&_&_&->). simpl.
        destruct Hs3 as (_&_&_&_&_&->). done.
    + exists (k + 1). split; [lia|]. lia.
Qed.

Lemma allreduce_pipelined_start cfg prf g comm N k_s k_n env r w frame x
    recvbuf (count : nat) :
  USE_PIPELINING cfg = true ->
  1 <= pipelining_block_size cfg ->
  (0 < count)%nat ->
  rank_ready prf g comm N k_s k_n env r w ->
  request_fits cfg (Z.of_nat count) w ->
  exists l w1,
    MPI_Allreduce cfg env frame x recvbuf (Z.of_nat count) MPI_INT MPI_SUM
      comm w
    = pipeline_loop cfg env (S count) x MPI_INT MPI_SUM comm l recvbuf w1
    /\ loop_ready cfg prf g comm N k_s (g k_n) env r x count count l w1.
Proof.
  intros Hpipe HB Hcount Hr [Hslabs Hlen Hnew Hlast].
  unfold first_block, slabs_needed in *. rewrite Hpipe in *. simpl in *.
  specialize (Hlast eq_refl).
  destruct (K_n_Some _ _ _ (rr_k_n _ _ _ _ _ _ _ _ _ Hr)) as (j & Hj & Hkn).
  pose proof (rank_ready_advanced _ _ _ _ _ _ _ _ _ _ Hr Hj) as Hr1.
  set (b := Z.to_nat (Z.min (Z.of_nat count) (pipelining_block_size cfg))).
  assert (Hb : Z.of_nat b
               = Z.min (Z.of_nat count) (pipelining_block_size cfg)).
  { unfold b. rewrite Z2Nat.id; lia. }
  assert (Hpool1 : pool_ready cfg 1 (Z.of_nat b * 4) (advanced comm j k_n w)).
  { intros Hp. specialize (Hslabs Hp). specialize (Hlen Hp).
    unfold free_count in *. simpl. split; [|lia].
    destruct (bool_decide _) in Hslabs; lia. }
  destruct (encrypt_sendbuf_ready cfg _ _ _ _ _ _ _ _ _ x b 0%nat
              Hr1 Hpool1) as (p & w2 & Henc & Hheld & Hholds & Hsame).
  { intros Hp. specialize (Hnew Hp). lia. }
  rewrite drop_0 in Henc.
  unfold MPI_Allreduce.
  rewrite decide_False by (intros [[? ?]|[? ?]]; done).
  rewrite Nat2Z.id.
  set (loop := pipeline_loop _ _ _ _ _ _ _).
  unfold bind at 1. rewrite (update_k_n_registered _ _ _ _ Hj Hkn).
  rewrite <- (rr_prng _ _ _ _ _ _ _ _ _ Hr) in Henc.
  simpl. rewrite Hpipe. simpl.
  assert (Hcnt : (if decide (Z.of_nat count < pipelining_block_size cfg)
                  then Z.of_nat count else pipelining_block_size cfg)
                 = Z.of_nat b).
  { rewrite Hb. destruct (decide _); lia. }
  rewrite Hcnt.
  unfold bind at 1. rewrite Henc. simpl.
  rewrite decide_False by (by apply held_not_null in Hheld).
  eexists _, _. split; [reflexivity|].
  split; simpl; try done; try lia.
  all: try (rewrite Nat.sub_diag).
  - eapply rank_ready_same_store; [exact Hr1|exact Hsame].
  - fold b. by rewrite (rr_prng _ _ _ _ _ _ _ _ _ Hr).
  - intros Hp. specialize (Hslabs Hp). specialize (Hlen Hp).
    unfold holds in Hholds. rewrite Hp in Hholds.
    destruct Hholds as (_ & Hc & _). unfold free_count in *. simpl in *.
    destruct Hsame as (_&_&_&_&_&->). simpl. split; [|lia].
    intros HBc. rewrite bool_decide_true in Hslabs by done. lia.
  - exists 0. lia.
Qed.

(** ** All ranks together *)

Lemma length_plain_sum other N xs count :
  length (plain_sum other N xs count) = count.
Proof. unfold plain_sum. by rewrite length_native_int_sum, Nat2Z.id. Qed.

Lemma spliced_all total recvbuf :
  spliced total (length total) recvbuf = recvbuf.
Proof.
  unfold spliced. rewrite drop_all. simpl. apply take_drop.
Qed.

Lemma spliced_none total recvbuf :
  (length total <= length recvbuf)%nat ->
  spliced total 0 recvbuf = mem_write recvbuf total.
Proof.
  intros H. unfold spliced, mem_write. simpl.
  rewrite take_ge; [done|]. rewrite length_app, length_drop. lia.
Qed.

Lemma spliced_step total c b recvbuf :
  (c + b <= length total)%nat ->
  (length total <= length recvbuf)%nat ->
  spliced total (c + b)
    (mem_write_at recvbuf (4 * Z.of_nat c)
       (mem_write (mem_at recvbuf (4 * Z.of_nat c)) (take b (drop c total))))
  = spliced total c recvbuf.
Proof.
  intros Hcb Hlen. unfold spliced, mem_write_at, mem_at, mem_write.
  rewrite cell_of_4.
  set (A := take c recvbuf). set (D := take b (drop c total)).
  assert (HA : length A = c) by (unfold A; rewrite length_take; lia).
  assert (HD : length D = b)
    by (unfold D; rewrite length_take, length_drop; lia).
  rewrite HD, drop_drop.
  rewrite (take_ge (D ++ drop (c + b) recvbuf))
    by (rewrite length_app, HD, !length_drop; lia).
  rewrite (app_assoc A D).
  rewrite take_app_length' by (rewrite length_app; lia).
  rewrite drop_app_ge by (rewrite length_app; lia).
  rewrite length_app, HA, HD, drop_drop.
  replace (c + b + (length total - (c + b)))%nat with (length total) by lia.
  rewrite <- !app_assoc. f_equal. rewrite app_assoc. f_equal.
  unfold D. rewrite <- (take_drop b (drop c total)) at 2.
  by rewrite drop_drop.
Qed.

Lemma length_mem_write_at recvbuf (c : nat) data :
  (c <= length recvbuf)%nat ->
  length (mem_write_at recvbuf (4 * Z.of_nat c)
            (mem_write (mem_at recvbuf (4 * Z.of_nat c)) data))
  = length recvbuf.
Proof.
  intros H. unfold mem_write_at, mem_at. rewrite cell_of_4.
  rewrite length_app, length_mem_write, length_take, length_drop. lia.
Qed.

Section LockStep.

Context (other : MPI_Datatype -> MPI_Op -> Z -> list (list word) -> list word)
        (cfg : config) (prf g : word -> word) (comm : MPI_Comm) (N : nat)
        (k_s : list word) (envs : nat -> process_env)
        (xs : nat -> list word) (count : nat).

Hypothesis HN : (0 < N)%nat.
Hypothesis Hks : length k_s = N.
Hypothesis Hxs : forall r, (r < N)%nat -> (count <= length (xs r))%nat.

Lemma pipelined_lockstep :
  1 <= pipelining_block_size cfg ->
  forall fuel T l recv ws F k_n,
  (T <= fuel)%nat ->
  (2 * T <= F)%nat ->
  (forall r, (r < N)%nat -> (count <= length (recv r))%nat) ->
  (forall r, (r < N)%nat ->
     (T = 0%nat /\ total_count (l r) = 0
      /\ rank_ready prf g comm N k_s k_n (envs r) r (ws r))
     \/ loop_ready cfg prf g comm N k_s k_n (envs r) r (xs r) count T
          (l r) (ws r)) ->
  exists res,
    run_ranks other F []
      ((fun r => pipeline_loop cfg (envs r) fuel (xs r) MPI_INT MPI_SUM comm
                   (l r) (recv r) (ws r)) <$> seq 0 N)
    = Some res
    /\ length res = N
    /\ forall r, (r < N)%nat ->
         exists x, res !! r = Some x
           /\ x.1 = Returned
                      (MPI_SUCCESS,
                       spliced (plain_sum other N xs count) (count - T)
                         (recv r))
           /\ rank_ready prf g comm N k_s k_n (envs r) r x.2.
Proof.
  intros HB. 
  assert (Hexit : forall fuel l recv ws F k_n,
    (forall r, (r < N)%nat ->
       total_count (l r) = 0
       /\ rank_ready prf g comm N k_s k_n (envs r) r (ws r)) ->
    exists res,
      run_ranks other F []
        ((fun r => pipeline_loop cfg (envs r) fuel (xs r) MPI_INT MPI_SUM
                     comm (l r) (recv r) (ws r)) <$> seq 0 N)
      = Some res
      /\ length res = N
      /\ forall r, (r < N)%nat ->
           exists x, res !! r = Some x
             /\ x.1 = Returned
                        (MPI_SUCCESS,
                         spliced (plain_sum other N xs count) (count - 0)
                           (recv r))
             /\ rank_ready prf g comm N k_s k_n (envs r) r x.2).
  { intros fuel l recv ws F k_n Hall.
    apply run_ranks_finished. intros r Hr.
    destruct (Hall r Hr) as [Hz Hrr].
    rewrite (pipeline_loop_exit _ _ _ _ _ _ _ _ _ _ _ _ _ _ Hrr Hz).
    eexists. split; [reflexivity|]. simpl. split.
    - rewrite Nat.sub_0_r.
      rewrite <- (length_plain_sum other N xs count) at 2.
      by rewrite spliced_all.
    - eapply rank_ready_same_store; [exact Hrr|done]. }
  induction fuel as [|fuel IH]; intros T l recv ws F k_n HT HF Hrecv Hall.
  - assert (T = 0%nat) as -> by lia. apply Hexit.
    intros r Hr. destruct (Hall r Hr) as [(_ & ? & ?)|[]]; [done|lia].
  - destruct (decide (T = 0%nat)) as [->|HTpos].
    { apply Hexit. intros r Hr.
      destruct (Hall r Hr) as [(_ & ? & ?)|[]]; [done|lia]. }
    assert (Hready : forall r, (r < N)%nat ->
              loop_ready cfg prf g comm N k_s k_n (envs r) r (xs r) count T
                (l r) (ws r)).
    { intros r Hr. destruct (Hall r Hr) as [(? & _)|?]; [lia|done]. }
    clear Hall.
    assert (HTc : (T <= count)%nat).
    { destruct (Hready 0%nat HN) as [_ _ ? _ _ _ _ _ _ _ _ _]. lia. }
    set (b := Z.to_nat (Z.min (Z.of_nat T) (pipelining_block_size cfg))).
    assert (Hb1 : (1 <= b <= T)%nat) by lia.
    set (c := (count - T)%nat).
    destruct F as [|[|F]]; [lia|lia|].
    set (P := fun r => pipeline_loop cfg (envs r) (S fuel) (xs r) MPI_INT
                         MPI_SUM comm (l r) (recv r) (ws r)).
    set (d := take b (drop c (plain_sum other N xs count))).
    set (reply1 := {| r_code := MPI_SUCCESS; r_data := [] |}).
    set (reply2 := {| r_code := MPI_SUCCESS; r_data := d |}).
    rewrite (run_ranks_round_by_rank other _ [] N P
               (fun r => resume reply1 (P r))
               (fun r => PMPI_Iallreduce
                           (masked_block prf k_s k_n N (xs r) r c b)
                           (Z.of_nat b) MPI_INT MPI_SUM comm)
               reply1 d); [|done| | |done].
    2:{ intros r Hr.
        destruct (pipeline_iteration _ _ _ _ _ _ _ _ _ _ _ _ _ _ fuel
                    (recv r) HB (Hready r Hr)) as (k1 & Hk1 & _).
        unfold P. by rewrite Hk1. }
    2:{ rewrite collective_iallreduce by done. unfold reply1, d.
        do 2 f_equal. unfold plain_sum.
        apply reduce_masked_block; try done. lia. }
    rewrite (run_ranks_round_by_rank other _ d N
               (fun r => resume reply1 (P r))
               (fun r => resume reply2 (resume reply1 (P r)))
               (fun _ => PMPI_Wait) reply2 []); [|done| | |done].
    2:{ intros r Hr.
        destruct (pipeline_iteration _ _ _ _ _ _ _ _ _ _ _ _ _ _ fuel
                    (recv r) HB (Hready r Hr)) as (k1 & Hk1 & Hrest).
        destruct (Hrest reply1) as (k2 & Hk2 & _); [done|].
        unfold P. rewrite Hk1. simpl. by rewrite Hk2. }
    2:{ by rewrite collective_wait. }
    set (recv' := fun r =>
           mem_write_at (recv r) (4 * Z.of_nat c)
             (mem_write (mem_at (recv r) (4 * Z.of_nat c)) d)).
    destruct (rank_choice (l 0%nat, ws 0%nat) N
                (fun r (lw : locals * world) =>
                   resume reply2 (resume reply1 (P r))
                   = pipeline_loop cfg (envs r) fuel (xs r) MPI_INT MPI_SUM
                       comm lw.1 (recv' r) lw.2
                   /\ (((T - b)%nat = 0%nat /\ total_count lw.1 = 0
                        /\ rank_ready prf g comm N k_s k_n (envs r) r lw.2)
                       \/ loop_ready cfg prf g comm N k_s k_n (envs r) r
                            (xs r) count (T - b) lw.1 lw.2)))
      as [lw Hlw].
    { intros r Hr.
      destruct (pipeline_iteration _ _ _ _ _ _ _ _ _ _ _ _ _ _ fuel
                  (recv r) HB (Hready r Hr)) as (k1 & Hk1 & Hrest).
      destruct (Hrest reply1) as (k2 & Hk2 & Hnext); [done|].
      destruct (Hnext reply2) as (l' & w' & Hloop & Hinv).
      simpl in Hloop. rewrite mem_write_nothing in Hloop.
      exists (l', w'). unfold P. rewrite Hk1. simpl. rewrite Hk2. simpl.
      rewrite Hloop. done. }
    rewrite (fmap_seq_ext _
               (fun r => pipeline_loop cfg (envs r) fuel (xs r) MPI_INT
                           MPI_SUM comm (lw r).1 (recv' r) (lw r).2) 0 N).
    2:{ intros r Hr. apply Hlw. lia. }
    destruct (IH (T - b)%nat (fun r => (lw r).1) recv'
                (fun r => (lw r).2) F k_n) as (res & Hrun & Hlen & Hres).
    { lia. }
    { lia. }
    { intros r Hr. unfold recv'. rewrite length_mem_write_at.
      - by apply Hrecv.
      - specialize (Hrecv r Hr). lia. }
    { intros r Hr. by apply Hlw. }
    exists res. split; [done|]. split; [done|].
    intros r Hr. destruct (Hres r Hr) as (x & Hx & Hout & Hrr).
    exists x. split; [done|]. split; [|done].
    rewrite Hout. do 2 f_equal.
    replace (count - (T - b))%nat with (c + b)%nat by lia.
    unfold recv', d. apply spliced_step.
    + rewrite length_plain_sum. lia.
    + rewrite length_plain_sum. by apply Hrecv.
Qed.

End LockStep.

Lemma plain_sum_lookup other N xs count j :
  (j < count)%nat ->
  plain_sum other N xs count !! j
  = Some (u32 (zsum ((fun r => nth j (xs r) 0) <$> seq 0 N))).
Proof.
  intros Hj. unfold plain_sum, native_reduce. rewrite Nat2Z.id.
  rewrite list_lookup_fmap, lookup_seq_lt by done. simpl.
  by rewrite column_by_rank, int_sum_zsum.
Qed.

Lemma mem_write_prefix (recvbuf data : list word) :
  (length data <= length recvbuf)%nat ->
  mem_write recvbuf data = data ++ drop (length data) recvbuf.
Proof.
  intros H. unfold mem_write. apply take_ge.
  rewrite length_app, length_drop. lia.
Qed.

Lemma native_lockstep other comm N (xs rs : nat -> list word)
    (ws : nat -> world) (count : nat) F :
  (0 < N)%nat ->
  (1 <= F)%nat ->
  exists res,
    run_ranks other F []
      ((fun r => shadow_allreduce (xs r) (rs r) (Z.of_nat count) MPI_INT
                   MPI_SUM comm (ws r)) <$> seq 0 N)
    = Some res
    /\ length res = N
    /\ forall r, (r < N)%nat ->
         exists x, res !! r = Some x
           /\ x.1 = Returned (MPI_SUCCESS,
                              mem_write (rs r) (plain_sum other N xs count)).
Proof.
  intros HN HF. destruct F as [|F]; [lia|].
  set (reply := {| r_code := MPI_SUCCESS;
                   r_data := plain_sum other N xs count |}).
  rewrite (run_ranks_round_by_rank other _ [] N _
             (fun r => resume reply
                (shadow_allreduce (xs r) (rs r) (Z.of_nat count) MPI_INT
                   MPI_SUM comm (ws r)))
             (fun r => PMPI_Allreduce (xs r) (Z.of_nat count) MPI_INT MPI_SUM
                         comm)
             reply []); [|done|done| |done].
  2:{ by rewrite collective_allreduce. }
  apply run_ranks_finished. intros r Hr.
  eexists. split; [reflexivity|]. done.
Qed.

(** C2, as amended: [N] ranks that hold the same shared keys and nonce for
    [comm] and run the spec's integer-sum engine enter [MPI_Allreduce]
    with [(MPI_INT, MPI_SUM)] and [count >= 1] elements each, a request
    that fits ([request_fits]): with the pool, one free slab (two when the
    request is pipelined in more than one block) that holds a block;
    without it, a block of at most [INT_MAX] bytes; with pipelining, a
    last block that starts at most [INT_MAX] bytes into the buffers.  In
    lock step with a reliable library, on the non-pipelined and on the
    pipelined path, every rank returns success, and its receive buffer is
    exactly the one the library's own all-reduce of the plain inputs
    leaves: the wrap-around sums of the inputs, then the untouched rest.
    The ranks end with the same advanced nonce. *)
Theorem masked_int_sum_matches_native other cfg prf g comm (N count : nat)
    k_s k_n (envs : nat -> process_env) (ws : nat -> world)
    (frames : nat -> stack_frame) (xs rs : nat -> list word) fuel :
  (0 < N)%nat ->
  (0 < count)%nat ->
  length k_s = N ->
  (USE_PIPELINING cfg = true -> 1 <= pipelining_block_size cfg) ->
  (forall r, (r < N)%nat ->
     rank_ready prf g comm N k_s k_n (envs r) r (ws r)
     /\ request_fits cfg (Z.of_nat count) (ws r)
     /\ (count <= length (xs r))%nat
     /\ (count <= length (rs r))%nat) ->
  (2 * count <= fuel)%nat ->
  exists masked native,
    run_ranks other fuel []
      ((fun r => MPI_Allreduce cfg (envs r) (frames r) (xs r) (rs r)
                   (Z.of_nat count) MPI_INT MPI_SUM comm (ws r)) <$> seq 0 N)
    = Some masked
    /\ run_ranks other fuel []
         ((fun r => shadow_allreduce (xs r) (rs r) (Z.of_nat count) MPI_INT
                      MPI_SUM comm (ws r)) <$> seq 0 N)
       = Some native
    /\ length masked = N
    /\ length native = N
    /\ forall r, (r < N)%nat ->
         exists m n,
           masked !! r = Some m
           /\ native !! r = Some n
           /\ m.1 = n.1
           /\ n.1 = Returned
                      (MPI_SUCCESS,
                       plain_sum other N xs count ++ drop count (rs r))
           /\ rank_ready prf g comm N k_s (g k_n) (envs r) r m.2.
Proof.
  intros HN Hcount Hks HB Hall Hfuel.
  destruct (native_lockstep other comm N xs rs ws count fuel HN)
    as (native & Hnat & Hnlen & Hnres); [lia|].
  assert (Hwrite : forall r, (r < N)%nat ->
            mem_write (rs r) (plain_sum other N xs count)
            = plain_sum other N xs count ++ drop count (rs r)).
  { intros r Hr. destruct (Hall r Hr) as (_ & _ & _ & Hrs).
    rewrite mem_write_prefix; rewrite length_plain_sum; done. }
  assert (Hmasked : exists masked,
            run_ranks other fuel []
              ((fun r => MPI_Allreduce cfg (envs r) (frames r) (xs r) (rs r)
                           (Z.of_nat count) MPI_INT MPI_SUM comm (ws r))
                 <$> seq 0 N)
            = Some masked
            /\ length masked = N
            /\ forall r, (r < N)%nat ->
                 exists m, masked !! r = Some m
                   /\ m.1 = Returned
                              (MPI_SUCCESS,
                               mem_write (rs r) (plain_sum other N xs count))
                   /\ rank_ready prf g comm N k_s (g k_n) (envs r) r m.2).
  { destruct (USE_PIPELINING cfg) eqn:Hpipe.
    - (* pipelined *)
      specialize (HB eq_refl).
      destruct (rank_choice
                  ({| encr_sendbuf := nullptr; encr_data := [];
                      encr_sendbuf_next := nullptr; encr_data_next := [];
                      prev_offset := 0; cur_offset := 0; next_offset := 0;
                      prev_count := 0; cur_count := 0; next_count := 0;
                      total_count := 0 |}, ws 0%nat) N
                  (fun r (lw : locals * world) =>
                     MPI_Allreduce cfg (envs r) (frames r) (xs r) (rs r)
                       (Z.of_nat count) MPI_INT MPI_SUM comm (ws r)
                     = pipeline_loop cfg (envs r) (S count) (xs r) MPI_INT
                         MPI_SUM comm lw.1 (rs r) lw.2
                     /\ loop_ready cfg prf g comm N k_s (g k_n) (envs r) r
                          (xs r) count count lw.1 lw.2))
        as [lw Hlw].
      { intros r Hr. destruct (Hall r Hr) as (Hrr & Hpool & _ & _).
        destruct (allreduce_pipelined_start cfg prf g comm N k_s k_n
                    (envs r) r (ws r) (frames r) (xs r) (rs r) count
                    Hpipe HB Hcount Hrr Hpool) as (l & w1 & Heq & Hlr).
        by exists (l, w1). }
      rewrite (fmap_seq_ext _
                 (fun r => pipeline_loop cfg (envs r) (S count) (xs r) MPI_INT
                             MPI_SUM comm (lw r).1 (rs r) (lw r).2) 0 N).
      2:{ intros r Hr. apply Hlw. lia. }
      destruct (pipelined_lockstep other cfg prf g comm N k_s envs xs count
                  HN Hks (fun r Hr => proj1 (proj2 (proj2 (Hall r Hr))))
                  HB (S count) count
                  (fun r => (lw r).1) rs (fun r => (lw r).2) fuel (g k_n))
        as (res & Hrun & Hlen & Hres).
      all: try lia.
      { intros r Hr. by destruct (Hall r Hr) as (_ & _ & _ & ?). }
      { intros r Hr. right. by apply Hlw. }
      exists res. split; [done|]. split; [done|].
      intros r Hr. destruct (Hres r Hr) as (x & Hx & Hout & Hrr).
      exists x. split; [done|]. split; [|done].
      rewrite Hout, Nat.sub_diag. do 2 f_equal.
      apply spliced_none. rewrite length_plain_sum.
      by destruct (Hall r Hr) as (_ & _ & _ & ?).
    - (* not pipelined *)
      destruct fuel as [|fuel']; [lia|].
      set (reply := {| r_code := MPI_SUCCESS;
                       r_data := plain_sum other N xs count |}).
      rewrite (run_ranks_round_by_rank other _ [] N _
                 (fun r => resume reply
                    (MPI_Allreduce cfg (envs r) (frames r) (xs r) (rs r)
                       (Z.of_nat count) MPI_INT MPI_SUM comm (ws r)))
                 (fun r => PMPI_Allreduce
                             (masked_block prf k_s (g k_n) N (xs r) r 0 count)
                             (Z.of_nat count) MPI_INT MPI_SUM comm)
                 reply []); [|done| | |done].
      2:{ intros r Hr. destruct (Hall r Hr) as (Hrr & Hpool & _ & _).
          destruct (allreduce_int_sum_shape cfg prf g comm N k_s k_n (envs r)
                      r (ws r) (frames r) (xs r) (rs r) count Hpipe Hrr
                      Hpool)
            as (k & -> & _). done. }
      2:{ rewrite collective_allreduce by done. unfold reply.
          do 3 f_equal. unfold plain_sum.
          rewrite (reduce_masked_block other prf k_s (g k_n) N xs count 0
                     count); try done.
          - rewrite drop_0. apply take_ge.
            by rewrite length_native_int_sum, Nat2Z.id.
          - intros r Hr. by destruct (Hall r Hr) as (_ & _ & ? & _). }
      apply run_ranks_finished. intros r Hr.
      destruct (Hall r Hr) as (Hrr & Hpool & _ & _).
      destruct (allreduce_int_sum_shape cfg prf g comm N k_s k_n (envs r)
                  r (ws r) (frames r) (xs r) (rs r) count Hpipe Hrr Hpool)
        as (k & -> & Hk).
      destruct (Hk reply) as (w' & Hw' & Hrr' & _); [done|].
      simpl. rewrite Hw'. eexists. split; [reflexivity|]. done. }
  destruct Hmasked as (masked & Hrun & Hlen & Hres).
  exists masked, native. split; [done|]. split; [done|].
  split; [done|]. split; [done|].
  intros r Hr.
  destruct (Hres r Hr) as (m & Hm & Hmout & Hrr).
  destruct (Hnres r Hr) as (n & Hn & Hnout).
  exists m, n. split; [done|]. split; [done|].
  split; [congruence|]. split; [|done].
  by rewrite Hnout, Hwrite.
Qed.

(** * Further properties *)

(** ** The nonce store *)

(** X1: [update_k_n] on a handle that has no nonce slot does not fail when
    the nonce store is not empty: [operator[]] enters the handle under
    index 0, and the nonce advanced is the one in slot 0, that of the
    communicator [c0] registered there; afterwards both handles read the
    same advanced nonce. *)
Theorem update_k_n_unregistered_advances_slot_zero comm c0 w old :
  _k_n_map (hear w) !! comm = None ->
  _k_n_map (hear w) !! c0 = Some 0%nat ->
  _k_n_storage (hear w) !! 0%nat = Some old ->
  exists w',
    update_k_n comm w = Ret tt w'
    /\ K_n (hear w') c0 = Some (prng (engine (hear w)) old)
    /\ _k_n_map (hear w') = <[comm := 0%nat]> (_k_n_map (hear w))
    /\ K_n (hear w') comm = Some (prng (engine (hear w)) old).
Proof.
  intros Hi Hc0 Hold.
  assert (comm <> c0) by congruence.
  unfold update_k_n, bind, k_n_index, k_n_read, k_n_write, get_hear, emit.
  rewrite Hi. simpl. rewrite Hold. simpl. rewrite lookup_insert_eq. simpl.
  rewrite decide_True by (by eapply lookup_lt_Some). simpl.
  eexists. split; [reflexivity|]. unfold K_n. simpl.
  rewrite lookup_insert_ne, Hc0, lookup_insert_eq by done. simpl.
  rewrite list_lookup_insert_eq by (by eapply lookup_lt_Some). done.
Qed.

(** X2: [k] successive calls of [update_k_n] on a registered communicator
    leave its nonce at the [k]-th [prng] iterate of the registered value,
    in the same slot, with the maps, the shared keys and the engine
    unchanged: the nonce depends only on the value registered and the
    number of calls. *)
Theorem update_k_n_iterated comm w i old (k : nat) :
  _k_n_map (hear w) !! comm = Some i ->
  _k_n_storage (hear w) !! i = Some old ->
  exists w',
    Nat.iter k (fun p => pbind p (fun _ => update_k_n comm)) (Ret tt w)
    = Ret tt w'
    /\ K_n (hear w') comm = Some (Nat.iter k (prng (engine (hear w))) old)
    /\ _k_n_storage (hear w')
       = <[i := Nat.iter k (prng (engine (hear w))) old]> (_k_n_storage (hear w))
    /\ _k_n_map (hear w') = _k_n_map (hear w)
    /\ _k_s_storage (hear w') = _k_s_storage (hear w)
    /\ _k_s_map (hear w') = _k_s_map (hear w)
    /\ engine (hear w') = engine (hear w).
Proof.
  intros Hm Hs.
  assert (Hlt : (i < length (_k_n_storage (hear w)))%nat)
    by (by eapply lookup_lt_Some).
  induction k as [|k IH].
  - exists w. simpl. split; [done|]. unfold K_n. rewrite Hm. simpl.
    split; [done|]. split; [|done]. by rewrite list_insert_id.
  - destruct IH as (w1 & Hrun & HK & Hst & Hmap & Hks & Hksm & He).
    simpl. rewrite Hrun. simpl.
    rewrite (update_k_n_registered comm w1 i
               (Nat.iter k (prng (engine (hear w))) old)).
    2:{ by rewrite Hmap. }
    2:{ rewrite Hst. by apply list_lookup_insert_eq. }
    eexists. split; [reflexivity|]. unfold K_n. simpl.
    rewrite Hmap, Hm, He, Hst. simpl.
    rewrite list_insert_insert_eq.
    rewrite list_lookup_insert_eq by done. done.
Qed.

(** ** Registration *)

Lemma K_s_app_insert s s' c v comm x y :
  K_s s c = Some v ->
  _k_s_map s !! comm = None ->
  _k_s_map s' = <[comm := length (_k_s_storage s)]> (_k_s_map s) ->
  _k_s_storage s' = <[length (_k_s_storage s) := y]> (_k_s_storage s ++ [x]) ->
  K_s s' c = Some v.
Proof.
  unfold K_s. intros Hc Hn -> ->.
  destruct (_k_s_map s !! c) as [i|] eqn:Hi; [|done]. simpl in Hc.
  assert (c <> comm) by congruence.
  rewrite lookup_insert_ne, Hi by done. simpl.
  assert (i < length (_k_s_storage s))%nat by (by eapply lookup_lt_Some).
  rewrite list_lookup_insert_ne by lia.
  by rewrite lookup_app_l.
Qed.

Lemma insert_new_comm_frame env comm w :
  all_leaves (fun _ w' =>
      (forall c v, K_s (hear w) c = Some v -> K_s (hear w') c = Some v)
      /\ (forall c v, K_n (hear w) c = Some v -> K_n (hear w') c = Some v)
      /\ engine (hear w') = engine (hear w)
      /\ _sbuf_mpool (hear w') = _sbuf_mpool (hear w)
      /\ heap w' = heap w)
    (insert_new_comm env comm w).
Proof.
  unfold insert_new_comm, bind, modify_hear, encr_noise_generator, get_hear.
  simpl.
  set (v0 := replicate _ _).
  set (back := (length (_k_s_storage (hear w) ++ [v0]) - 1)%nat).
  assert (Hbk : back = length (_k_s_storage (hear w))).
  { unfold back. rewrite length_app. simpl. lia. }
  assert (Hback : (_k_s_storage (hear w) ++ [v0]) !! back = Some v0)
    by apply back_lookup.
  assert (Hblt : (back < length (_k_s_storage (hear w) ++ [v0]))%nat)
    by apply back_lt.
  assert (Hs0 : forall c v x, K_s (hear w) c = Some v ->
             (i ← _k_s_map (hear w) !! c; (_k_s_storage (hear w) ++ [x]) !! i)
             = Some v).
  { unfold K_s. intros c v x Hc.
    destruct (_k_s_map (hear w) !! c) as [i|] eqn:Hi; [|done]. simpl in *.
    rewrite lookup_app_l; [done|]. by eapply lookup_lt_Some. }
  unfold k_s_read at 1. simpl. rewrite Hback. simpl.
  destruct (decide (0 <= comm_rank_of env comm < Z.of_nat (length v0))); simpl.
  2:{ repeat split; try done. intros c v. unfold K_s at 2. simpl. apply Hs0. }
  rewrite k_s_write_at by done. simpl.
  unfold k_s_map_insert at 1. simpl.
  destruct (_k_s_map (hear w) !! comm) as [j|] eqn:Hs; simpl.
  { repeat split; try done. intros c v Hc. unfold K_s in *. simpl.
    destruct (_k_s_map (hear w) !! c) as [i|] eqn:Hi; [|done]. simpl in *.
    assert (i < length (_k_s_storage (hear w)))%nat by (by eapply lookup_lt_Some).
    rewrite list_lookup_insert_ne by lia. by rewrite lookup_app_l. }
  rewrite k_s_index_registered with (i := back)
    by (simpl; apply lookup_insert_eq).
  simpl.
  unfold k_s_read at 1. simpl. rewrite list_lookup_insert_eq by done. simpl.
  intros r1.
  rewrite k_s_write_at by (simpl; by rewrite length_insert).
  simpl.
  assert (HKs : forall (s' : HearState),
            _k_s_map s' = <[comm := back]> (_k_s_map (hear w)) ->
            (exists y, _k_s_storage s'
                       = <[back := y]> (_k_s_storage (hear w) ++ [v0])) ->
            forall c v, K_s (hear w) c = Some v -> K_s s' c = Some v).
  { intros s' Hm [y Hst] c v Hc. rewrite Hbk in Hm, Hst.
    eapply K_s_app_insert; eauto. }
  destruct (decide (r_code r1 <> MPI_SUCCESS)) as [Hc|Hc]; simpl.
  { split; [|done]. apply HKs; simpl; [done|].
    rewrite list_insert_insert_eq. eauto. }
  unfold c_assert at 1.
  rewrite bool_decide_true
    by (by destruct (decide (r_code r1 = MPI_SUCCESS)); [|exfalso; apply Hc]).
  simpl.
  assert (Hn0 : forall c v x, K_n (hear w) c = Some v ->
             (i ← _k_n_map (hear w) !! c; (_k_n_storage (hear w) ++ [x]) !! i)
             = Some v).
  { unfold K_n. intros c v x Hc'.
    destruct (_k_n_map (hear w) !! c) as [i|] eqn:Hi; [|done]. simpl in *.
    rewrite lookup_app_l; [done|]. by eapply lookup_lt_Some. }
  assert (HKn : forall sd y c v, K_n (hear w) c = Some v ->
            _k_n_map (hear w) !! comm = None ->
            (i ← <[comm := (length (_k_n_storage (hear w) ++ [sd]) - 1)%nat]>
                   (_k_n_map (hear w)) !! c;
             <[(length (_k_n_storage (hear w) ++ [sd]) - 1)%nat := y]>
               (_k_n_storage (hear w) ++ [sd]) !! i) = Some v).
  { intros sd y c v Hc' Hn. unfold K_n in Hc'.
    destruct (_k_n_map (hear w) !! c) as [i|] eqn:Hi; [|done]. simpl in *.
    assert (c <> comm) by congruence.
    rewrite lookup_insert_ne, Hi by done. simpl.
    assert (i < length (_k_n_storage (hear w)))%nat
      by (by eapply lookup_lt_Some).
    rewrite list_lookup_insert_ne by (rewrite length_app; simpl; lia).
    by rewrite lookup_app_l. }
  destruct (decide (comm_rank_of env comm = root_rank)); simpl;
    unfold k_n_map_insert at 1; simpl;
    (destruct (_k_n_map (hear w) !! comm) as [j|] eqn:Hn; simpl;
     [ split; [apply HKs; simpl; [done|rewrite list_insert_insert_eq; eauto]|];
       split; [|done]; intros c v; unfold K_n at 2; simpl; apply Hn0
     | ]);
    (rewrite k_n_index_registered
       with (i := (length (_k_n_storage (hear w) ++ [_]) - 1)%nat)
       by (simpl; apply lookup_insert_eq));
    simpl; unfold k_n_read at 1; simpl; rewrite back_lookup; simpl;
    intros r2;
    rewrite k_n_write_at by (simpl; apply back_lt); simpl;
    (destruct (decide (r_code r2 <> MPI_SUCCESS)) as [Hc2|Hc2]; simpl;
     [|unfold c_assert at 1;
       rewrite bool_decide_true
         by (by destruct (decide (r_code r2 = MPI_SUCCESS));
             [|exfalso; apply Hc2]); simpl]);
    (split; [apply HKs; simpl; [done|rewrite list_insert_insert_eq; eauto]|]);
    (split; [|done]); intros c v Hc'; unfold K_n at 1; simpl; by apply HKn.
Qed.

(** X3: whatever the library answers and however [insert_new_comm] ends
    (return, failed assertion or out-of-range access), the shared keys and
    the nonce that any communicator read before the call are what it reads
    after it; the engine, the pool and the heap buffers are untouched. *)
Theorem insert_new_comm_keeps_registered env comm w o n c :
  let res := run o n (insert_new_comm env comm w) in
  (forall v, K_s (hear w) c = Some v -> K_s (hear res.2) c = Some v)
  /\ (forall v, K_n (hear w) c = Some v -> K_n (hear res.2) c = Some v)
  /\ engine (hear res.2) = engine (hear w)
  /\ _sbuf_mpool (hear res.2) = _sbuf_mpool (hear w)
  /\ heap res.2 = heap w.
Proof.
  intros res.
  pose proof (all_leaves_run _ _ (insert_new_comm_frame env comm w) o n)
    as (Hs & Hn & He & Hp & Hh).
  fold res in Hs, Hn, He, Hp, Hh. repeat split; auto.
Qed.

Lemma insert_new_comm_registered_stops env comm (w : world) :
  0 <= comm_rank_of env comm < comm_size_of env comm ->
  is_Some (_k_s_map (hear w) !! comm) ->
  exists w', insert_new_comm env comm w = Stop AssertionFailed w'.
Proof.
  intros Hr [i Hi].
  unfold insert_new_comm, bind, modify_hear, encr_noise_generator, get_hear.
  simpl.
  unfold k_s_read at 1. simpl. rewrite back_lookup. simpl.
  rewrite decide_True by (rewrite length_replicate; lia). simpl.
  rewrite k_s_write_at by (simpl; apply back_lt).
  simpl. unfold k_s_map_insert at 1. simpl. rewrite Hi. simpl. eauto.
Qed.

(** X4: when the all-gather of [insert_new_comm] fails, the call returns
    its code after one library call and is not rolled back: the
    communicator stays in [_k_s_map] with the key vector as the library
    left it, the nonce store is untouched, and registering the same
    handle again stops in [assert(ok)]. *)
Theorem insert_new_comm_failed_gather_stays_registered env comm w o n :
  0 <= comm_rank_of env comm < comm_size_of env comm ->
  _k_s_map (hear w) !! comm = None ->
  let c1 := PMPI_Allgather (gather_buf env comm w) comm in
  r_code (o n c1) <> MPI_SUCCESS ->
  let res := run o n (insert_new_comm env comm w) in
  res.1 = Returned (r_code (o n c1))
  /\ K_s (hear res.2) comm
     = Some (mem_write (gather_buf env comm w) (r_data (o n c1)))
  /\ _k_n_map (hear res.2) = _k_n_map (hear w)
  /\ _k_n_storage (hear res.2) = _k_n_storage (hear w)
  /\ log res.2 = log w ++ [EvMPL c1 (o n c1)]
  /\ forall o' n',
       (run o' n' (insert_new_comm env comm res.2)).1 = Stopped AssertionFailed.
Proof.
  intros Hr Hs c1 Hfail res.
  assert (Hshape : exists w',
            run o n (insert_new_comm env comm w) = (Returned (r_code (o n c1)), w')
            /\ K_s (hear w') comm
               = Some (mem_write (gather_buf env comm w) (r_data (o n c1)))
            /\ _k_n_map (hear w') = _k_n_map (hear w)
            /\ _k_n_storage (hear w') = _k_n_storage (hear w)
            /\ log w' = log w ++ [EvMPL c1 (o n c1)]).
  { revert Hfail. unfold c1. clear c1 res.
    unfold insert_new_comm, bind, modify_hear, encr_noise_generator, get_hear.
    simpl.
    set (v0 := replicate _ _).
    set (back := (length (_k_s_storage (hear w) ++ [v0]) - 1)%nat).
    assert (Hback : (_k_s_storage (hear w) ++ [v0]) !! back = Some v0)
      by apply back_lookup.
    assert (Hblt : (back < length (_k_s_storage (hear w) ++ [v0]))%nat)
      by apply back_lt.
    unfold k_s_read at 1. simpl. rewrite Hback. simpl.
    rewrite decide_True by (unfold v0; rewrite length_replicate; lia). simpl.
    rewrite k_s_write_at by done.
    simpl. unfold k_s_map_insert at 1. simpl. rewrite Hs. simpl.
    rewrite k_s_index_registered with (i := back)
      by (simpl; apply lookup_insert_eq).
    simpl.
    unfold k_s_read at 1. simpl. rewrite list_lookup_insert_eq by done. simpl.
    fold (gather_buf env comm w). intros Hfail.
    rewrite k_s_write_at by (simpl; by rewrite length_insert).
    simpl. rewrite decide_True by done. simpl.
    eexists. split; [reflexivity|]. simpl. split; [|done].
    unfold K_s. simpl. rewrite lookup_insert_eq. simpl.
    by rewrite list_lookup_insert_eq by (by rewrite length_insert). }
  destruct Hshape as (w' & Hrun & HK & Hm & Hst & Hlog).
  unfold res. rewrite Hrun. simpl. repeat split; try done.
  intros o' n'.
  destruct (insert_new_comm_registered_stops env comm w' Hr) as [w2 ->].
  - unfold K_s in HK. destruct (_k_s_map (hear w') !! comm); [eauto|done].
  - done.
Qed.

(** ** Quiet steps *)

Lemma quiet_step_refl w : quiet_step w w.
Proof.
  split; [apply same_store_refl|done|]. exists []. by rewrite app_nil_r.
Qed.

Ltac quiet_solver :=
  split; simpl;
  [ done
  | done
  | eexists; split;
    [ simpl; rewrite <- ?app_assoc; simpl;
      first [reflexivity | symmetry; apply app_nil_r]
    | repeat (constructor; simpl; try done) ] ].

Lemma encrypt_sendbuf_quiet cfg env sendbuf count dt op comm w :
  registered comm w ->
  all_leaves (fun out w' =>
     quiet_step w w'
     /\ forall p d, out = Returned (p, d) -> p <> nullptr -> maskable dt op)
    (encrypt_sendbuf cfg env sendbuf count dt op comm w).
Proof.
  intros [[i Hi] [j Hj]].
  unfold encrypt_sendbuf, bind, acquire_scratch, emit, free_scratch,
    k_s_index, k_s_read, k_n_index, k_n_read, get_hear, check_capacity, ret,
    maskable.
  destruct (USE_MPOOL cfg) eqn:Hpool.
  - unfold mpool.acquire_buf.
    destruct (mpool.free_slabs (_sbuf_mpool (hear w))) as [|s rest] eqn:Hfree;
      simpl.
    + split; [quiet_solver|]. by intros ? ? [= <- <-].
    + repeat (simpl; rewrite ?Hi, ?Hj; simpl; try case_step);
        (split; [quiet_solver|]);
        intros ? ? [= <- <-]; try done; eauto.
  - repeat (simpl; rewrite ?Hi, ?Hj; simpl; try case_step);
      (split; [quiet_solver|]);
      try (intros ? ? [= <- <-]); try done; eauto.
Qed.

Lemma decrypt_recvbuf_quiet recvbuf count dt op comm w :
  registered comm w ->
  all_leaves (fun out w' =>
     quiet_step w w'
     /\ forall code rb, out = Returned (code, rb) -> maskable dt op ->
          code = MPI_SUCCESS)
    (decrypt_recvbuf recvbuf count dt op comm w).
Proof.
  intros [[i Hi] [j Hj]].
  unfold decrypt_recvbuf, bind, emit, k_s_index, k_s_read, k_n_index,
    k_n_read, get_hear, ret, maskable.
  repeat (simpl; rewrite ?Hi, ?Hj; simpl; try case_step);
    (split; [quiet_solver|]);
    try (intros ? ? [= <- <-]); try done;
    intros [[? [?|?]]|[? ?]]; congruence.
Qed.

Lemma decrypt_at_quiet recvbuf offset count dt op comm w :
  registered comm w ->
  all_leaves (fun out w' =>
     quiet_step w w'
     /\ forall code rb, out = Returned (code, rb) -> maskable dt op ->
          code = MPI_SUCCESS)
    (decrypt_at recvbuf offset count dt op comm w).
Proof.
  intros Hreg. unfold decrypt_at. apply all_leaves_bind.
  eapply all_leaves_mono; [by apply decrypt_recvbuf_quiet|].
  intros [[code region]|e] w' [Hq Hc]; simpl; [|done].
  split; [done|]. intros ? ? [= <- <-]. eauto.
Qed.

Lemma release_memory_quiet cfg p w :
  all_leaves (fun out w' => quiet_step w w') (release_memory cfg p w).
Proof.
  unfold release_memory, bind, c_assert, free_scratch, ret, stop.
  destruct (USE_MPOOL cfg) eqn:Hpool; destruct p; simpl; quiet_solver.
Qed.

Lemma cleanup_quiet cfg p code recvbuf w :
  all_leaves (fun out w' =>
     quiet_step w w'
     /\ forall x, out = Returned x -> x = (code, recvbuf))
    (cleanup cfg p code recvbuf w).
Proof.
  unfold cleanup. apply all_leaves_bind.
  eapply all_leaves_mono; [apply release_memory_quiet|].
  intros [[]|e] w'; simpl; [|done]. intros Hq. split; [done|].
  by intros x [= <-].
Qed.

(** ** Posted and awaited reductions *)

Lemma tally_app f a b : tally f (a ++ b) = (tally f a + tally f b)%nat.
Proof. unfold tally. by rewrite List.filter_app, length_app. Qed.

Lemma tally_quiet f evs :
  (forall e, f e = true -> is_mpl e = true) ->
  Forall (fun e => is_mpl e = false) evs -> tally f evs = 0%nat.
Proof.
  intros Hf. unfold tally. induction 1 as [|e evs He _ IH]; [done|].
  simpl. destruct (f e) eqn:Hfe; [|done].
  apply Hf in Hfe. congruence.
Qed.

Lemma tally_iallreduce_quiet evs :
  Forall (fun e => is_mpl e = false) evs -> tally is_iallreduce evs = 0%nat.
Proof. apply tally_quiet. by intros [| | | | |[]]. Qed.

Lemma tally_wait_quiet evs :
  Forall (fun e => is_mpl e = false) evs -> tally is_wait evs = 0%nat.
Proof. apply tally_quiet. by intros [| | | | |[]]. Qed.

Lemma no_failed_reduce_quiet evs :
  Forall (fun e => is_mpl e = false) evs -> Forall no_failed_reduce evs.
Proof. intros H. eapply Forall_impl; [exact H|]. by intros []. Qed.

Lemma sends_quiet P evs :
  Forall (fun e => is_mpl e = false) evs -> Forall (sends P) evs.
Proof. intros H. eapply Forall_impl; [exact H|]. by intros []. Qed.

Lemma registered_same_store comm w w' :
  registered comm w -> same_store w w' -> registered comm w'.
Proof.
  intros [Hs Hn] (_ & Hsm & _ & Hnm & _). unfold registered.
  by rewrite Hsm, Hnm.
Qed.

Lemma all_leaves_and {A : Type} (Q1 Q2 : outcome A -> world -> Prop)
    (p : prog A) :
  all_leaves Q1 p -> all_leaves Q2 p ->
  all_leaves (fun out w => Q1 out w /\ Q2 out w) p.
Proof.
  induction p as [a w|e w|c k IH]; simpl; intros H1 H2; auto.
Qed.

Section Trace.

Context (P : list word -> Prop).

Lemma trace_at_refl w : trace_at P 0 w w.
Proof.
  split; [apply same_store_refl|]. split; [done|].
  exists []. by rewrite app_nil_r.
Qed.

Lemma trace_at_quiet k w0 w w' :
  trace_at P k w0 w -> quiet_step w w' -> trace_at P k w0 w'.
Proof.
  intros (Hs & Hn & evs & Hlog & Hp & Hf & Ht) [Hs' Hn' (evs' & Hlog' & Hq)].
  split; [by eapply same_store_trans|]. split; [congruence|].
  exists (evs ++ evs'). rewrite Hlog', Hlog, app_assoc. split; [done|].
  split; [|split].
  - apply Forall_app. split; [done|]. by apply sends_quiet.
  - apply Forall_app. split; [done|]. by apply no_failed_reduce_quiet.
  - rewrite !tally_app, (tally_iallreduce_quiet evs'), (tally_wait_quiet evs')
      by done.
    lia.
Qed.

Lemma trace_at_posted w0 w s n d o c r :
  trace_at P 0 w0 w -> P s -> r_code r = MPI_SUCCESS ->
  trace_at P 1 w0 (add_log (EvMPL (PMPI_Iallreduce s n d o c) r) w).
Proof.
  intros (Hs & Hn & evs & Hlog & Hp & Hf & Ht) Hps Hr.
  split; [done|]. split; [done|].
  exists (evs ++ [EvMPL (PMPI_Iallreduce s n d o c) r]). simpl.
  rewrite Hlog, app_assoc. split; [done|]. split; [|split].
  - apply Forall_app. split; [done|]. by repeat constructor.
  - apply Forall_app. split; [done|]. constructor; [by intros _|constructor].
  - rewrite !tally_app. unfold tally at 2 4. simpl. lia.
Qed.

Lemma trace_at_reduced w0 w s n d o c r :
  trace_at P 0 w0 w -> P s -> r_code r = MPI_SUCCESS ->
  trace_at P 0 w0 (add_log (EvMPL (PMPI_Allreduce s n d o c) r) w).
Proof.
  intros (Hs & Hn & evs & Hlog & Hp & Hf & Ht) Hps Hr.
  split; [done|]. split; [done|].
  exists (evs ++ [EvMPL (PMPI_Allreduce s n d o c) r]). simpl.
  rewrite Hlog, app_assoc. split; [done|]. split; [|split].
  - apply Forall_app. split; [done|]. by repeat constructor.
  - apply Forall_app. split; [done|]. constructor; [by intros _|constructor].
  - rewrite !tally_app. unfold tally at 2 4. simpl. lia.
Qed.

Lemma trace_at_waited w0 w r :
  trace_at P 1 w0 w -> trace_at P 0 w0 (add_log (EvMPL PMPI_Wait r) w).
Proof.
  intros (Hs & Hn & evs & Hlog & Hp & Hf & Ht).
  split; [done|]. split; [done|].
  exists (evs ++ [EvMPL PMPI_Wait r]). simpl.
  rewrite Hlog, app_assoc. split; [done|]. split; [|split].
  - apply Forall_app. split; [done|]. by repeat constructor.
  - apply Forall_app. split; [done|]. by repeat constructor.
  - rewrite !tally_app. unfold tally at 2 4. simpl. lia.
Qed.

Lemma trace_post_stopped k k' w0 w e :
  trace_at P k' w0 w -> trace_post P k w0 (Stopped e) w.
Proof.
  intros (Hs & Hn & evs & Hlog & Hp & _). split; [done|]. split; [done|].
  exists evs. split; [done|]. split; [done|]. intros ? ? [=].
Qed.

Lemma trace_post_stopped_after k k' w0 w w' c r e :
  trace_at P k' w0 w -> sends P (EvMPL c r) ->
  quiet_step (add_log (EvMPL c r) w) w' ->
  trace_post P k w0 (Stopped e) w'.
Proof.
  intros (Hs & Hn & evs & Hlog & Hp & _) Hps [Hs' Hn' (evs' & Hlog' & Hq)].
  simpl in *.
  split; [by eapply same_store_trans|]. split; [congruence|].
  exists (evs ++ [EvMPL c r] ++ evs').
  split; [by rewrite Hlog', Hlog, <- !app_assoc|]. split; [|intros ? ? [=]].
  apply Forall_app. split; [done|]. apply Forall_app. split.
  - by repeat constructor.
  - by apply sends_quiet.
Qed.

Lemma trace_post_success k w0 w rb :
  trace_at P 0 w0 w -> trace_post P k w0 (Returned (MPI_SUCCESS, rb)) w.
Proof.
  intros (Hs & Hn & evs & Hlog & Hp & Hf & Ht). split; [done|]. split; [done|].
  exists evs. split; [done|]. split; [done|]. intros ? ? [= <- <-]. left. done.
Qed.

Lemma trace_post_no_buffer k w0 w rb :
  trace_at P k w0 w -> trace_post P k w0 (Returned (MPI_ERR_BUFFER, rb)) w.
Proof.
  intros (Hs & Hn & evs & Hlog & Hp & Hf & Ht). split; [done|]. split; [done|].
  exists evs. split; [done|]. split; [done|].
  intros ? ? [= <- <-]. right. left. done.
Qed.

Lemma trace_post_failed k w0 w c r w' rb :
  trace_at P 0 w0 w ->
  sends P (EvMPL c r) ->
  is_reduce c = true -> r_code r <> MPI_SUCCESS ->
  tally is_iallreduce [EvMPL c r] = k ->
  quiet_step (add_log (EvMPL c r) w) w' ->
  trace_post P k w0 (Returned (r_code r, rb)) w'.
Proof.
  intros (Hs & Hn & evs & Hlog & Hp & Hf & Ht) Hps Hred Hfail Hk
    [Hs' Hn' (evs' & Hlog' & Hq)].
  simpl in *.
  split; [by eapply same_store_trans|]. split; [congruence|].
  exists (evs ++ [EvMPL c r] ++ evs').
  split; [by rewrite Hlog', Hlog, <- !app_assoc|]. split.
  { apply Forall_app. split; [done|]. apply Forall_app. split.
    - by repeat constructor.
    - by apply sends_quiet. }
  intros ? ? [= <- <-]. right. right. split.
  - apply Exists_app. right. apply Exists_app. left. by constructor.
  - rewrite !tally_app, Hk, (tally_iallreduce_quiet evs'),
      (tally_wait_quiet evs') by done.
    assert (tally is_wait [EvMPL c r] = 0%nat) by (by destruct c).
    lia.
Qed.

Lemma pipeline_loop_trace cfg env comm w0 sendbuf dt op fuel :
  maskable dt op ->
  registered comm w0 ->
  (forall offset count w,
     same_store w0 w ->
     all_leaves (fun out _ => forall p d, out = Returned (p, d) ->
                                p <> nullptr -> P d)
       (encrypt_sendbuf cfg env (mem_at sendbuf offset) count dt op comm w)) ->
  forall l recvbuf w,
  trace_at P 0 w0 w ->
  (total_count l <> 0 -> P (encr_data l)) ->
  all_leaves (trace_post P 1 w0)
    (pipeline_loop cfg env fuel sendbuf dt op comm l recvbuf w).
Proof.
  intros Hm Hreg0 Henc.
  induction fuel as [|fuel IH]; intros l recvbuf w Ht Hdata;
    simpl; destruct (decide (total_count l = 0)) as [Hz|Hnz].
  1,3: (apply all_leaves_bind;
        eapply all_leaves_mono;
        [apply decrypt_at_quiet;
         eapply registered_same_store; [exact Hreg0|apply Ht]|];
        intros [[code rb]|e] w' [Hq Hc]; simpl;
        [|by eapply trace_post_stopped, trace_at_quiet];
        rewrite (Hc code rb) by done;
        rewrite decide_False by (intros ?; done); simpl;
        by eapply trace_post_success, trace_at_quiet).
  - simpl. by eapply trace_post_stopped.
  - specialize (Hdata Hnz).
    unfold bind at 1. unfold mpl at 1. simpl. intros r.
    destruct (decide (r_code r <> MPI_SUCCESS)) as [Hfail|Hok].
    { eapply all_leaves_mono; [apply cleanup_quiet|].
      intros [x|e] w' [Hq Hx]; simpl.
      - rewrite (Hx x) by done.
        apply (trace_post_failed 1 w0 w
                 (PMPI_Iallreduce (encr_data l) (cur_count l) dt op comm) r);
          done.
      - apply (trace_post_stopped_after 1 0 w0 w w'
                 (PMPI_Iallreduce (encr_data l) (cur_count l) dt op comm) r);
          done. }
    assert (Hcode : r_code r = MPI_SUCCESS).
    { by destruct (decide (r_code r = MPI_SUCCESS)); [|exfalso; apply Hok]. }
    assert (Ht1 := trace_at_posted w0 w (encr_data l) (cur_count l) dt op
                     comm r Ht Hdata Hcode).
    revert Ht1.
    generalize (add_log (EvMPL (PMPI_Iallreduce (encr_data l) (cur_count l)
                                  dt op comm) r) w).
    clear Ht w. intros w Ht.
    assert (Hreg : registered comm w)
      by (eapply registered_same_store; [exact Hreg0|apply Ht]).
    apply all_leaves_bind.
    apply all_leaves_mono
      with (Q := fun out w' =>
                   quiet_step w w'
                   /\ forall code rb, out = Returned (code, rb) ->
                        code = MPI_SUCCESS).
    { destruct (decide (cur_offset l > 0)).
      - eapply all_leaves_mono; [by apply decrypt_at_quiet|].
        intros out w' [? Hc]. split; [done|]. eauto.
      - simpl. split; [apply quiet_step_refl|].
        by intros ? ? [= <- <-]. }
    intros [[code rb]|e] w1 [Hq1 Hc1]; simpl;
      [|by eapply trace_post_stopped, trace_at_quiet].
    rewrite (Hc1 code rb) by done.
    rewrite decide_False by (intros ?; done).
    assert (Ht1 : trace_at P 1 w0 w1) by (by eapply trace_at_quiet).
    assert (Hreg1 : registered comm w1)
      by (eapply registered_same_store; [exact Hreg0|apply Ht1]).
    clear Ht Hq1 Hc1 Hreg w.
    apply all_leaves_bind.
    destruct (decide (total_count l - cur_count l = 0)) as [Hlast|Hmore].
    { simpl. rewrite decide_False by (intros [? _]; done).
      unfold bind at 1. unfold mpl at 1. simpl. intros rw.
      apply all_leaves_pbind.
      eapply all_leaves_mono; [apply release_memory_quiet|].
      intros [[]|e] w2 Hq2; simpl.
      + apply IH; [|done].
        eapply trace_at_quiet; [|exact Hq2]. by apply trace_at_waited.
      + eapply trace_post_stopped, trace_at_quiet; [|exact Hq2].
        by apply trace_at_waited. }
    apply all_leaves_bind.
    unfold check_offset. destruct (decide (0 <= _)); simpl;
      [|by eapply trace_post_stopped].
    eapply all_leaves_mono;
      [apply all_leaves_and;
       [by apply encrypt_sendbuf_quiet|apply Henc; apply Ht1]|].
    intros [[next_buf next_data]|e] w2 [[Hq2 _] Hp2]; simpl;
      [|by eapply trace_post_stopped, trace_at_quiet].
    assert (Ht2 : trace_at P 1 w0 w2) by (by eapply trace_at_quiet).
    destruct (decide (total_count l - cur_count l <> 0 /\ next_buf = nullptr))
      as [Hnull|Hgot].
    + eapply all_leaves_mono; [apply cleanup_quiet|].
      intros [x|e] w3 [Hq3 Hx]; simpl.
      * rewrite (Hx x) by done.
        by eapply trace_post_no_buffer, trace_at_quiet.
      * by eapply trace_post_stopped, trace_at_quiet.
    + unfold bind at 1. unfold mpl at 1. simpl. intros rw.
      apply all_leaves_pbind.
      eapply all_leaves_mono; [apply release_memory_quiet|].
      intros [[]|e] w3 Hq3; simpl.
      * apply IH.
        -- eapply trace_at_quiet; [|exact Hq3]. by apply trace_at_waited.
        -- simpl. intros _. eapply Hp2; [done|].
           intros ->. apply Hgot. done.
      * eapply trace_post_stopped, trace_at_quiet; [|exact Hq3].
        by apply trace_at_waited.
Qed.

End Trace.

Lemma encrypt_sendbuf_masks cfg env sendbuf count dt op comm w k_s k_n :
  K_s (hear w) comm = Some k_s ->
  K_n (hear w) comm = Some k_n ->
  all_leaves (fun out _ => forall p d, out = Returned (p, d) ->
                p <> nullptr ->
                d = encrypted (engine (hear w)) env sendbuf count dt op comm
                      k_s k_n)
    (encrypt_sendbuf cfg env sendbuf count dt op comm w).
Proof.
  intros HKs HKn.
  apply K_s_Some in HKs as (i & Hi & Hks).
  apply K_n_Some in HKn as (j & Hj & Hkn).
  unfold encrypt_sendbuf, bind, acquire_scratch, emit, free_scratch,
    k_s_index, k_s_read, k_n_index, k_n_read, get_hear, check_capacity, ret,
    encrypted.
  destruct (USE_MPOOL cfg) eqn:Hpool.
  - unfold mpool.acquire_buf.
    destruct (mpool.free_slabs (_sbuf_mpool (hear w))) as [|s rest] eqn:Hfree;
      simpl.
    + by intros ? ? [= <- <-].
    + repeat (simpl; rewrite ?Hi, ?Hj, ?Hks, ?Hkn; simpl; try case_step);
        try done; intros ? ? [= <- <-]; try done; intros _; congruence.
  - repeat (simpl; rewrite ?Hi, ?Hj, ?Hks, ?Hkn; simpl; try case_step);
      try done; intros ? ? [= <- <-]; try done; intros _; congruence.
Qed.

Lemma K_s_same_store w w' comm :
  same_store w w' -> K_s (hear w') comm = K_s (hear w) comm.
Proof. intros (Hs & Hm & _). unfold K_s. by rewrite Hs, Hm. Qed.

Lemma K_n_same_store w w' comm :
  same_store w w' -> K_n (hear w') comm = K_n (hear w) comm.
Proof. intros (_ & _ & Hs & Hm & _). unfold K_n. by rewrite Hs, Hm. Qed.

Lemma K_n_advanced comm i old w :
  _k_n_map (hear w) !! comm = Some i ->
  _k_n_storage (hear w) !! i = Some old ->
  K_n (hear (advanced comm i old w)) comm = Some (prng (engine (hear w)) old).
Proof.
  intros Hi Hold. unfold K_n. simpl. rewrite Hi. simpl.
  apply list_lookup_insert_eq. by eapply lookup_lt_Some.
Qed.

Lemma MPI_Allreduce_trace cfg env frame sendbuf recvbuf count dt op comm w
    k_s i old :
  op = MPI_SUM \/ op = MPI_PROD ->
  dt = MPI_INT \/ dt = MPI_FLOAT ->
  K_s (hear w) comm = Some k_s ->
  _k_n_map (hear w) !! comm = Some i ->
  _k_n_storage (hear w) !! i = Some old ->
  all_leaves
    (trace_post
       (masked_part (engine (hear w)) env sendbuf dt op comm k_s
          (prng (engine (hear w)) old))
       (in_flight_at_error cfg) (advanced comm i old w))
    (MPI_Allreduce cfg env frame sendbuf recvbuf count dt op comm w).
Proof.
  intros Hop Hdt HKs Hi Hold. unfold MPI_Allreduce, in_flight_at_error.
  rewrite decide_False by (intros [[? ?]|[? ?]]; destruct Hop, Hdt; done).
  set (loop := pipeline_loop _ _ _ _ _ _ _).
  unfold bind at 1. rewrite (update_k_n_registered _ _ _ _ Hi Hold). simpl.
  set (w1 := advanced comm i old w).
  set (P := masked_part _ _ _ _ _ _ _ _).
  assert (HKs1 : K_s (hear w1) comm = Some k_s) by done.
  assert (HKn1 : K_n (hear w1) comm = Some (prng (engine (hear w)) old))
    by (by apply K_n_advanced).
  assert (Hreg : registered comm w1).
  { split; simpl; [|rewrite Hi; eauto].
    apply K_s_Some in HKs as (j & -> & _). eauto. }
  assert (Henc : forall offset count w',
            same_store w1 w' ->
            all_leaves (fun out _ => forall p d, out = Returned (p, d) ->
                          p <> nullptr -> P d)
              (encrypt_sendbuf cfg env (mem_at sendbuf offset) count dt op
                 comm w')).
  { intros offset cnt w' Hsame.
    eapply all_leaves_mono.
    - apply (encrypt_sendbuf_masks cfg env (mem_at sendbuf offset) cnt dt op
               comm w' k_s (prng (engine (hear w)) old)).
      + by rewrite (K_s_same_store w1).
      + by rewrite (K_n_same_store w1).
    - intros out w2 Hd p d Hout Hp. exists offset, cnt.
      rewrite (Hd p d Hout Hp).
      destruct Hsame as (_ & _ & _ & _ & -> & _). done. }
  assert (Ht1 : trace_at P 0 w1 w1) by apply trace_at_refl.
  assert (Hfirst : forall cnt,
            all_leaves (fun out w' =>
               quiet_step w1 w'
               /\ forall p d, out = Returned (p, d) -> p <> nullptr ->
                    maskable dt op /\ P d)
              (encrypt_sendbuf cfg env sendbuf cnt dt op comm w1)).
  { intros cnt.
    eapply all_leaves_mono;
      [apply all_leaves_and;
       [by apply encrypt_sendbuf_quiet
       |apply (Henc 0 cnt w1); apply same_store_refl]|].
    intros out w' [[Hq Hm] Hd]. split; [done|].
    intros p d Hout Hp. split; eauto. }
  destruct (USE_PIPELINING cfg) eqn:Hpipe; cbn [negb].
  - apply all_leaves_bind.
    eapply all_leaves_mono; [apply Hfirst|].
    intros [[p d]|e] w2 [Hq2 Hsup]; simpl;
      [|by eapply trace_post_stopped, trace_at_quiet].
    assert (Ht2 : trace_at P 0 w1 w2) by (by eapply trace_at_quiet).
    assert (Hcase : p = nullptr \/ p <> nullptr)
      by (destruct (decide (p = nullptr)); auto).
    destruct Hcase as [->|Hp];
      [rewrite decide_True by done|rewrite decide_False by done].
    + eapply all_leaves_mono;
        [apply all_leaves_and;
         [apply (cleanup_spec cfg comm)|apply cleanup_quiet]|].
      intros [x|e] w3 [[_ Hx] [Hq3 _]]; simpl.
      * by destruct Hx as (_ & ? & _).
      * by eapply trace_post_stopped, trace_at_quiet.
    + destruct (Hsup p d eq_refl Hp) as [Hm Hd].
      subst loop. apply pipeline_loop_trace; eauto.
  - apply all_leaves_bind.
    eapply all_leaves_mono; [apply Hfirst|].
    intros [[p d]|e] w2 [Hq2 Hsup]; simpl;
      [|by eapply trace_post_stopped, trace_at_quiet].
    assert (Ht2 : trace_at P 0 w1 w2) by (by eapply trace_at_quiet).
    assert (Hreg2 : registered comm w2)
      by (eapply registered_same_store; [exact Hreg|apply Ht2]).
    assert (Hcase : p = nullptr \/ p <> nullptr)
      by (destruct (decide (p = nullptr)); auto).
    destruct Hcase as [->|Hp].
    { rewrite decide_True by done. simpl. by apply trace_post_no_buffer. }
    rewrite decide_False by done.
    destruct (Hsup p d eq_refl Hp) as [Hm Hd].
    unfold shadow_allreduce, bind at 1 2. unfold mpl at 1. simpl. intros r.
    destruct (decide (r_code r <> MPI_SUCCESS)) as [Hfail|Hok].
    { eapply all_leaves_mono; [apply cleanup_quiet|].
      intros [x|e] w' [Hq Hx]; simpl.
      - rewrite (Hx x) by done.
        apply (trace_post_failed P 0 w1 w2
                 (PMPI_Allreduce d count dt op comm) r); done.
      - apply (trace_post_stopped_after P 0 0 w1 w2 w'
                 (PMPI_Allreduce d count dt op comm) r); done. }
    assert (Hcode : r_code r = MPI_SUCCESS).
    { by destruct (decide (r_code r = MPI_SUCCESS)); [|exfalso; apply Hok]. }
    apply all_leaves_bind.
    eapply all_leaves_mono; [by apply decrypt_recvbuf_quiet|].
    intros [[code rb]|e] w3 [Hq3 Hc3]; simpl.
    2:{ eapply trace_post_stopped, trace_at_quiet; [|exact Hq3].
        by apply trace_at_reduced. }
    rewrite (Hc3 code rb) by done.
    rewrite decide_False by (intros ?; done).
    apply all_leaves_bind.
    eapply all_leaves_mono; [apply release_memory_quiet|].
    intros [[]|e] w4 Hq4; simpl.
    + eapply trace_post_success, trace_at_quiet; [|exact Hq4].
      eapply trace_at_quiet; [|exact Hq3]. by apply trace_at_reduced.
    + eapply trace_post_stopped, trace_at_quiet; [|exact Hq4].
      eapply trace_at_quiet; [|exact Hq3]. by apply trace_at_reduced.
Qed.

(** ** Scratch buffers of a request *)

Lemma maskable_size dt op : maskable dt op -> type_size dt = 4.
Proof. by intros [[_ [-> | ->]]|[_ ->]]. Qed.

Lemma encrypt_sendbuf_slab cfg env sendbuf count dt op comm w k_s k_n s rest :
  USE_MPOOL cfg = true ->
  maskable dt op ->
  K_s (hear w) comm = Some k_s ->
  K_n (hear w) comm = Some k_n ->
  mpool.free_slabs (_sbuf_mpool (hear w)) = s :: rest ->
  count * 4 <= mpool.sbuf_len (_sbuf_mpool (hear w)) ->
  exists w',
    encrypt_sendbuf cfg env sendbuf count dt op comm w
    = Ret (Slab s,
           encrypted (engine (hear w)) env sendbuf count dt op comm k_s k_n) w'
    /\ same_store w w'
    /\ mpool.free_slabs (_sbuf_mpool (hear w')) = rest
    /\ heap w' = heap w
    /\ log w' = log w ++ [EvAcquire (Slab s); EvEncrypt dt op count k_n].
Proof.
  intros Hp Hm HKs HKn Hfs Hcap.
  apply K_s_Some in HKs as (i & Hi & Hks).
  apply K_n_Some in HKn as (j & Hj & Hkn).
  unfold encrypt_sendbuf, bind, acquire_scratch, emit, ret, get_hear,
    check_capacity, encrypted.
  rewrite Hp. unfold mpool.acquire_buf. rewrite Hfs. simpl.
  destruct Hm as [[-> [->| ->]]|[-> ->]]; simpl;
    rewrite k_s_index_registered with (i := i) by done; simpl;
    rewrite k_s_read_at with (v := k_s) by done; simpl;
    rewrite k_n_index_registered with (i := j) by done; simpl;
    rewrite k_n_read_at with (v := k_n) by done; simpl;
    rewrite bool_decide_false by (simpl in *; lia); simpl;
    (eexists; split; [reflexivity|]); simpl; rewrite <- ?app_assoc; done.
Qed.

Lemma encrypt_sendbuf_no_slab cfg env sendbuf count dt op comm w :
  USE_MPOOL cfg = true ->
  mpool.free_slabs (_sbuf_mpool (hear w)) = [] ->
  exists w',
    encrypt_sendbuf cfg env sendbuf count dt op comm w = Ret (nullptr, []) w'
    /\ same_store w w'
    /\ mpool.free_slabs (_sbuf_mpool (hear w')) = []
    /\ heap w' = heap w
    /\ log w' = log w ++ [EvAcquire nullptr].
Proof.
  intros Hp Hfs.
  unfold encrypt_sendbuf, bind, acquire_scratch, emit, ret.
  rewrite Hp. unfold mpool.acquire_buf. rewrite Hfs. simpl.
  eexists. split; [reflexivity|]. simpl. by rewrite Hfs.
Qed.

Lemma release_memory_slab cfg s w :
  USE_MPOOL cfg = true ->
  exists w',
    release_memory cfg (Slab s) w = Ret tt w'
    /\ same_store w w'
    /\ mpool.free_slabs (_sbuf_mpool (hear w'))
       = mpool.free_slabs (_sbuf_mpool (hear w)) ++ [s]
    /\ heap w' = heap w
    /\ log w' = log w ++ [EvRelease (Slab s)].
Proof.
  intros Hp. unfold release_memory, bind, c_assert, free_scratch.
  rewrite Hp. simpl. eexists. split; [reflexivity|]. done.
Qed.

Lemma encrypt_sendbuf_masked cfg env sendbuf count dt op comm w k_s k_n :
  maskable dt op ->
  K_s (hear w) comm = Some k_s ->
  K_n (hear w) comm = Some k_n ->
  pool_ready cfg 1 (count * type_size dt) w ->
  heap_ready cfg (count * type_size dt) ->
  exists p w1,
    encrypt_sendbuf cfg env sendbuf count dt op comm w
    = Ret (p, encrypted (engine (hear w)) env sendbuf count dt op comm k_s k_n)
        w1
    /\ held cfg p /\ holds cfg p w w1 /\ same_store w w1
    /\ log w1 = log w ++ [EvAcquire p; EvEncrypt dt op count k_n].
Proof.
  intros Hm HKs HKn Hpool Hlen.
  apply K_s_Some in HKs as (i & Hi & Hks).
  apply K_n_Some in HKn as (j & Hj & Hkn).
  unfold encrypt_sendbuf, bind, acquire_scratch, emit, ret, get_hear,
    check_capacity, held, holds, encrypted.
  pose proof (is_fresh (heap w)) as Hfresh.
  destruct (USE_MPOOL cfg) eqn:Hp.
  - destruct Hpool as [Hfree Hcap]; [done|].
    unfold free_count, mpool.free_count in *.
    unfold mpool.acquire_buf.
    destruct (mpool.free_slabs (_sbuf_mpool (hear w))) as [|s rest] eqn:Hfs;
      [simpl in Hfree; lia|].
    simpl.
    destruct Hm as [[-> [->| ->]]|[-> ->]]; simpl;
      rewrite k_s_index_registered with (i := i) by done; simpl;
      rewrite k_s_read_at with (v := k_s) by done; simpl;
      rewrite k_n_index_registered with (i := j) by done; simpl;
      rewrite k_n_read_at with (v := k_n) by done; simpl;
      rewrite bool_decide_false by (simpl in *; lia); simpl;
      (eexists _, _; split; [reflexivity|]);
      (split; [eauto|]); simpl; rewrite <- ?app_assoc; simpl;
      (split; [|done]); (split; [eauto|]); simpl; done.
  - destruct (Hlen Hp) as [Hlen0 Hlen1]. simpl.
    rewrite decide_False by lia. simpl.
    destruct Hm as [[-> [->| ->]]|[-> ->]]; simpl;
      rewrite k_s_index_registered with (i := i) by done; simpl;
      rewrite k_s_read_at with (v := k_s) by done; simpl;
      rewrite k_n_index_registered with (i := j) by done; simpl;
      rewrite k_n_read_at with (v := k_n) by done; simpl;
      rewrite bool_decide_false by (simpl in *; lia); simpl;
      (eexists _, _; split; [reflexivity|]);
      (split; [eauto|]); simpl; rewrite <- ?app_assoc; simpl;
      (split; [|done]); (split; [|done]); eauto.
Qed.

Lemma decrypt_recvbuf_masked recvbuf count dt op comm w k_s k_n :
  maskable dt op ->
  K_s (hear w) comm = Some k_s ->
  K_n (hear w) comm = Some k_n ->
  decrypt_recvbuf recvbuf count dt op comm w
  = Ret (MPI_SUCCESS, decrypted (engine (hear w)) recvbuf count dt op k_s k_n)
      (add_log (EvDecrypt dt op count) w).
Proof.
  intros Hm HKs HKn.
  apply K_s_Some in HKs as (i & Hi & Hks).
  apply K_n_Some in HKn as (j & Hj & Hkn).
  unfold decrypt_recvbuf, bind, emit, ret, get_hear, decrypted.
  destruct Hm as [[-> [->| ->]]|[-> ->]]; simpl;
    rewrite k_s_index_registered with (i := i) by done; simpl;
    rewrite k_s_read_at with (v := k_s) by done; simpl;
    rewrite k_n_index_registered with (i := j) by done; simpl;
    rewrite k_n_read_at with (v := k_n) by done; simpl; done.
Qed.

Lemma release_memory_held_log cfg p w :
  held cfg p ->
  exists w',
    release_memory cfg p w = Ret tt w'
    /\ released cfg p w w' /\ same_store w w'
    /\ log w' = log w ++ [EvRelease p].
Proof.
  unfold held, release_memory, bind, c_assert, free_scratch, released,
    free_count, mpool.free_count.
  destruct (USE_MPOOL cfg) eqn:Hp; intros [i ->]; simpl;
    (eexists; split; [reflexivity|]); simpl.
  - split; [|done]. split; [done|]. intros i' [= <-].
    rewrite length_app. simpl. lia.
  - split; [|done]. split; [done|]. by intros i' [= <-].
Qed.

Lemma not_maskable_cases dt op :
  ~ maskable dt op ->
  (op = MPI_SUM /\ dt <> MPI_INT /\ dt <> MPI_FLOAT)
  \/ (op = MPI_PROD /\ dt <> MPI_INT)
  \/ (op <> MPI_SUM /\ op <> MPI_PROD).
Proof.
  unfold maskable. intros H.
  destruct (decide (op = MPI_SUM)) as [->|?].
  - left. split; [done|]. split; intros ->; apply H; left; eauto.
  - destruct (decide (op = MPI_PROD)) as [->|?]; [|by right; right].
    right; left. split; [done|]. intros ->. apply H. by right.
Qed.

(** X5: for a pair the engine does not handle, [encrypt_sendbuf] returns
    null with the scratch accounting and the store as before the call: the
    buffer it took is given back (or none could be had).  Without the
    pool this needs a byte length [count * type_size], as the code
    computes it in [int], that is not negative; [new] throws otherwise. *)
Theorem encrypt_sendbuf_unsupported_gives_buffer_back cfg env sendbuf count dt
    op comm w :
  ~ maskable dt op ->
  (USE_MPOOL cfg = false -> 0 <= int (count * type_size dt)) ->
  exists w' p,
    encrypt_sendbuf cfg env sendbuf count dt op comm w = Ret (nullptr, []) w'
    /\ balanced w w'
    /\ same_store w w'
    /\ (log w' = log w ++ [EvAcquire p; EvRelease p]
        \/ (p = nullptr /\ log w' = log w ++ [EvAcquire nullptr])).
Proof.
  intros Hun Hlen. apply not_maskable_cases in Hun.
  unfold encrypt_sendbuf, bind, acquire_scratch, emit, free_scratch, ret.
  pose proof (is_fresh (heap w)) as Hfresh.
  destruct (USE_MPOOL cfg) eqn:Hpool.
  - unfold mpool.acquire_buf.
    destruct (mpool.free_slabs (_sbuf_mpool (hear w))) as [|s rest] eqn:Hfree;
      simpl.
    + eexists _, nullptr. split; [reflexivity|]. split; [done|].
      split; [done|]. right. done.
    + destruct Hun as [(-> & ? & ?)|[(-> & ?)|[? ?]]];
        repeat (rewrite ?decide_True, ?decide_False by done; simpl);
        rewrite ?Hpool; simpl;
        (eexists _, (Slab s); split; [reflexivity|]);
        (split; [unfold balanced, free_count, mpool.free_count; simpl;
                 rewrite Hfree, length_app; simpl; split; [lia|done]|]);
        (split; [done|]); left; simpl; by rewrite <- app_assoc.
  - simpl. rewrite decide_False by (specialize (Hlen eq_refl); lia). simpl.
    destruct Hun as [(-> & ? & ?)|[(-> & ?)|[? ?]]];
      repeat (rewrite ?decide_True, ?decide_False by done; simpl);
      rewrite ?Hpool; simpl;
      (eexists _, (Heap (fresh (heap w))); split; [reflexivity|]);
      (split; [unfold balanced, free_count; simpl; split; [done|set_solver]|]);
      (split; [done|]); left; simpl; by rewrite <- app_assoc.
Qed.

(** X6: for a maskable pair on a registered communicator with a buffer to be
    had (with the pool, a free slab that holds [count] elements; without
    it, a byte length that, computed in [int], is neither negative nor
    short of the [count] elements), [encrypt_sendbuf] returns a non-null
    buffer holding the output of the block encryptor under the
    communicator's keys and nonce, exactly one buffer is then held, and
    [release_memory] on that buffer returns and restores the free slabs
    and the heap; the store is never touched. *)
Theorem encrypt_then_release_round_trip cfg env sendbuf count dt op comm w
    k_s k_n :
  maskable dt op ->
  K_s (hear w) comm = Some k_s ->
  K_n (hear w) comm = Some k_n ->
  pool_ready cfg 1 (count * type_size dt) w ->
  heap_ready cfg (count * type_size dt) ->
  exists p w1 w2,
    encrypt_sendbuf cfg env sendbuf count dt op comm w
    = Ret (p, encrypted (engine (hear w)) env sendbuf count dt op comm k_s k_n)
        w1
    /\ p <> nullptr
    /\ holds cfg p w w1
    /\ release_memory cfg p w1 = Ret tt w2
    /\ balanced w w2
    /\ same_store w w2
    /\ log w2 = log w ++ [EvAcquire p; EvEncrypt dt op count k_n; EvRelease p].
Proof.
  intros Hm HKs HKn Hpool Hlen.
  destruct (encrypt_sendbuf_masked cfg env sendbuf count dt op comm w k_s k_n
              Hm HKs HKn Hpool Hlen)
    as (p & w1 & Henc & Hheld & Hholds & Hsame & Hlog).
  destruct (release_memory_held_log cfg p w1 Hheld)
    as (w2 & Hrel & Hreleased & Hsame2 & Hlog2).
  exists p, w1, w2. split; [done|]. split; [by apply (held_not_null cfg)|].
  split; [done|]. split; [done|].
  split; [by eapply (holds_released cfg p)|].
  split; [by eapply same_store_trans|].
  rewrite Hlog2, Hlog, <- app_assoc. done.
Qed.

(** ** The all-reduce on one process *)

(** X7: when the operation is neither sum nor product, or the datatype
    neither [MPI_INT] nor [MPI_FLOAT], [MPI_Allreduce] is the shadow call:
    one [PMPI_Allreduce] with the caller's arguments, its code returned,
    its data written over the receive buffer, and nothing of the process
    changed but the log. *)
Theorem unsupported_request_is_forwarded cfg env frame sendbuf recvbuf count
    dt op comm w o n :
  (op <> MPI_SUM /\ op <> MPI_PROD) \/ (dt <> MPI_INT /\ dt <> MPI_FLOAT) ->
  let c := PMPI_Allreduce sendbuf count dt op comm in
  run o n (MPI_Allreduce cfg env frame sendbuf recvbuf count dt op comm w)
  = (Returned (r_code (o n c), mem_write recvbuf (r_data (o n c))),
     add_log (EvMPL c (o n c)) w).
Proof. intros H c. by rewrite MPI_Allreduce_bypass. Qed.

(** X8: whatever the request and whatever the library answers, when
    [MPI_Allreduce] returns, the pool has as many free slabs and the heap
    the same live buffers as before the call, except for a pipelined call
    with [count = 0]. *)
Theorem every_return_gives_scratch_back cfg env frame sendbuf recvbuf count dt
    op comm w o n x :
  ~ (USE_PIPELINING cfg = true /\ count = 0) ->
  let res := run o n (MPI_Allreduce cfg env frame sendbuf recvbuf count dt op
                        comm w) in
  res.1 = Returned x ->
  length (mpool.free_slabs (_sbuf_mpool (hear res.2)))
  = length (mpool.free_slabs (_sbuf_mpool (hear w)))
  /\ heap res.2 = heap w.
Proof.
  intros Hc res Hret.
  exact (scratch_released_on_return cfg env frame sendbuf recvbuf count dt op
           comm w o n x Hc Hret).
Qed.

(** X9: without pipelining and with no free slab, a supported request on a
    registered communicator returns [MPI_ERR_BUFFER] with the receive
    buffer untouched and without any library call, but after the nonce has
    been advanced. *)
Theorem exhausted_pool_returns_buffer_error cfg env frame sendbuf recvbuf
    count dt op comm w i old o n :
  USE_MPOOL cfg = true ->
  USE_PIPELINING cfg = false ->
  op = MPI_SUM \/ op = MPI_PROD ->
  dt = MPI_INT \/ dt = MPI_FLOAT ->
  _k_n_map (hear w) !! comm = Some i ->
  _k_n_storage (hear w) !! i = Some old ->
  mpool.free_slabs (_sbuf_mpool (hear w)) = [] ->
  let res := run o n (MPI_Allreduce cfg env frame sendbuf recvbuf count dt op
                        comm w) in
  res.1 = Returned (MPI_ERR_BUFFER, recvbuf)
  /\ log res.2
     = log w ++ [EvAdvance comm old (prng (engine (hear w)) old);
                 EvAcquire nullptr]
  /\ K_n (hear res.2) comm = Some (prng (engine (hear w)) old)
  /\ free_count res.2 = 0%nat.
Proof.
  intros Hpool Hpipe Hop Hdt Hi Hold Hfree res.
  assert (Hrun : exists w',
            MPI_Allreduce cfg env frame sendbuf recvbuf count dt op comm w
            = Ret (MPI_ERR_BUFFER, recvbuf) w'
            /\ log w'
               = log w ++ [EvAdvance comm old (prng (engine (hear w)) old);
                           EvAcquire nullptr]
            /\ K_n (hear w') comm = Some (prng (engine (hear w)) old)
            /\ free_count w' = 0%nat).
  { unfold MPI_Allreduce.
    rewrite decide_False by (intros [[? ?]|[? ?]]; destruct Hop, Hdt; done).
    unfold bind at 1. rewrite (update_k_n_registered _ _ _ _ Hi Hold).
    simpl. rewrite Hpipe. simpl.
    unfold encrypt_sendbuf, bind, acquire_scratch, emit, ret.
    simpl. rewrite Hpool. unfold mpool.acquire_buf. rewrite Hfree. simpl.
    eexists. split; [reflexivity|]. simpl.
    split; [by rewrite <- app_assoc|]. split.
    - unfold K_n. simpl. rewrite Hi. simpl.
      apply list_lookup_insert_eq. by eapply lookup_lt_Some.
    - unfold free_count, mpool.free_count. simpl. by rewrite Hfree. }
  destruct Hrun as (w' & Hrun & ?). unfold res. rewrite Hrun. done.
Qed.

Lemma first_block_decide cfg count :
  USE_PIPELINING cfg = true ->
  (if decide (count < pipelining_block_size cfg)
   then count else pipelining_block_size cfg)
  = first_block cfg count.
Proof.
  intros Hpipe. unfold first_block. rewrite Hpipe.
  destruct (decide _); lia.
Qed.

Lemma negative_length_throws cfg env frame sendbuf recvbuf count dt op comm w
    i old :
  USE_MPOOL cfg = false ->
  op = MPI_SUM \/ op = MPI_PROD ->
  dt = MPI_INT \/ dt = MPI_FLOAT ->
  _k_n_map (hear w) !! comm = Some i ->
  _k_n_storage (hear w) !! i = Some old ->
  int (first_block cfg count * type_size dt) < 0 ->
  MPI_Allreduce cfg env frame sendbuf recvbuf count dt op comm w
  = Stop UncaughtException (advanced comm i old w).
Proof.
  intros Hpool Hop Hdt Hi Hold Hneg.
  unfold MPI_Allreduce.
  rewrite decide_False by (intros [[? ?]|[? ?]]; destruct Hop, Hdt; done).
  set (loop := pipeline_loop _ _ _ _ _ _ _).
  unfold bind at 1. rewrite (update_k_n_registered _ _ _ _ Hi Hold).
  simpl.
  destruct (USE_PIPELINING cfg) eqn:Hpipe; cbn [negb].
  - rewrite (first_block_decide cfg count Hpipe).
    unfold encrypt_sendbuf, bind, acquire_scratch; rewrite Hpool.
    by rewrite decide_True.
  - unfold first_block in Hneg. rewrite Hpipe in Hneg.
    unfold encrypt_sendbuf, bind, acquire_scratch; rewrite Hpool.
    by rewrite decide_True.
Qed.

(** X10: in a build without the pool, a supported request on a registered
    communicator whose first block has a byte length that is negative as
    the code computes it in [int] (a negative count, or a block of [2^29]
    elements) ends in the exception of [new char[sbuf_len]], pipelined or
    not, after the nonce has been advanced and before any library call. *)
Theorem negative_length_without_pool_throws cfg env frame sendbuf recvbuf
    count dt op comm w i old o n :
  USE_MPOOL cfg = false ->
  op = MPI_SUM \/ op = MPI_PROD ->
  dt = MPI_INT \/ dt = MPI_FLOAT ->
  _k_n_map (hear w) !! comm = Some i ->
  _k_n_storage (hear w) !! i = Some old ->
  int (first_block cfg count * type_size dt) < 0 ->
  let res := run o n (MPI_Allreduce cfg env frame sendbuf recvbuf count dt op
                        comm w) in
  res.1 = Stopped UncaughtException
  /\ log res.2 = log w ++ [EvAdvance comm old (prng (engine (hear w)) old)]
  /\ K_n (hear res.2) comm = Some (prng (engine (hear w)) old).
Proof.
  intros Hpool Hop Hdt Hi Hold Hneg res.
  unfold res.
  rewrite (negative_length_throws cfg env frame sendbuf recvbuf count dt op
             comm w i old Hpool Hop Hdt Hi Hold Hneg).
  simpl. split; [done|]. split; [done|].
  unfold K_n. simpl. rewrite Hi. simpl.
  apply list_lookup_insert_eq. by eapply lookup_lt_Some.
Qed.

(** X24: in a build without pipelining, an [(MPI_FLOAT, MPI_PROD)] request
    on a registered communicator returns [MPI_ERR_BUFFER] with the receive
    buffer untouched and without any call of the library or of an
    encryptor, after the nonce slot of the communicator has been replaced
    by its [prng] image: the advance is the first event of the call.
    Without the pool this needs a byte length [count * 4] that is not
    negative as the code computes it in [int]. *)
Theorem float_prod_returns_buffer_error_without_pipelining cfg env frame
    sendbuf recvbuf count comm w i old o n :
  USE_PIPELINING cfg = false ->
  (USE_MPOOL cfg = false -> 0 <= int (count * type_size MPI_FLOAT)) ->
  _k_n_map (hear w) !! comm = Some i ->
  _k_n_storage (hear w) !! i = Some old ->
  let res := run o n (MPI_Allreduce cfg env frame sendbuf recvbuf count
                        MPI_FLOAT MPI_PROD comm w) in
  let kn := prng (engine (hear w)) old in
  res.1 = Returned (MPI_ERR_BUFFER, recvbuf)
  /\ K_n (hear res.2) comm = Some kn
  /\ _k_n_storage (hear res.2) = <[i := kn]> (_k_n_storage (hear w))
  /\ exists evs,
       log res.2 = log w ++ EvAdvance comm old kn :: evs
       /\ Forall (fun e => is_mpl e = false /\ is_encrypt e = false) evs.
Proof.
  intros Hpipe Hcount Hi Hold res kn. subst res kn.
  destruct (float_prod_returns_directly cfg env frame sendbuf recvbuf count
              comm w i old Hpipe Hcount Hi Hold)
    as (w' & evs & -> & Hmap & Hst & Hlog & Hev).
  simpl. split; [done|]. split; [|split; [done|eauto]].
  unfold K_n. rewrite Hmap, Hi, Hst. simpl.
  apply list_lookup_insert_eq. by eapply lookup_lt_Some.
Qed.

(** X11: a supported request on a registered communicator changes of the
    store only the nonce slot of that communicator, which holds the
    [prng] image of its old value at every end of the call (return or
    stop) and whatever the library answers: both maps, all shared keys,
    all other nonces, the engine, the slab length and the noise position
    are as before. *)
Theorem MPI_Allreduce_changes_only_the_nonce cfg env frame sendbuf recvbuf
    count dt op comm w k_s i old o n :
  op = MPI_SUM \/ op = MPI_PROD ->
  dt = MPI_INT \/ dt = MPI_FLOAT ->
  K_s (hear w) comm = Some k_s ->
  _k_n_map (hear w) !! comm = Some i ->
  _k_n_storage (hear w) !! i = Some old ->
  let res := run o n (MPI_Allreduce cfg env frame sendbuf recvbuf count dt op
                        comm w) in
  _k_n_storage (hear res.2)
  = <[i := prng (engine (hear w)) old]> (_k_n_storage (hear w))
  /\ _k_n_map (hear res.2) = _k_n_map (hear w)
  /\ _k_s_storage (hear res.2) = _k_s_storage (hear w)
  /\ _k_s_map (hear res.2) = _k_s_map (hear w)
  /\ engine (hear res.2) = engine (hear w)
  /\ mpool.sbuf_len (_sbuf_mpool (hear res.2))
     = mpool.sbuf_len (_sbuf_mpool (hear w))
  /\ noise_pos res.2 = noise_pos w.
Proof.
  intros Hop Hdt HKs Hi Hold res.
  pose proof (all_leaves_run _ _
                (MPI_Allreduce_trace cfg env frame sendbuf recvbuf count dt op
                   comm w k_s i old Hop Hdt HKs Hi Hold) o n)
    as ((H1 & H2 & H3 & H4 & H5 & H6) & Hn & _).
  fold res in H1, H2, H3, H4, H5, H6, Hn. simpl in *. done.
Qed.

(** X12: a code returned by [MPI_Allreduce] on a registered communicator is
    [MPI_SUCCESS], [MPI_ERR_BUFFER], or the code a reduction of the
    library answered during the call; in particular the [MPI_ERR_TYPE] of
    [decrypt_recvbuf] is never returned of the interposer's own. *)
Theorem MPI_Allreduce_return_code_origin cfg env frame sendbuf recvbuf count
    dt op comm w k_s i old o n code rb :
  K_s (hear w) comm = Some k_s ->
  _k_n_map (hear w) !! comm = Some i ->
  _k_n_storage (hear w) !! i = Some old ->
  let res := run o n (MPI_Allreduce cfg env frame sendbuf recvbuf count dt op
                        comm w) in
  res.1 = Returned (code, rb) ->
  code = MPI_SUCCESS
  \/ code = MPI_ERR_BUFFER
  \/ exists evs c r,
       log res.2 = log w ++ evs
       /\ EvMPL c r ∈ evs /\ is_reduce c = true /\ r_code r = code.
Proof.
  intros HKs Hi Hold res Hret.
  destruct (decide ((op <> MPI_SUM /\ op <> MPI_PROD)
                    \/ (dt <> MPI_INT /\ dt <> MPI_FLOAT))) as [Hby|Hsup].
  - unfold res in *. rewrite MPI_Allreduce_bypass in * by done.
    simpl in *. injection Hret as <- <-.
    destruct (decide (r_code (o n (PMPI_Allreduce sendbuf count dt op comm))
                      = MPI_SUCCESS)) as [?|Hne]; [by left|].
    right. right. eexists _, _, _. split; [reflexivity|].
    split; [apply list_elem_of_here|]. done.
  - assert (Hop : op = MPI_SUM \/ op = MPI_PROD).
    { destruct (decide (op = MPI_SUM)); [by left|].
      destruct (decide (op = MPI_PROD)); [by right|].
      exfalso. apply Hsup. by left. }
    assert (Hdt : dt = MPI_INT \/ dt = MPI_FLOAT).
    { destruct (decide (dt = MPI_INT)); [by left|].
      destruct (decide (dt = MPI_FLOAT)); [by right|].
      exfalso. apply Hsup. by right. }
    pose proof (all_leaves_run _ _
                  (MPI_Allreduce_trace cfg env frame sendbuf recvbuf count dt
                     op comm w k_s i old Hop Hdt HKs Hi Hold) o n)
      as (_ & _ & evs & Hlog & _ & Hcases).
    fold res in Hlog, Hcases.
    destruct (Hcases code rb Hret) as [(-> & _)|[(-> & _)|(Hex & _)]];
      [by left|by right; left|].
    right. right. apply Exists_exists in Hex as (e & He & Hfail).
    destruct e as [| | | | |c r]; simpl in Hfail; try done.
    destruct Hfail as (Hred & Hcode & _).
    exists (EvAdvance comm old (prng (engine (hear w)) old) :: evs), c, r.
    split; [|split; [by apply list_elem_of_further|done]].
    rewrite Hlog. simpl. by rewrite <- app_assoc.
Qed.

(** X13: on the pipelined path of a supported request, a return with
    [MPI_SUCCESS] has waited for every reduction it posted, and a return
    with any other code has called [PMPI_Iallreduce] once more than
    [PMPI_Wait]; when every reduction was accepted, that code is
    [MPI_ERR_BUFFER]: the call returns with a posted reduction never
    waited for. *)
Theorem pipelined_error_leaves_reduction_posted cfg env frame sendbuf recvbuf
    count dt op comm w k_s i old o n :
  USE_PIPELINING cfg = true ->
  op = MPI_SUM \/ op = MPI_PROD ->
  dt = MPI_INT \/ dt = MPI_FLOAT ->
  K_s (hear w) comm = Some k_s ->
  _k_n_map (hear w) !! comm = Some i ->
  _k_n_storage (hear w) !! i = Some old ->
  let res := run o n (MPI_Allreduce cfg env frame sendbuf recvbuf count dt op
                        comm w) in
  exists evs,
    log res.2
    = log w ++ EvAdvance comm old (prng (engine (hear w)) old) :: evs
    /\ forall code rb, res.1 = Returned (code, rb) ->
         (code = MPI_SUCCESS ->
          tally is_iallreduce evs = tally is_wait evs)
         /\ (code <> MPI_SUCCESS ->
             tally is_iallreduce evs = S (tally is_wait evs)
             /\ (Forall no_failed_reduce evs -> code = MPI_ERR_BUFFER)).
Proof.
  intros Hpipe Hop Hdt HKs Hi Hold res.
  pose proof (all_leaves_run _ _
                (MPI_Allreduce_trace cfg env frame sendbuf recvbuf count dt
                   op comm w k_s i old Hop Hdt HKs Hi Hold) o n)
    as (_ & _ & evs & Hlog & _ & Hcases).
  fold res in Hlog, Hcases. unfold in_flight_at_error in Hcases.
  rewrite Hpipe in Hcases.
  exists evs. split.
  { rewrite Hlog. simpl. by rewrite <- app_assoc. }
  intros code rb Hret.
  destruct (Hcases code rb Hret)
    as [(-> & _ & Ht)|[(-> & _ & Ht)|(Hex & Ht)]].
  - split; [done|]. intros Hne. done.
  - split; [intros [=]|]. intros _. split; [done|]. done.
  - apply Exists_exists in Hex as (e & He & Hfail).
    destruct e as [| | | | |c r]; simpl in Hfail; try done.
    destruct Hfail as (Hred & Hcode & Hne).
    split; [done|]. intros _. split; [done|].
    intros Hall. rewrite Forall_forall in Hall.
    specialize (Hall _ He Hred). congruence.
Qed.

(** X14: on a supported request for a registered communicator, every send
    buffer handed to [PMPI_Allreduce] or [PMPI_Iallreduce] is the output
    of the block encryptor on a part of the caller's send buffer, under
    the communicator's shared keys and the advanced nonce; the caller's
    buffer itself is never passed on. *)
Theorem library_sees_only_encryptor_output cfg env frame sendbuf recvbuf
    count dt op comm w k_s i old o n evs c r last s args :
  op = MPI_SUM \/ op = MPI_PROD ->
  dt = MPI_INT \/ dt = MPI_FLOAT ->
  K_s (hear w) comm = Some k_s ->
  _k_n_map (hear w) !! comm = Some i ->
  _k_n_storage (hear w) !! i = Some old ->
  let res := run o n (MPI_Allreduce cfg env frame sendbuf recvbuf count dt op
                        comm w) in
  log res.2 = log w ++ evs ->
  EvMPL c r ∈ evs ->
  reduce_args c = Some (last, s, args) ->
  exists offset block,
    s = encrypted (engine (hear w)) env (mem_at sendbuf offset) block dt op
          comm k_s (prng (engine (hear w)) old).
Proof.
  intros Hop Hdt HKs Hi Hold res Hlog Hin Hargs.
  pose proof (all_leaves_run _ _
                (MPI_Allreduce_trace cfg env frame sendbuf recvbuf count dt
                   op comm w k_s i old Hop Hdt HKs Hi Hold) o n)
    as (_ & _ & evs' & Hlog' & Hsends & _).
  fold res in Hlog'. simpl in Hlog'.
  rewrite Hlog, <- app_assoc in Hlog'. apply app_inv_head in Hlog'.
  subst evs. simpl in Hin. apply elem_of_cons in Hin as [[=]|Hin].
  rewrite Forall_forall in Hsends. specialize (Hsends _ Hin).
  destruct c; simpl in *; try done; by simplify_eq.
Qed.

(** X15: without pipelining, a maskable request on a registered
    communicator with a buffer to be had (with the pool, a free slab that
    holds [count] elements; without it, a byte length [count * 4] that,
    computed in [int], is neither negative nor short of the [count]
    elements) makes one library call, on the encryptor's output; when
    that call succeeds, the call returns [MPI_SUCCESS] with the receive
    buffer holding the block decryptor's result on what the library
    wrote, and the scratch buffer is back. *)
Theorem allreduce_returns_decrypted_reply cfg env frame sendbuf recvbuf count
    dt op comm w k_s i old o n :
  USE_PIPELINING cfg = false ->
  maskable dt op ->
  K_s (hear w) comm = Some k_s ->
  _k_n_map (hear w) !! comm = Some i ->
  _k_n_storage (hear w) !! i = Some old ->
  pool_ready cfg 1 (count * 4) w ->
  heap_ready cfg (count * 4) ->
  let k_n := prng (engine (hear w)) old in
  let sent := encrypted (engine (hear w)) env sendbuf count dt op comm k_s
                k_n in
  let c := PMPI_Allreduce sent count dt op comm in
  r_code (o n c) = MPI_SUCCESS ->
  let res := run o n (MPI_Allreduce cfg env frame sendbuf recvbuf count dt op
                        comm w) in
  res.1 = Returned
            (MPI_SUCCESS,
             decrypted (engine (hear w))
               (mem_write recvbuf (r_data (o n c))) count dt op k_s k_n)
  /\ balanced w res.2
  /\ exists p,
       log res.2
       = log w ++ [EvAdvance comm old k_n; EvAcquire p;
                   EvEncrypt dt op count k_n; EvMPL c (o n c);
                   EvDecrypt dt op count; EvRelease p].
Proof.
  intros Hpipe Hm HKs Hi Hold Hpool Hheap k_n sent c Hok res.
  assert (Hsz := maskable_size dt op Hm).
  assert (Hrun : exists w' p,
            run o n (MPI_Allreduce cfg env frame sendbuf recvbuf count dt op
                       comm w)
            = (Returned
                 (MPI_SUCCESS,
                  decrypted (engine (hear w))
                    (mem_write recvbuf (r_data (o n c))) count dt op k_s k_n),
               w')
            /\ balanced w w'
            /\ log w'
               = log w ++ [EvAdvance comm old k_n; EvAcquire p;
                           EvEncrypt dt op count k_n; EvMPL c (o n c);
                           EvDecrypt dt op count; EvRelease p]).
  { unfold MPI_Allreduce.
    rewrite decide_False
      by (intros [[? ?]|[? ?]]; destruct Hm as [[-> [->| ->]]|[-> ->]]; done).
    unfold bind at 1. rewrite (update_k_n_registered _ _ _ _ Hi Hold).
    simpl. rewrite Hpipe. cbn [negb].
    set (w1 := advanced comm i old w).
    destruct (encrypt_sendbuf_masked cfg env sendbuf count dt op comm w1 k_s
                k_n Hm)
      as (p & w2 & Henc & Hheld & Hholds & Hs2 & Hlog2); try done.
    { by apply K_n_advanced. }
    { by rewrite Hsz. }
    { by rewrite Hsz. }
    unfold bind at 1. rewrite Henc. simpl.
    rewrite decide_False by (by apply (held_not_null cfg)).
    unfold shadow_allreduce, bind at 1 2. unfold mpl at 1. simpl.
    fold k_n. fold sent. fold c. rewrite Hok.
    destruct (decide (MPI_SUCCESS <> MPI_SUCCESS)) as [|_]; [done|].
    set (w3 := add_log _ w2).
    assert (Hs3 : same_store w1 w3) by done.
    unfold bind at 1.
    rewrite (decrypt_recvbuf_masked _ count dt op comm w3 k_s k_n Hm).
    2:{ by rewrite (K_s_same_store w1). }
    2:{ rewrite (K_n_same_store w1) by done. by apply K_n_advanced. }
    simpl.
    set (w4 := add_log _ w3).
    destruct (release_memory_held_log cfg p w4 Hheld)
      as (w5 & Hrel & Hreleased & Hs5 & Hlog5).
    unfold bind. rewrite Hrel. simpl.
    eexists _, p. split.
    { do 3 f_equal. destruct Hs2 as (_ & _ & _ & _ & He & _).
      simpl in He. by rewrite He. }
    split.
    - eapply (holds_released cfg p); [|exact Hreleased].
      eapply holds_balanced; [|by instantiate (1 := w2)].
      eapply holds_start; [|exact Hholds]. done.
    - rewrite Hlog5. unfold w4, w3. simpl. rewrite Hlog2. simpl.
      by rewrite <- !app_assoc. }
  destruct Hrun as (w' & p & Hrun & ? & ?). unfold res. rewrite Hrun.
  simpl. eauto.
Qed.

(** X16: on the pipelined path a request with [count = 0] makes no library
    call and runs the block decryptor over the receive buffer with the
    uninitialised local [prev_count] as element count. *)
Theorem pipelined_empty_request_decrypts_stack_junk cfg env frame sendbuf
    recvbuf dt op comm w k_s i old o n :
  USE_PIPELINING cfg = true ->
  0 < pipelining_block_size cfg ->
  maskable dt op ->
  K_s (hear w) comm = Some k_s ->
  _k_n_map (hear w) !! comm = Some i ->
  _k_n_storage (hear w) !! i = Some old ->
  pool_ready cfg 1 0 w ->
  let k_n := prng (engine (hear w)) old in
  let res := run o n (MPI_Allreduce cfg env frame sendbuf recvbuf 0 dt op comm
                        w) in
  res.1 = Returned
            (MPI_SUCCESS,
             decrypted (engine (hear w)) recvbuf (junk_prev_count frame) dt op
               k_s k_n)
  /\ exists p,
       log res.2
       = log w ++ [EvAdvance comm old k_n; EvAcquire p;
                   EvEncrypt dt op 0 k_n;
                   EvDecrypt dt op (junk_prev_count frame)].
Proof.
  intros Hpipe HB Hm HKs Hi Hold Hpool k_n res.
  assert (Hsz := maskable_size dt op Hm).
  assert (Hrun : exists w' p,
            MPI_Allreduce cfg env frame sendbuf recvbuf 0 dt op comm w
            = Ret (MPI_SUCCESS,
                   decrypted (engine (hear w)) recvbuf (junk_prev_count frame)
                     dt op k_s k_n) w'
            /\ log w'
               = log w ++ [EvAdvance comm old k_n; EvAcquire p;
                           EvEncrypt dt op 0 k_n;
                           EvDecrypt dt op (junk_prev_count frame)]).
  { unfold MPI_Allreduce.
    rewrite decide_False
      by (intros [[? ?]|[? ?]]; destruct Hm as [[-> [->| ->]]|[-> ->]]; done).
    unfold bind at 1. rewrite (update_k_n_registered _ _ _ _ Hi Hold).
    simpl. rewrite Hpipe. cbn [negb].
    rewrite (decide_True (P := 0 < pipelining_block_size cfg)) by done.
    set (w1 := advanced comm i old w).
    destruct (encrypt_sendbuf_masked cfg env sendbuf 0 dt op comm w1 k_s
                k_n Hm)
      as (p & w2 & Henc & Hheld & Hholds & Hs2 & Hlog2); try done.
    { by apply K_n_advanced. }
    unfold bind at 1. rewrite Henc. simpl.
    rewrite decide_False by (by apply (held_not_null cfg)).
    simpl. unfold decrypt_at, bind.
    rewrite (decrypt_recvbuf_masked _ (junk_prev_count frame) dt op comm w2
               k_s k_n Hm).
    2:{ by rewrite (K_s_same_store w1). }
    2:{ rewrite (K_n_same_store w1) by done. by apply K_n_advanced. }
    simpl. eexists _, p. split.
    { unfold ret, mem_write_at, mem_at. simpl. do 3 f_equal.
      destruct Hs2 as (_ & _ & _ & _ & He & _). simpl in He. by rewrite He. }
    simpl. rewrite Hlog2. simpl. by rewrite <- !app_assoc. }
  destruct Hrun as (w' & p & Hrun & ?). unfold res. rewrite Hrun.
  simpl. eauto.
Qed.

Lemma alloc_state_live cfg vars E g w :
  hear_ptr (alloc_state cfg vars E g w).1.2 = hear_live.
Proof. done. Qed.

Lemma alloc_state_empty cfg vars E g w :
  let w' := (alloc_state cfg vars E g w).2 in
  _k_s_storage (hear w') = [] /\ _k_s_map (hear w') = ∅
  /\ _k_n_storage (hear w') = [] /\ _k_n_map (hear w') = ∅
  /\ heap w' = heap w /\ noise_pos w' = noise_pos w /\ log w' = log w.
Proof. unfold alloc_state. simpl. by destruct (USE_MPOOL cfg). Qed.

Lemma all_leaves_any {A : Type} (p : prog A) : all_leaves (fun _ _ => True) p.
Proof. induction p; simpl; auto. Qed.

Lemma pipeline_loop_zero_block cfg env fuel sendbuf dt op comm :
  pipelining_block_size cfg = 0 ->
  forall l recvbuf w,
  0 < total_count l -> cur_count l = 0 ->
  all_leaves (fun out _ => forall rb, out <> Returned (MPI_SUCCESS, rb))
    (pipeline_loop cfg env fuel sendbuf dt op comm l recvbuf w).
Proof.
  intros HB.
  assert (Hclean : forall p code rb w,
            code <> MPI_SUCCESS ->
            all_leaves (fun out _ => forall rb', out <> Returned (MPI_SUCCESS, rb'))
              (cleanup cfg p code rb w)).
  { intros p code rb w Hne.
    eapply all_leaves_mono; [apply cleanup_quiet|].
    intros [x|e] w' [_ Hx] rb'; [|done].
    rewrite (Hx x) by done. congruence. }
  induction fuel as [|fuel IH]; intros l recvbuf w Htot Hcur; simpl;
    rewrite decide_False by lia; [done|].
  unfold bind at 1. unfold mpl at 1. simpl. intros r.
  destruct (decide (r_code r <> MPI_SUCCESS)); [by apply Hclean|].
  apply all_leaves_bind.
  eapply all_leaves_mono; [apply all_leaves_any|].
  intros [[code rb]|e] w1 _; simpl; [|done].
  destruct (decide (code <> MPI_SUCCESS)); [by apply Hclean|].
  rewrite Hcur, Z.sub_0_r.
  rewrite (decide_False (P := total_count l = 0)) by lia.
  apply all_leaves_bind. apply all_leaves_bind.
  eapply all_leaves_mono; [apply all_leaves_any|].
  intros [[]|e] w2 _; simpl; [|done].
  eapply all_leaves_mono; [apply all_leaves_any|].
  intros [[next_buf next_data]|e] w3 _; simpl; [|done].
  destruct (decide (total_count l <> 0 /\ next_buf = nullptr));
    [by apply Hclean|].
  unfold bind at 1. unfold mpl at 1. simpl. intros rw.
  apply all_leaves_pbind.
  eapply all_leaves_mono; [apply all_leaves_any|].
  intros [[]|e] w4 _; simpl; [|done].
  apply IH; simpl; [done|].
  rewrite HB. rewrite !decide_False by lia. done.
Qed.

(** X17: with [HEAR_PIPELINING_BLOCK_SIZE] read as 0, a supported request
    with [count > 0] never returns [MPI_SUCCESS]: the loop, entered with
    an empty block, does not reach [total_count = 0] in any number of
    iterations. *)
Theorem zero_block_size_never_completes cfg vars E g w0 env frame sendbuf
    recvbuf count dt op comm w :
  USE_PIPELINING cfg = true ->
  HEAR_PIPELINING_BLOCK_SIZE vars = Some 0 ->
  0 < count ->
  op = MPI_SUM \/ op = MPI_PROD ->
  dt = MPI_INT \/ dt = MPI_FLOAT ->
  let cfg' := (alloc_state cfg vars E g w0).1.1 in
  (forall o n rb,
     (run o n (MPI_Allreduce cfg' env frame sendbuf recvbuf count dt op comm
                 w)).1
     <> Returned (MPI_SUCCESS, rb))
  /\ (forall fuel l recvbuf' w' o n rb,
        0 < total_count l -> cur_count l = 0 ->
        (run o n (pipeline_loop cfg' env fuel sendbuf dt op comm l recvbuf'
                    w')).1
        <> Returned (MPI_SUCCESS, rb)).
Proof.
  intros Hpipe Hvar Hcount Hop Hdt cfg'.
  assert (Hpipe' : USE_PIPELINING cfg' = true).
  { unfold cfg', alloc_state. simpl. by rewrite Hpipe, Hvar. }
  assert (HB : pipelining_block_size cfg' = 0).
  { unfold cfg', alloc_state. simpl. by rewrite Hpipe, Hvar. }
  clearbody cfg'. split.
  - intros o n.
    apply (all_leaves_run
             (fun out _ => forall rb, out <> Returned (MPI_SUCCESS, rb))).
    unfold MPI_Allreduce.
    rewrite decide_False by (intros [[? ?]|[? ?]]; destruct Hop, Hdt; done).
    set (loop := pipeline_loop _ _ _ _ _ _ _).
    apply all_leaves_bind.
    eapply all_leaves_mono; [apply all_leaves_any|].
    intros [[]|e] w1 _; simpl; [|done].
    rewrite Hpipe'. cbn [negb].
    apply all_leaves_bind.
    eapply all_leaves_mono; [apply all_leaves_any|].
    intros [[p d]|e] w2 _; simpl; [|done].
    destruct (decide (p = nullptr)) as [Hnull|Hp].
    + eapply all_leaves_mono; [apply cleanup_quiet|].
      intros [x|e] w' [_ Hx] rb'; [|done].
      rewrite (Hx x) by done. done.
    + subst loop. apply pipeline_loop_zero_block; simpl; [done|lia|].
      rewrite HB. by rewrite decide_False by lia.
  - intros fuel l recvbuf' w' o n rb Htot Hcur.
    by apply (all_leaves_run
                (fun out _ => forall rb, out <> Returned (MPI_SUCCESS, rb))),
             pipeline_loop_zero_block.
Qed.

(** X18: with the pool down to one free slab, a pipelined maskable request of
    more than one block (whose second block starts at an offset that is
    not negative as the code computes it in [int]) returns
    [MPI_ERR_BUFFER] with the reduction of the first block posted and
    never awaited: the buffer for the second block cannot be had, the
    slab of the first goes back to the pool, no wait follows, and the
    receive buffer comes back with whatever the library had written of
    the first block by then. *)
Theorem one_slab_cannot_pipeline cfg env frame sendbuf recvbuf count dt op
    comm w k_s i old s o n :
  USE_MPOOL cfg = true ->
  USE_PIPELINING cfg = true ->
  maskable dt op ->
  K_s (hear w) comm = Some k_s ->
  _k_n_map (hear w) !! comm = Some i ->
  _k_n_storage (hear w) !! i = Some old ->
  mpool.free_slabs (_sbuf_mpool (hear w)) = [s] ->
  1 <= pipelining_block_size cfg < count ->
  pipelining_block_size cfg * 4 <= mpool.sbuf_len (_sbuf_mpool (hear w)) ->
  0 <= int (pipelining_block_size cfg * 4) ->
  let B := pipelining_block_size cfg in
  let k_n := prng (engine (hear w)) old in
  let first := PMPI_Iallreduce
                 (encrypted (engine (hear w)) env sendbuf B dt op comm k_s k_n)
                 B dt op comm in
  r_code (o n first) = MPI_SUCCESS ->
  let res := run o n (MPI_Allreduce cfg env frame sendbuf recvbuf count dt op
                        comm w) in
  res.1 = Returned
            (MPI_ERR_BUFFER,
             mem_write_at recvbuf 0
               (mem_write (mem_at recvbuf 0) (r_data (o n first))))
  /\ mpool.free_slabs (_sbuf_mpool (hear res.2)) = [s]
  /\ log res.2
     = log w ++ [EvAdvance comm old k_n; EvAcquire (Slab s);
                 EvEncrypt dt op B k_n; EvMPL first (o n first);
                 EvAcquire nullptr; EvRelease (Slab s)].
Proof.
  intros Hp Hpipe Hm HKs Hi Hold Hfs HB Hcap Hoff B k_n first Hok res.
  assert (Hsz := maskable_size dt op Hm).
  subst B.
  assert (Hrun : exists w',
            run o n (MPI_Allreduce cfg env frame sendbuf recvbuf count dt op
                       comm w)
            = (Returned
                 (MPI_ERR_BUFFER,
                  mem_write_at recvbuf 0
                    (mem_write (mem_at recvbuf 0) (r_data (o n first)))), w')
            /\ mpool.free_slabs (_sbuf_mpool (hear w')) = [s]
            /\ log w'
               = log w ++ [EvAdvance comm old k_n; EvAcquire (Slab s);
                           EvEncrypt dt op (pipelining_block_size cfg) k_n;
                           EvMPL first (o n first);
                           EvAcquire nullptr; EvRelease (Slab s)]).
  { unfold MPI_Allreduce.
    rewrite decide_False
      by (intros [[? ?]|[? ?]]; destruct Hm as [[-> [->| ->]]|[-> ->]]; done).
    unfold bind at 1. rewrite (update_k_n_registered _ _ _ _ Hi Hold).
    simpl. rewrite Hpipe. cbn [negb].
    rewrite (decide_False (P := count < pipelining_block_size cfg)) by lia.
    set (w1 := advanced comm i old w).
    destruct (encrypt_sendbuf_slab cfg env sendbuf (pipelining_block_size cfg)
                dt op comm w1 k_s k_n s []
                Hp Hm)
      as (w2 & Henc & Hs2 & Hfs2 & Hh2 & Hlog2); try done.
    { by apply K_n_advanced. }
    unfold bind at 1. rewrite Henc. simpl.
    rewrite decide_False by (intros ?; lia).
    unfold bind at 1. unfold mpl at 1. simpl.
    fold k_n. fold first. rewrite Hok.
    rewrite decide_False by (intros ?; done).
    unfold bind at 1. simpl.
    rewrite !(decide_False (P := count - pipelining_block_size cfg = 0)) by lia.
    unfold bind at 1. unfold bind at 1. unfold check_offset.
    rewrite Hsz.
    assert (Hint : int (0 + int (pipelining_block_size cfg * 4))
                   = int (pipelining_block_size cfg * 4)).
    { pose proof (int_range (pipelining_block_size cfg * 4)).
      by rewrite Z.add_0_l, int_small. }
    rewrite Hint.
    rewrite (decide_True (P := 0 <= int (pipelining_block_size cfg * 4)))
      by done.
    simpl.
    set (w3 := add_log _ w2).
    edestruct (encrypt_sendbuf_no_slab cfg env) with (w := w3)
      as (w4 & Henc4 & Hs4 & Hfs4 & Hh4 & Hlog4); [done|by unfold w3|].
    rewrite Henc4. simpl.
    rewrite decide_True by (split; [lia|done]).
    unfold cleanup, bind.
    destruct (release_memory_slab cfg s w4 Hp)
      as (w5 & Hrel & Hs5 & Hfs5 & Hh5 & Hlog5).
    rewrite Hrel. simpl.
    eexists. split; [reflexivity|]. split.
    - by rewrite Hfs5, Hfs4.
    - rewrite Hlog5, Hlog4. unfold w3. simpl. rewrite Hlog2. simpl.
      by rewrite <- !app_assoc. }
  destruct Hrun as (w' & Hrun & ? & ?). unfold res. rewrite Hrun. done.
Qed.

(** ** The all-reduce on all ranks *)

(** What holds at every end of a rank's program holds for its result in a
    lock-step run. *)
Lemma run_ranks_all_leaves {A : Type} other fuel :
  forall in_flight (ps : list (prog A)) res r p
         (Q : outcome A -> world -> Prop),
  run_ranks other fuel in_flight ps = Some res ->
  ps !! r = Some p ->
  all_leaves Q p ->
  exists x, res !! r = Some x /\ Q x.1 x.2.
Proof.
  induction fuel as [|fuel IH]; intros fl ps res r p Q Hrun Hp HQ; simpl in Hrun.
  - destruct (mapM finished ps) as [results|] eqn:Hfin; [|done].
    injection Hrun as <-. apply mapM_Some in Hfin.
    destruct (Forall2_lookup_l _ _ _ _ _ Hfin Hp) as (x & Hx & Hf).
    exists x. split; [done|]. destruct p; simpl in *; by simplify_eq.
  - destruct (mapM finished ps) as [results|] eqn:Hfin.
    { injection Hrun as <-. apply mapM_Some in Hfin.
      destruct (Forall2_lookup_l _ _ _ _ _ Hfin Hp) as (x & Hx & Hf).
      exists x. split; [done|]. destruct p; simpl in *; by simplify_eq. }
    destruct (mapM entered ps) as [cs|] eqn:Hent; [|done].
    destruct (collective other cs fl) as [[reply fl']|]; [|done].
    apply (IH fl' (resume reply <$> ps) res r (resume reply p) Q Hrun).
    + by rewrite list_lookup_fmap, Hp.
    + apply mapM_Some in Hent.
      destruct (Forall2_lookup_l _ _ _ _ _ Hent Hp) as (c & _ & Hc).
      destruct p; simpl in *; done.
Qed.

Lemma request_fits_pool_ready cfg count w w' :
  request_fits cfg count w ->
  (forall slabs bytes,
     pool_ready cfg slabs bytes w -> pool_ready cfg slabs bytes w') ->
  request_fits cfg count w'.
Proof.
  intros [Hslabs Hlen Hnew Hoff] Hkeep. split; try done.
  - intros Hp.
    by destruct (Hkeep (slabs_needed cfg count) (4 * first_block cfg count))
      as [? _]; [intros _; split; auto|done|].
  - intros Hp.
    by destruct (Hkeep (slabs_needed cfg count) (4 * first_block cfg count))
      as [_ ?]; [intros _; split; auto|done|].
Qed.

Lemma masked_lockstep other cfg prf g comm (N count : nat)
    k_s k_n (envs : nat -> process_env) (ws : nat -> world)
    (frames : nat -> stack_frame) (xs rs : nat -> list word) fuel :
  (0 < N)%nat ->
  (0 < count)%nat ->
  length k_s = N ->
  (USE_PIPELINING cfg = true -> 1 <= pipelining_block_size cfg) ->
  (forall r, (r < N)%nat ->
     rank_ready prf g comm N k_s k_n (envs r) r (ws r)
     /\ request_fits cfg (Z.of_nat count) (ws r)
     /\ (count <= length (xs r))%nat
     /\ (count <= length (rs r))%nat) ->
  (2 * count <= fuel)%nat ->
  exists masked,
    run_ranks other fuel []
      ((fun r => MPI_Allreduce cfg (envs r) (frames r) (xs r) (rs r)
                   (Z.of_nat count) MPI_INT MPI_SUM comm (ws r))
         <$> seq 0 N)
    = Some masked
    /\ length masked = N
    /\ forall r, (r < N)%nat ->
         exists m, masked !! r = Some m
           /\ m.1 = Returned
                      (MPI_SUCCESS,
                       plain_sum other N xs count ++ drop count (rs r))
           /\ rank_ready prf g comm N k_s (g k_n) (envs r) r m.2
           /\ forall slabs bytes,
                pool_ready cfg slabs bytes (ws r) ->
                pool_ready cfg slabs bytes m.2.
Proof.
  intros HN Hcount Hks HB Hall Hfuel.
  assert (Hwrite : forall r, (r < N)%nat ->
            mem_write (rs r) (plain_sum other N xs count)
            = plain_sum other N xs count ++ drop count (rs r)).
  { intros r Hr. destruct (Hall r Hr) as (_ & _ & _ & Hrs).
    rewrite mem_write_prefix; rewrite length_plain_sum; done. }
  assert (Hmasked : exists masked,
            run_ranks other fuel []
              ((fun r => MPI_Allreduce cfg (envs r) (frames r) (xs r) (rs r)
                           (Z.of_nat count) MPI_INT MPI_SUM comm (ws r))
                 <$> seq 0 N)
            = Some masked
            /\ length masked = N
            /\ forall r, (r < N)%nat ->
                 exists m, masked !! r = Some m
                   /\ m.1 = Returned
                              (MPI_SUCCESS,
                               mem_write (rs r) (plain_sum other N xs count))
                   /\ rank_ready prf g comm N k_s (g k_n) (envs r) r m.2).
  { destruct (USE_PIPELINING cfg) eqn:Hpipe.
    - specialize (HB eq_refl).
      destruct (rank_choice
                  ({| encr_sendbuf := nullptr; encr_data := [];
                      encr_sendbuf_next := nullptr; encr_data_next := [];
                      prev_offset := 0; cur_offset := 0; next_offset := 0;
                      prev_count := 0; cur_count := 0; next_count := 0;
                      total_count := 0 |}, ws 0%nat) N
                  (fun r (lw : locals * world) =>
                     MPI_Allreduce cfg (envs r) (frames r) (xs r) (rs r)
                       (Z.of_nat count) MPI_INT MPI_SUM comm (ws r)
                     = pipeline_loop cfg (envs r) (S count) (xs r) MPI_INT
                         MPI_SUM comm lw.1 (rs r) lw.2
                     /\ loop_ready cfg prf g comm N k_s (g k_n) (envs r) r
                          (xs r) count count lw.1 lw.2))
        as [lw Hlw].
      { intros r Hr. destruct (Hall r Hr) as (Hrr & Hpool & _ & _).
        destruct (allreduce_pipelined_start cfg prf g comm N k_s k_n
                    (envs r) r (ws r) (frames r) (xs r) (rs r) count
                    Hpipe HB Hcount Hrr Hpool) as (l & w1 & Heq & Hlr).
        by exists (l, w1). }
      rewrite (fmap_seq_ext _
                 (fun r => pipeline_loop cfg (envs r) (S count) (xs r) MPI_INT
                             MPI_SUM comm (lw r).1 (rs r) (lw r).2) 0 N).
      2:{ intros r Hr. apply Hlw. lia. }
      destruct (pipelined_lockstep other cfg prf g comm N k_s envs xs count
                  HN Hks (fun r Hr => proj1 (proj2 (proj2 (Hall r Hr))))
                  HB (S count) count
                  (fun r => (lw r).1) rs (fun r => (lw r).2) fuel (g k_n))
        as (res & Hrun & Hlen & Hres).
      all: try lia.
      { intros r Hr. by destruct (Hall r Hr) as (_ & _ & _ & ?). }
      { intros r Hr. right. by apply Hlw. }
      exists res. split; [done|]. split; [done|].
      intros r Hr. destruct (Hres r Hr) as (x & Hx & Hout & Hrr).
      exists x. split; [done|]. split; [|done].
      rewrite Hout, Nat.sub_diag. do 2 f_equal.
      apply spliced_none. rewrite length_plain_sum.
      by destruct (Hall r Hr) as (_ & _ & _ & ?).
    - destruct fuel as [|fuel']; [lia|].
      set (reply := {| r_code := MPI_SUCCESS;
                       r_data := plain_sum other N xs count |}).
      rewrite (run_ranks_round_by_rank other _ [] N _
                 (fun r => resume reply
                    (MPI_Allreduce cfg (envs r) (frames r) (xs r) (rs r)
                       (Z.of_nat count) MPI_INT MPI_SUM comm (ws r)))
                 (fun r => PMPI_Allreduce
                             (masked_block prf k_s (g k_n) N (xs r) r 0 count)
                             (Z.of_nat count) MPI_INT MPI_SUM comm)
                 reply []); [|done| | |done].
      2:{ intros r Hr. destruct (Hall r Hr) as (Hrr & Hpool & _ & _).
          destruct (allreduce_int_sum_shape cfg prf g comm N k_s k_n (envs r)
                      r (ws r) (frames r) (xs r) (rs r) count Hpipe Hrr
                      Hpool)
            as (k & -> & _). done. }
      2:{ rewrite collective_allreduce by done. unfold reply.
          do 3 f_equal. unfold plain_sum.
          rewrite (reduce_masked_block other prf k_s (g k_n) N xs count 0
                     count); try done.
          - rewrite drop_0. apply take_ge.
            by rewrite length_native_int_sum, Nat2Z.id.
          - intros r Hr. by destruct (Hall r Hr) as (_ & _ & ? & _). }
      apply run_ranks_finished. intros r Hr.
      destruct (Hall r Hr) as (Hrr & Hpool & _ & _).
      destruct (allreduce_int_sum_shape cfg prf g comm N k_s k_n (envs r)
                  r (ws r) (frames r) (xs r) (rs r) count Hpipe Hrr Hpool)
        as (k & -> & Hk).
      destruct (Hk reply) as (w' & Hw' & Hrr' & _); [done|].
      simpl. rewrite Hw'. eexists. split; [reflexivity|]. done. }
  destruct Hmasked as (masked & Hrun & Hlen & Hres).
  exists masked. split; [done|]. split; [done|].
  intros r Hr.
  destruct (Hres r Hr) as (m & Hm & Hmout & Hrr).
  exists m. split; [done|]. split; [by rewrite Hmout, Hwrite|].
  split; [done|].
  destruct (Hall r Hr) as (Hrr0 & Hpool & _ & _).
  destruct Hrr0 as [_ _ HKs0 HKn0 _ _ _].
  apply K_n_Some in HKn0 as (i & Hi & Hold).
  assert (Hlf : (seq 0 N !! r = Some r)) by (by apply lookup_seq_lt).
  destruct (run_ranks_all_leaves other fuel [] _ masked r
              (MPI_Allreduce cfg (envs r) (frames r) (xs r) (rs r)
                 (Z.of_nat count) MPI_INT MPI_SUM comm (ws r))
              (fun out w' =>
                 allreduce_post cfg comm (Z.of_nat count) (ws r) out w'
                 /\ trace_post
                      (masked_part (engine (hear (ws r))) (envs r) (xs r)
                         MPI_INT MPI_SUM comm k_s
                         (prng (engine (hear (ws r))) k_n))
                      (in_flight_at_error cfg) (advanced comm i k_n (ws r))
                      out w')
              Hrun)
    as (m' & Hm' & [Hpost Htrace]).
  { by rewrite list_lookup_fmap, Hlf. }
  { apply all_leaves_and.
    - apply MPI_Allreduce_masked_spec; auto.
    - apply MPI_Allreduce_trace; auto. }
  rewrite Hm in Hm'. injection Hm' as <-.
  destruct Hpost as [_ Hbal]. destruct (Hbal _ Hmout) as [Hb|(_ & Hz & _)];
    [|lia].
  destruct Htrace as (Hsame & _).
  intros slabs bytes Hready Hp. destruct (Hready Hp) as [Hfree Hcap].
  destruct Hb as [Hfc _]. rewrite Hfc.
  destruct Hsame as (_ & _ & _ & _ & _ & Hlen'). simpl in Hlen'.
  rewrite Hlen'. done.
Qed.

(** X19: two integer-sum all-reduces in a row, run in lock step by ranks
    that start with the same keys and nonce, each request one that fits
    ([request_fits]) the state the ranks start in: the second call, on
    the process states the first call left, again returns on every rank
    the library's sum of the plain inputs, and the ranks end with the
    nonce advanced twice.  (The integer-sum engine is the one of the
    specification.) *)
Theorem successive_allreduces_match_native other cfg prf g comm
    (N c1 c2 : nat) k_s k_n (envs : nat -> process_env) (ws : nat -> world)
    (f1 f2 : nat -> stack_frame) (xs rs ys ss : nat -> list word) fuel :
  (0 < N)%nat ->
  (0 < c1)%nat ->
  (0 < c2)%nat ->
  length k_s = N ->
  (USE_PIPELINING cfg = true -> 1 <= pipelining_block_size cfg) ->
  (forall r, (r < N)%nat ->
     rank_ready prf g comm N k_s k_n (envs r) r (ws r)
     /\ request_fits cfg (Z.of_nat c1) (ws r)
     /\ request_fits cfg (Z.of_nat c2) (ws r)
     /\ (c1 <= length (xs r))%nat /\ (c1 <= length (rs r))%nat
     /\ (c2 <= length (ys r))%nat /\ (c2 <= length (ss r))%nat) ->
  (2 * (c1 `max` c2) <= fuel)%nat ->
  exists first second,
    run_ranks other fuel []
      ((fun r => MPI_Allreduce cfg (envs r) (f1 r) (xs r) (rs r)
                   (Z.of_nat c1) MPI_INT MPI_SUM comm (ws r)) <$> seq 0 N)
    = Some first
    /\ run_ranks other fuel []
         ((fun r => MPI_Allreduce cfg (envs r) (f2 r) (ys r) (ss r)
                      (Z.of_nat c2) MPI_INT MPI_SUM comm
                      (from_option snd (ws r) (first !! r))) <$> seq 0 N)
       = Some second
    /\ forall r, (r < N)%nat ->
         exists a b,
           first !! r = Some a
           /\ second !! r = Some b
           /\ a.1 = Returned
                      (MPI_SUCCESS,
                       plain_sum other N xs c1 ++ drop c1 (rs r))
           /\ b.1 = Returned
                      (MPI_SUCCESS,
                       plain_sum other N ys c2 ++ drop c2 (ss r))
           /\ K_n (hear b.2) comm = Some (g (g k_n)).
Proof.
  intros HN Hc1 Hc2 Hks HB Hall Hfuel.
  destruct (masked_lockstep other cfg prf g comm N c1 k_s k_n envs ws f1 xs rs
              fuel HN Hc1 Hks HB)
    as (first & Hrun1 & Hlen1 & Hres1); [|lia|].
  { intros r Hr. by destruct (Hall r Hr) as (? & ? & _ & ? & ? & _). }
  set (after := fun r => from_option snd (ws r) (first !! r)).
  destruct (masked_lockstep other cfg prf g comm N c2 k_s (g k_n) envs after f2
              ys ss fuel HN Hc2 Hks HB)
    as (second & Hrun2 & Hlen2 & Hres2); [|lia|].
  { intros r Hr. destruct (Hall r Hr) as (_ & _ & Hfits & _ & _ & ? & ?).
    destruct (Hres1 r Hr) as (a & Ha & _ & Hrr & Hkeep).
    unfold after. rewrite Ha. simpl. split; [done|].
    split; [|done]. by eapply request_fits_pool_ready. }
  exists first, second. split; [done|]. split; [done|].
  intros r Hr.
  destruct (Hres1 r Hr) as (a & Ha & Hout1 & _).
  destruct (Hres2 r Hr) as (b & Hb & Hout2 & Hrr2 & _).
  exists a, b. repeat split; try done. apply Hrr2.
Qed.

Lemma registration_then {B : Type} other (N : nat) comm
    (envs : nat -> process_env) (ws : nat -> world) (F : nat -> Z -> M B)
    fuel :
  (0 < N)%nat ->
  (forall r, (r < N)%nat ->
     comm_size_of (envs r) comm = Z.of_nat N
     /\ comm_rank_of (envs r) comm = Z.of_nat r
     /\ _k_s_map (hear (ws r)) !! comm = None
     /\ _k_n_map (hear (ws r)) !! comm = None) ->
  let fresh_word q := u32 (noise (envs q) (noise_pos (ws q))) in
  let root_word := u32 (noise (envs 0%nat) (S (noise_pos (ws 0%nat)))) in
  exists w' : nat -> world,
    (forall r, (r < N)%nat ->
       K_s (hear (w' r)) comm = Some (fresh_word <$> seq 0 N)
       /\ K_n (hear (w' r)) comm = Some root_word
       /\ engine (hear (w' r)) = engine (hear (ws r))
       /\ _sbuf_mpool (hear (w' r)) = _sbuf_mpool (hear (ws r))
       /\ heap (w' r) = heap (ws r)
       /\ (forall c v, K_s (hear (ws r)) c = Some v ->
                       K_s (hear (w' r)) c = Some v)
       /\ (forall c v, K_n (hear (ws r)) c = Some v ->
                       K_n (hear (w' r)) c = Some v))
    /\ run_ranks other (S (S fuel)) []
         ((fun r => pbind (insert_new_comm (envs r) comm (ws r)) (F r))
            <$> seq 0 N)
       = run_ranks other fuel []
           ((fun r => F r MPI_SUCCESS (w' r)) <$> seq 0 N).
Proof.
  intros HN Hranks fresh_word root_word.
  assert (Hshape : forall r, (r < N)%nat ->
            0 <= comm_rank_of (envs r) comm < comm_size_of (envs r) comm).
  { intros r Hr. destruct (Hranks r Hr) as (-> & -> & _). lia. }
  set (reply1 := {| r_code := MPI_SUCCESS;
                    r_data := fresh_word <$> seq 0 N |}).
  set (reply2 := {| r_code := MPI_SUCCESS; r_data := [root_word] |}).
  destruct (rank_choice (ws 0%nat) N
              (fun r w1 =>
                 exists k1 k2,
                   insert_new_comm (envs r) comm (ws r)
                   = Call (PMPI_Allgather (gather_buf (envs r) comm (ws r))
                             comm) k1
                   /\ k1 reply1
                      = Call (PMPI_Bcast (nonce_seed (envs r) comm (ws r))
                                root_rank comm) k2
                   /\ k2 reply2 = Ret MPI_SUCCESS w1
                   /\ K_s (hear w1) comm = Some (fresh_word <$> seq 0 N)
                   /\ K_n (hear w1) comm = Some root_word
                   /\ engine (hear w1) = engine (hear (ws r))
                   /\ _sbuf_mpool (hear w1) = _sbuf_mpool (hear (ws r))
                   /\ heap w1 = heap (ws r)
                   /\ (forall c v, K_s (hear (ws r)) c = Some v ->
                                   K_s (hear w1) c = Some v)
                   /\ (forall c v, K_n (hear (ws r)) c = Some v ->
                                   K_n (hear w1) c = Some v)))
    as [w' Hw'].
  { intros r Hr. destruct (Hranks r Hr) as (Hsz & _ & Hs & Hn).
    destruct (insert_new_comm_shape _ _ _ (Hshape r Hr) Hs Hn)
      as (k1 & Hk1 & Hrest).
    destruct (Hrest reply1) as [_ Hok].
    destruct Hok as (k2 & Hk2 & Hfin); [done|].
    destruct (Hfin reply2) as (w1 & Hw1 & HKs & HKn).
    pose proof (insert_new_comm_frame (envs r) comm (ws r)) as Hframe.
    rewrite Hk1 in Hframe. simpl in Hframe. specialize (Hframe reply1).
    rewrite Hk2 in Hframe. simpl in Hframe. specialize (Hframe reply2).
    rewrite Hw1 in Hframe. simpl in Hframe.
    destruct Hframe as (Hfs & Hfn & He & Hp & Hh).
    exists w1, k1, k2. repeat split; try done.
    rewrite HKs. f_equal. simpl. apply mem_write_same_length.
    by rewrite length_gather_buf, Hsz, Nat2Z.id, length_fmap, length_seq. }
  exists w'. split.
  { intros r Hr. destruct (Hw' r Hr) as (k1 & k2 & _ & _ & _ & ?). done. }
  set (P := fun r => pbind (insert_new_comm (envs r) comm (ws r)) (F r)).
  rewrite (run_ranks_round_by_rank other _ [] N P
             (fun r => resume reply1 (P r))
             (fun r => PMPI_Allgather (gather_buf (envs r) comm (ws r)) comm)
             reply1 []); [|done| | |done].
  2:{ intros r Hr. destruct (Hw' r Hr) as (k1 & k2 & Hk1 & _).
      unfold P. by rewrite Hk1. }
  2:{ rewrite collective_allgather by done. unfold reply1. do 3 f_equal.
      apply fmap_seq_ext. intros r Hr.
      destruct (Hranks r) as (_ & Hrk & _); [lia|]. unfold fresh_word.
      rewrite <- (gather_buf_own (envs r) comm (ws r)) by (apply Hshape; lia).
      by rewrite Hrk, Nat2Z.id. }
  rewrite (run_ranks_round_by_rank other _ [] N
             (fun r => resume reply1 (P r))
             (fun r => resume reply2 (resume reply1 (P r)))
             (fun r => PMPI_Bcast (nonce_seed (envs r) comm (ws r))
                         root_rank comm)
             reply2 []); [|done| | |done].
  2:{ intros r Hr. destruct (Hw' r Hr) as (k1 & k2 & Hk1 & Hk2 & _).
      unfold P. rewrite Hk1. simpl. by rewrite Hk2. }
  2:{ rewrite collective_bcast by done. unfold reply2. do 4 f_equal.
      unfold nonce_seed, root_word.
      destruct (Hranks 0%nat HN) as (_ & -> & _). by rewrite decide_True. }
  f_equal. apply fmap_seq_ext. intros r Hr.
  destruct (Hw' r) as (k1 & k2 & Hk1 & Hk2 & Hk3 & _); [lia|].
  unfold P. rewrite Hk1. simpl. rewrite Hk2. simpl. by rewrite Hk3.
Qed.

Lemma HearState_new_int_sum cfg E flag P L prf :
  AESNI cfg && flag = false ->
  encryption.encrypt_int_sum E = encryption.encrypt_int_sum_naive prf ->
  encryption.decrypt_int_sum E = encryption.decrypt_int_sum_naive ->
  let s := HearState_new cfg E flag P L in
  encrypt_block_int_sum (engine s) = encryption.encrypt_int_sum_naive prf
  /\ decrypt_block_int_sum (engine s) = encryption.decrypt_int_sum_naive
  /\ prng (engine s) = encryption.prng_uint E.
Proof. intros Hf He Hd. unfold HearState_new. simpl. by rewrite Hf. Qed.

(** X20: [MPI_Init] followed by an integer-sum [MPI_Allreduce] on
    [MPI_COMM_WORLD], run in lock step by [N] ranks from any prior state:
    [alloc_state] and the constructor build the store, [insert_new_comm]
    agrees on keys and nonce, and every rank gets the library's sum of the
    plain inputs, when the request fits ([request_fits]) the state that
    [alloc_state] builds.  (The integer-sum engine is the one of the
    specification.) *)
Theorem init_then_allreduce_matches_native other cfg vars E prf
    (N count : nat) (envs : nat -> process_env) (gs : nat -> globals)
    (ws : nat -> world) (frames : nat -> stack_frame)
    (xs rs : nat -> list word) fuel :
  (0 < N)%nat ->
  (0 < count)%nat ->
  AESNI cfg && HEAR_ENABLE_AESNI vars = false ->
  encryption.encrypt_int_sum E = encryption.encrypt_int_sum_naive prf ->
  encryption.decrypt_int_sum E = encryption.decrypt_int_sum_naive ->
  let init r := MPI_Init cfg (envs r) vars E MPI_SUCCESS (gs r) (ws r) in
  (forall r, (r < N)%nat ->
     comm_size_of (envs r) MPI_COMM_WORLD = Z.of_nat N
     /\ comm_rank_of (envs r) MPI_COMM_WORLD = Z.of_nat r
     /\ (count <= length (xs r))%nat
     /\ (count <= length (rs r))%nat
     /\ (USE_PIPELINING cfg = true ->
         1 <= pipelining_block_size (init r).1.1)
     /\ request_fits (init r).1.1 (Z.of_nat count)
          (alloc_state cfg vars E (gs r) (ws r)).2) ->
  (2 * count + 2 <= fuel)%nat ->
  exists res,
    run_ranks other fuel []
      ((fun r => pbind (init r).2
                   (fun _ => MPI_Allreduce (init r).1.1 (envs r) (frames r)
                               (xs r) (rs r) (Z.of_nat count) MPI_INT MPI_SUM
                               MPI_COMM_WORLD)) <$> seq 0 N)
    = Some res
    /\ forall r, (r < N)%nat ->
         exists m, res !! r = Some m
           /\ m.1 = Returned
                      (MPI_SUCCESS,
                       plain_sum other N xs count ++ drop count (rs r)).
Proof.
  intros HN Hcount Hflag Henc Hdec init Hall Hfuel.
  set (cfg' := (alloc_state cfg vars E (gs 0%nat) (ws 0%nat)).1.1).
  set (w0 := fun r => (alloc_state cfg vars E (gs r) (ws r)).2).
  assert (Hinit : forall r,
            init r
            = ((alloc_state cfg vars E (gs r) (ws r)).1,
               insert_new_comm (envs r) MPI_COMM_WORLD (w0 r))).
  { intros r. unfold init, MPI_Init, w0.
    destruct (alloc_state cfg vars E (gs r) (ws r)) as [[c g'] w1] eqn:Ha.
    simpl. unfold through_hear.
    pose proof (alloc_state_live cfg vars E (gs r) (ws r)) as Hl.
    rewrite Ha in Hl. simpl in Hl. by rewrite Hl. }
  assert (Hcfg : forall r, (init r).1.1 = cfg').
  { intros r. by rewrite Hinit. }
  assert (Hpipe' : USE_PIPELINING cfg' = USE_PIPELINING cfg).
  { unfold cfg', alloc_state. simpl.
    destruct (USE_PIPELINING cfg) eqn:Hp; [|done].
    by destruct (HEAR_PIPELINING_BLOCK_SIZE vars). }
  assert (Hpool' : USE_MPOOL cfg' = USE_MPOOL cfg).
  { unfold cfg', alloc_state. simpl.
    destruct (USE_PIPELINING cfg); [|done].
    by destruct (HEAR_PIPELINING_BLOCK_SIZE vars). }
  rewrite (fmap_seq_ext _
             (fun r => pbind (insert_new_comm (envs r) MPI_COMM_WORLD (w0 r))
                         (fun _ => MPI_Allreduce cfg' (envs r) (frames r)
                                     (xs r) (rs r) (Z.of_nat count) MPI_INT
                                     MPI_SUM MPI_COMM_WORLD)) 0 N).
  2:{ intros r _. by rewrite Hcfg, Hinit. }
  destruct fuel as [|[|fuel]]; [lia|lia|].
  destruct (registration_then other N MPI_COMM_WORLD envs w0
              (fun r _ => MPI_Allreduce cfg' (envs r) (frames r) (xs r) (rs r)
                            (Z.of_nat count) MPI_INT MPI_SUM MPI_COMM_WORLD)
              fuel HN)
    as (w1 & Hw1 & ->).
  { intros r Hr. destruct (Hall r Hr) as (? & ? & _).
    destruct (alloc_state_empty cfg vars E (gs r) (ws r))
      as (_ & Hsm & _ & Hnm & _).
    unfold w0. rewrite Hsm, Hnm, !lookup_empty. done. }
  set (k_s := (fun q => u32 (noise (envs q) (noise_pos (w0 q)))) <$> seq 0 N).
  set (k_n := u32 (noise (envs 0%nat) (S (noise_pos (w0 0%nat))))).
  destruct (masked_lockstep other cfg' prf (encryption.prng_uint E)
              MPI_COMM_WORLD N count k_s k_n envs w1 frames xs rs fuel HN
              Hcount)
    as (res & Hrun & _ & Hres).
  - unfold k_s. by rewrite length_fmap, length_seq.
  - intros Hp. rewrite <- (Hcfg 0%nat).
    destruct (Hall 0%nat HN) as (_ & _ & _ & _ & HB & _). apply HB.
    by rewrite <- Hpipe'.
  - intros r Hr.
    destruct (Hall r Hr) as (Hsz & Hrk & Hx & Hrs & _ & Hfits).
    destruct (Hw1 r Hr) as (HKs & HKn & He & Hmp & Hh & _).
    assert (Hstate : exists P L,
              hear (w0 r) = HearState_new cfg E (HEAR_ENABLE_AESNI vars) P L).
    { unfold w0, alloc_state. simpl.
      destruct (USE_MPOOL cfg); eexists _, _; reflexivity. }
    destruct Hstate as (P & L & Hst).
    destruct (HearState_new_int_sum cfg E (HEAR_ENABLE_AESNI vars) P L prf
                Hflag Henc Hdec) as (He1 & He2 & He3).
    split; [|split; [|done]].
    + split; try done; rewrite He, Hst; done.
    + rewrite Hcfg in Hfits. fold (w0 r) in Hfits.
      destruct Hfits as [Hslabs Hlen Hnew Hoff].
      split; try done; unfold free_count in *; by rewrite Hmp.
  - lia.
  - exists res. split; [done|]. intros r Hr.
    destruct (Hres r Hr) as (m & Hm & Hout & _). eauto.
Qed.

(** X23: [MPI_Comm_dup] with a new handle, then an integer-sum
    [MPI_Allreduce] of a request that fits ([request_fits]), run in lock
    step by ranks that are ready on [comm]: on the new communicator the call returns the library's sum of the
    plain inputs, under the keys just agreed on, and on [comm] it still
    does, under the keys it had.  (The integer-sum engine is the one of
    the specification.) *)
Theorem dup_then_allreduce_matches_native other cfg prf g comm newcomm
    (N count : nat) k_s k_n (envs : nat -> process_env) (gs : nat -> globals)
    (ws : nat -> world) (frames : nat -> stack_frame)
    (xs rs : nat -> list word) fuel target :
  (0 < N)%nat ->
  (0 < count)%nat ->
  length k_s = N ->
  (USE_PIPELINING cfg = true -> 1 <= pipelining_block_size cfg) ->
  (forall r, (r < N)%nat ->
     hear_ptr (gs r) = hear_live
     /\ rank_ready prf g comm N k_s k_n (envs r) r (ws r)
     /\ request_fits cfg (Z.of_nat count) (ws r)
     /\ (count <= length (xs r))%nat
     /\ (count <= length (rs r))%nat
     /\ comm_size_of (envs r) newcomm = Z.of_nat N
     /\ comm_rank_of (envs r) newcomm = Z.of_nat r
     /\ _k_s_map (hear (ws r)) !! newcomm = None
     /\ _k_n_map (hear (ws r)) !! newcomm = None) ->
  (2 * count + 2 <= fuel)%nat ->
  target = comm \/ target = newcomm ->
  exists res,
    run_ranks other fuel []
      ((fun r => pbind (MPI_Comm_dup (envs r) (MPI_SUCCESS, newcomm) (gs r)
                          (ws r))
                   (fun _ => MPI_Allreduce cfg (envs r) (frames r) (xs r)
                               (rs r) (Z.of_nat count) MPI_INT MPI_SUM
                               target)) <$> seq 0 N)
    = Some res
    /\ forall r, (r < N)%nat ->
         exists m, res !! r = Some m
           /\ m.1 = Returned
                      (MPI_SUCCESS,
                       plain_sum other N xs count ++ drop count (rs r)).
Proof.
  intros HN Hcount Hks HB Hall Hfuel Htarget.
  rewrite (fmap_seq_ext _
             (fun r => pbind (insert_new_comm (envs r) newcomm (ws r))
                         (fun _ => MPI_Allreduce cfg (envs r) (frames r)
                                     (xs r) (rs r) (Z.of_nat count) MPI_INT
                                     MPI_SUM target)) 0 N).
  2:{ intros r Hr. destruct (Hall r) as (Hlive & _); [lia|].
      unfold MPI_Comm_dup, through_hear. by rewrite Hlive. }
  destruct fuel as [|[|fuel]]; [lia|lia|].
  destruct (registration_then other N newcomm envs ws
              (fun r _ => MPI_Allreduce cfg (envs r) (frames r) (xs r) (rs r)
                            (Z.of_nat count) MPI_INT MPI_SUM target)
              fuel HN)
    as (w1 & Hw1 & ->).
  { intros r Hr. by destruct (Hall r Hr) as (_ & _ & _ & _ & _ & ?). }
  assert (Hpool : forall r, (r < N)%nat ->
            request_fits cfg (Z.of_nat count) (w1 r)).
  { intros r Hr. destruct (Hall r Hr) as (_ & _ & Hp & _).
    destruct (Hw1 r Hr) as (_ & _ & _ & Hmp & _).
    destruct Hp as [Hslabs Hlen Hnew Hoff].
    split; try done; unfold free_count in *; by rewrite Hmp. }
  destruct Htarget as [-> | ->].
  - destruct (masked_lockstep other cfg prf g comm N count k_s k_n envs w1
                frames xs rs fuel HN Hcount Hks HB)
      as (res & Hrun & _ & Hres); [|lia|].
    { intros r Hr.
      destruct (Hall r Hr) as (_ & Hrr & _ & Hx & Hrs & _).
      destruct (Hw1 r Hr) as (_ & _ & He & _ & _ & Hfs & Hfn).
      destruct Hrr as [Hsz Hrk HKs HKn Henc Hdec Hprng].
      split; [|split; [by apply Hpool|done]].
      split; try done; try (by rewrite He); auto. }
    exists res. split; [done|]. intros r Hr.
    destruct (Hres r Hr) as (m & Hm & Hout & _). eauto.
  - set (k_s' := (fun q => u32 (noise (envs q) (noise_pos (ws q))))
                   <$> seq 0 N).
    set (k_n' := u32 (noise (envs 0%nat) (S (noise_pos (ws 0%nat))))).
    destruct (masked_lockstep other cfg prf g newcomm N count k_s' k_n' envs
                w1 frames xs rs fuel HN Hcount)
      as (res & Hrun & _ & Hres); [|done| |lia|].
    { unfold k_s'. by rewrite length_fmap, length_seq. }
    { intros r Hr.
      destruct (Hall r Hr) as (_ & Hrr & _ & Hx & Hrs & Hsz' & Hrk' & _).
      destruct (Hw1 r Hr) as (HKs' & HKn' & He & _).
      destruct Hrr as [_ _ _ _ Henc Hdec Hprng].
      split; [|split; [by apply Hpool|done]].
      split; try done; by rewrite He. }
    exists res. split; [done|]. intros r Hr.
    destruct (Hres r Hr) as (m & Hm & Hout & _). eauto.
Qed.

(** ** The wrappers *)

(** X21: [MPI_Comm_create], [MPI_Comm_split] and [MPI_Comm_dup] stop in
    [assert(ok)] of [insert_new_comm] when the shadow call succeeds with a
    handle that is already in the store. *)
Theorem wrappers_abort_on_reused_handle env code newcomm g w o n :
  hear_ptr g = hear_live ->
  code = MPI_SUCCESS ->
  0 <= comm_rank_of env newcomm < comm_size_of env newcomm ->
  is_Some (_k_s_map (hear w) !! newcomm) ->
  (run o n (MPI_Comm_create env (code, newcomm) g w)).1
  = Stopped AssertionFailed
  /\ (run o n (MPI_Comm_split env (code, newcomm) g w)).1
     = Stopped AssertionFailed
  /\ (run o n (MPI_Comm_dup env (code, newcomm) g w)).1
     = Stopped AssertionFailed.
Proof.
  intros Hg -> Hr Hreg.
  destruct (insert_new_comm_registered_stops env newcomm w Hr Hreg)
    as [w' Hstop].
  unfold MPI_Comm_create, MPI_Comm_split, MPI_Comm_dup, through_hear.
  rewrite Hg, decide_True, Hstop by done. done.
Qed.

(** X22: when the shadow call of [MPI_Init] (or [MPI_Init_thread], which
    is the same code) fails, the wrapper returns that code but has
    allocated the state all the same, with no communicator registered; a
    supported all-reduce then indexes the empty nonce store. *)
Theorem failed_init_leaves_no_communicator cfg env vars E native g w frame
    sendbuf recvbuf count dt op comm o n :
  native <> MPI_SUCCESS ->
  op = MPI_SUM \/ op = MPI_PROD ->
  dt = MPI_INT \/ dt = MPI_FLOAT ->
  let init := MPI_Init cfg env vars E native g w in
  MPI_Init_thread cfg env vars E native g w = init
  /\ exists w',
       init.2 = Ret native w'
       /\ hear_ptr init.1.2 = hear_live
       /\ _k_s_map (hear w') = ∅
       /\ _k_n_map (hear w') = ∅
       /\ (run o n (MPI_Allreduce init.1.1 env frame sendbuf recvbuf count dt
                      op comm w')).1
          = Stopped UndefinedBehaviour.
Proof.
  intros Hne Hop Hdt init. split; [done|].
  destruct (alloc_state_empty cfg vars E g w)
    as (Hss & Hsm & Hns & Hnm & _).
  pose proof (alloc_state_live cfg vars E g w) as Hlive.
  unfold init, MPI_Init.
  destruct (alloc_state cfg vars E g w) as [[cfg' g'] w'] eqn:Ha.
  simpl in *. rewrite decide_False by done.
  exists w'. split; [done|]. split; [done|].
  split; [done|]. split; [done|].
  unfold MPI_Allreduce.
  rewrite decide_False by (intros [[? ?]|[? ?]]; destruct Hop, Hdt; done).
  unfold bind at 1.
  unfold update_k_n, bind, k_n_index, k_n_read.
  rewrite Hnm, lookup_empty. simpl. rewrite Hns. done.
Qed.

(** ** The statements at concrete inputs *)

Ltac evaluated :=
  vm_compute;
  first [reflexivity | lia | (let H := fresh in intros H; discriminate H)].

Ltac fits_solver := split; intros _; evaluated.

Lemma update_k_n_advances_only_its_nonce_witness :
  let cfg := demo_cfg true false initial_block_size in
  let w := started_world in
  engine (hear w) = engine (HearState_new cfg demo_lib false 4 8388608)
  /\ _k_n_map (hear w) !! MPI_COMM_WORLD = Some 0%nat
  /\ _k_n_storage (hear w) !! 0%nat = Some 1001
  /\ exists w',
       update_k_n MPI_COMM_WORLD w = Ret tt w'
       /\ K_n (hear w') MPI_COMM_WORLD = Some (demo_prf 1001)
       /\ _k_s_storage (hear w') = [[1000]].
Proof.
  intros cfg w.
  assert (H1 : engine (hear w)
               = engine (HearState_new cfg demo_lib false 4 8388608))
    by reflexivity.
  assert (H2 : _k_n_map (hear w) !! MPI_COMM_WORLD = Some 0%nat)
    by (vm_compute; reflexivity).
  assert (H3 : _k_n_storage (hear w) !! 0%nat = Some 1001)
    by (vm_compute; reflexivity).
  split; [exact H1|]. split; [exact H2|]. split; [exact H3|].
  destruct (update_k_n_advances_only_its_nonce cfg demo_lib false 4%nat
              8388608 MPI_COMM_WORLD w 0%nat 1001 H1 H2 H3)
    as (w' & Hrun & HK & _ & _ & _ & Hks & _).
  exists w'. split; [exact Hrun|]. split; [exact HK|exact Hks].
Defined.

Lemma insert_new_comm_duplicate_aborts_witness :
  0 <= comm_rank_of (demo_env 1 0) demo_comm
    < comm_size_of (demo_env 1 0) demo_comm
  /\ is_Some (_k_s_map (hear (demo_world [])) !! demo_comm)
  /\ (run solo_oracle 0
        (insert_new_comm (demo_env 1 0) demo_comm (demo_world []))).1
     = Stopped AssertionFailed.
Proof.
  assert (H1 : 0 <= comm_rank_of (demo_env 1 0) demo_comm
                 < comm_size_of (demo_env 1 0) demo_comm) by (simpl; lia).
  assert (H2 : is_Some (_k_s_map (hear (demo_world [])) !! demo_comm))
    by (exists 0%nat; reflexivity).
  split; [exact H1|]. split; [exact H2|].
  exact (insert_new_comm_duplicate_aborts (demo_env 1 0) demo_comm
           (demo_world []) solo_oracle 0%nat H1 H2).
Defined.

Lemma insert_new_comm_registers_witness :
  (0 < 2)%nat
  /\ (forall r, (r < 2)%nat ->
        comm_size_of (demo_env 2 (Z.of_nat r)) demo_comm = Z.of_nat 2
        /\ comm_rank_of (demo_env 2 (Z.of_nat r)) demo_comm = Z.of_nat r
        /\ _k_s_map (hear blank_world) !! demo_comm = None
        /\ _k_n_map (hear blank_world) !! demo_comm = None)
  /\ exists res,
       run_ranks no_other 2 []
         ((fun r => insert_new_comm (demo_env 2 (Z.of_nat r)) demo_comm
                      blank_world) <$> seq 0 2)
       = Some res
       /\ forall r, (r < 2)%nat ->
            exists x, res !! r = Some x
              /\ x.1 = Returned MPI_SUCCESS
              /\ K_s (hear x.2) demo_comm = Some [1000; 2000]
              /\ K_n (hear x.2) demo_comm = Some 1001.
Proof.
  assert (H1 : (0 < 2)%nat) by lia.
  assert (H2 : forall r, (r < 2)%nat ->
            comm_size_of (demo_env 2 (Z.of_nat r)) demo_comm = Z.of_nat 2
            /\ comm_rank_of (demo_env 2 (Z.of_nat r)) demo_comm = Z.of_nat r
            /\ _k_s_map (hear blank_world) !! demo_comm = None
            /\ _k_n_map (hear blank_world) !! demo_comm = None).
  { intros r Hr. repeat split; reflexivity. }
  split; [exact H1|]. split; [exact H2|].
  destruct (insert_new_comm_registers no_other 2 demo_comm
              (fun r => demo_env 2 (Z.of_nat r)) (fun _ => blank_world)
              H1 H2) as [Hrun _].
  destruct (Hrun 2%nat (le_n 2)) as (res & Hres & _ & Hall).
  exists res. split; [exact Hres|].
  intros r Hr. destruct (Hall r Hr) as (x & Hx & Hout & HKs & _ & _ & HKn).
  exists x. split; [exact Hx|]. split; [exact Hout|].
  split; [exact HKs|exact HKn].
Defined.

Lemma MPI_Allreduce_advances_nonce_once_witness :
  (MPI_SUM = MPI_SUM \/ MPI_SUM = MPI_PROD)
  /\ (MPI_INT = MPI_INT \/ MPI_INT = MPI_FLOAT)
  /\ _k_n_map (hear (demo_world [0; 1]%nat)) !! demo_comm = Some 0%nat
  /\ _k_n_storage (hear (demo_world [0; 1]%nat)) !! 0%nat = Some 1001
  /\ exists evs,
       log (run solo_oracle 0
              (MPI_Allreduce (demo_cfg true true 3) (demo_env 1 0) demo_frame
                 [1; 2; 3; 4] [0; 0; 0; 0] 4 MPI_INT MPI_SUM demo_comm
                 (demo_world [0; 1]%nat))).2
       = EvAdvance demo_comm 1001 (demo_prf 1001) :: evs
       /\ Forall (after_advance (demo_prf 1001)) evs.
Proof.
  split; [by left|]. split; [by left|].
  split; [reflexivity|]. split; [reflexivity|].
  destruct (MPI_Allreduce_advances_nonce_once (demo_cfg true true 3)
              (demo_env 1 0) demo_frame [1; 2; 3; 4] [0; 0; 0; 0] 4 MPI_INT
              MPI_SUM demo_comm (demo_world [0; 1]%nat) 0%nat 1001
              solo_oracle 0%nat (or_introl eq_refl) (or_introl eq_refl)
              eq_refl eq_refl) as (evs & Hlog & Hev & _).
  exists evs. split; [exact Hlog|exact Hev].
Defined.

Lemma MPI_Allreduce_propagates_reduce_error_witness :
  let w := demo_world [0; 1]%nat in
  let c := PMPI_Iallreduce
             (masked_block demo_prf [1000; 2000] (demo_prf 1001) 1
                [1; 2; 3; 4] 0 0 3)
             3 MPI_INT MPI_SUM demo_comm in
  let r := {| r_code := 5; r_data := [] |} in
  let evs := [EvAdvance demo_comm 1001 (demo_prf 1001); EvAcquire (Slab 0);
              EvEncrypt MPI_INT MPI_SUM 3 (demo_prf 1001); EvMPL c r;
              EvRelease (Slab 0)] in
  let res := run failing_oracle 0
               (MPI_Allreduce (demo_cfg true true 3) (demo_env 1 0) demo_frame
                  [1; 2; 3; 4] [0; 0; 0; 0] 4 MPI_INT MPI_SUM demo_comm w) in
  log res.2 = log w ++ evs
  /\ EvMPL c r ∈ evs
  /\ is_reduce c = true
  /\ r_code r <> MPI_SUCCESS
  /\ (exists recvbuf', res.1 = Returned (5, recvbuf'))
  /\ balanced w res.2.
Proof.
  intros w c r evs res.
  assert (H1 : log res.2 = log w ++ evs) by (vm_compute; reflexivity).
  assert (H2 : EvMPL c r ∈ evs).
  { unfold evs. do 3 apply list_elem_of_further. apply list_elem_of_here. }
  assert (H3 : is_reduce c = true) by reflexivity.
  assert (H4 : r_code r <> MPI_SUCCESS) by (by vm_compute).
  split; [exact H1|]. split; [exact H2|]. split; [exact H3|].
  split; [exact H4|].
  exact (MPI_Allreduce_propagates_reduce_error (demo_cfg true true 3)
           (demo_env 1 0) demo_frame [1; 2; 3; 4] [0; 0; 0; 0] 4 MPI_INT
           MPI_SUM demo_comm w failing_oracle 0%nat evs c r
           (or_introl eq_refl) (or_introl eq_refl) H1 H2 H3 H4).
Defined.

(** C2, the claim as it stands fails on requests that do not fit.  Two
    ready ranks, integer sum.  With one free slab and a request of two
    blocks, every rank returns [MPI_ERR_BUFFER] where the library's own
    all-reduce returns the sums.  With slabs of 64 bytes and a request of
    17 elements, not pipelined, the block encryptor is handed a buffer
    that is too short.  Without the pool and with [2^29] elements, the
    byte length wraps to a negative [int] and [new] throws. *)
Lemma masked_int_sum_fails_on_unfit_request :
  let envs := fun r : nat => demo_env 2 (Z.of_nat r) in
  let masked cfg (ws : nat -> world) (xs rs : nat -> list word) count :=
    fmap (M := list) fst
      <$> run_ranks no_other 8 []
            ((fun r => MPI_Allreduce cfg (envs r) demo_frame (xs r) (rs r)
                         count MPI_INT MPI_SUM demo_comm (ws r))
               <$> seq 0 2) in
  let native (ws : nat -> world) (xs rs : nat -> list word) count :=
    fmap (M := list) fst
      <$> run_ranks no_other 8 []
            ((fun r => shadow_allreduce (xs r) (rs r) count MPI_INT MPI_SUM
                         demo_comm (ws r))
               <$> seq 0 2) in
  let ones (n : Z) := fun _ : nat => replicate (Z.to_nat n) 1 in
  let zeros (n : Z) := fun _ : nat => replicate (Z.to_nat n) 0 in
  (forall slabs r, (r < 2)%nat ->
     rank_ready demo_prf demo_prf demo_comm 2 [1000; 2000] 1001 (envs r) r
       (demo_world slabs))
  /\ masked (demo_cfg true true 3) (fun _ => demo_world [0%nat]) demo_inputs
       (zeros 4) 4
     = Some [Returned (MPI_ERR_BUFFER, [0; 0; 0; 0]);
             Returned (MPI_ERR_BUFFER, [0; 0; 0; 0])]
  /\ native (fun _ => demo_world [0%nat]) demo_inputs (zeros 4) 4
     = Some [Returned (MPI_SUCCESS, [11; 22; 33; 44]);
             Returned (MPI_SUCCESS, [11; 22; 33; 44])]
  /\ masked (demo_cfg true false 65536)
       (fun _ => demo_world [0; 1; 2; 3]%nat) (ones 17) (zeros 17) 17
     = Some [Stopped UndefinedBehaviour; Stopped UndefinedBehaviour]
  /\ native (fun _ => demo_world [0; 1; 2; 3]%nat) (ones 17) (zeros 17) 17
     = Some [Returned (MPI_SUCCESS, replicate 17 2);
             Returned (MPI_SUCCESS, replicate 17 2)]
  /\ masked (demo_cfg false false 65536) (fun _ => demo_world [])
       (ones 536870912) (zeros 536870912) 536870912
     = Some [Stopped UncaughtException; Stopped UncaughtException].
Proof.
  intros envs masked native ones zeros.
  split; [by intros slabs r Hr; split|].
  split; [by vm_compute|]. split; [by vm_compute|].
  split; [by vm_compute|]. split; [by vm_compute|].
  unfold masked.
  generalize (ones 536870912) (zeros 536870912). intros xs rs.
  cbn [fmap list_fmap seq].
  rewrite !(negative_length_throws (demo_cfg false false 65536) _ _ _ _ _ _ _
              _ _ 0%nat 1001) by (done || (by left)).
  reflexivity.
Qed.

Lemma masked_int_sum_matches_native_witness :
  let cfg := demo_cfg true true 3 in
  let envs := fun r : nat => demo_env 2 (Z.of_nat r) in
  let ws := fun _ : nat => demo_world [0; 1; 2; 3]%nat in
  let rs := fun _ : nat => [0; 0; 0; 0] in
  (0 < 2)%nat
  /\ (0 < 4)%nat
  /\ length [1000; 2000] = 2%nat
  /\ (USE_PIPELINING cfg = true -> 1 <= pipelining_block_size cfg)
  /\ (forall r, (r < 2)%nat ->
        rank_ready demo_prf demo_prf demo_comm 2 [1000; 2000] 1001 (envs r) r
          (ws r)
        /\ request_fits cfg (Z.of_nat 4) (ws r)
        /\ (4 <= length (demo_inputs r))%nat
        /\ (4 <= length (rs r))%nat)
  /\ (2 * 4 <= 8)%nat
  /\ exists masked,
       run_ranks no_other 8 []
         ((fun r => MPI_Allreduce cfg (envs r) demo_frame (demo_inputs r)
                      (rs r) (Z.of_nat 4) MPI_INT MPI_SUM demo_comm (ws r))
            <$> seq 0 2)
       = Some masked
       /\ forall r, (r < 2)%nat ->
            exists m, masked !! r = Some m
              /\ m.1 = Returned (MPI_SUCCESS, [11; 22; 33; 44]).
Proof.
  intros cfg envs ws rs.
  assert (H1 : (0 < 2)%nat) by lia.
  assert (H2 : (0 < 4)%nat) by lia.
  assert (H3 : length [1000; 2000] = 2%nat) by reflexivity.
  assert (H4 : USE_PIPELINING cfg = true -> 1 <= pipelining_block_size cfg)
    by (intros _; simpl; lia).
  assert (H5 : forall r, (r < 2)%nat ->
            rank_ready demo_prf demo_prf demo_comm 2 [1000; 2000] 1001
              (envs r) r (ws r)
            /\ request_fits cfg (Z.of_nat 4) (ws r)
            /\ (4 <= length (demo_inputs r))%nat
            /\ (4 <= length (rs r))%nat).
  { intros r Hr. split; [|split; [|split]].
    - split; reflexivity.
    - fits_solver.
    - destruct r as [|[|r]]; simpl; lia.
    - simpl. lia. }
  assert (H6 : (2 * 4 <= 8)%nat) by lia.
  split; [exact H1|]. split; [exact H2|]. split; [exact H3|].
  split; [exact H4|]. split; [exact H5|]. split; [exact H6|].
  destruct (masked_int_sum_matches_native no_other cfg demo_prf demo_prf
              demo_comm 2 4 [1000; 2000] 1001 envs ws (fun _ => demo_frame)
              demo_inputs rs 8 H1 H2 H3 H4 H5 H6)
    as (masked & native & Hm & _ & _ & _ & Hall).
  exists masked. split; [exact Hm|].
  intros r Hr. destruct (Hall r Hr) as (m & n & Hmr & _ & Heq & Hn & _).
  exists m. split; [exact Hmr|]. rewrite Heq, Hn.
  destruct r as [|[|r]]; [reflexivity|reflexivity|lia].
Defined.

(** ** The further properties at concrete inputs *)

Lemma update_k_n_unregistered_advances_slot_zero_witness :
  _k_n_map (hear (demo_world [])) !! 8 = None
  /\ _k_n_map (hear (demo_world [])) !! demo_comm = Some 0%nat
  /\ _k_n_storage (hear (demo_world [])) !! 0%nat = Some 1001
  /\ exists w',
       update_k_n 8 (demo_world []) = Ret tt w'
       /\ K_n (hear w') demo_comm = Some (demo_prf 1001)
       /\ K_n (hear w') 8 = Some (demo_prf 1001).
Proof.
  split; [reflexivity|]. split; [reflexivity|]. split; [reflexivity|].
  destruct (update_k_n_unregistered_advances_slot_zero 8 demo_comm
              (demo_world []) 1001 eq_refl eq_refl eq_refl)
    as (w' & Hrun & HK0 & _ & HK).
  exists w'. split; [exact Hrun|]. split; [exact HK0|exact HK].
Defined.

Lemma update_k_n_iterated_witness :
  _k_n_map (hear (demo_world [])) !! demo_comm = Some 0%nat
  /\ _k_n_storage (hear (demo_world [])) !! 0%nat = Some 1001
  /\ exists w',
       Nat.iter 3 (fun p => pbind p (fun _ => update_k_n demo_comm))
         (Ret tt (demo_world []))
       = Ret tt w'
       /\ K_n (hear w') demo_comm
          = Some (demo_prf (demo_prf (demo_prf 1001))).
Proof.
  split; [reflexivity|]. split; [reflexivity|].
  destruct (update_k_n_iterated demo_comm (demo_world []) 0%nat 1001 3
              eq_refl eq_refl) as (w' & Hrun & HK & _).
  exists w'. split; [exact Hrun|exact HK].
Defined.

Lemma insert_new_comm_failed_gather_stays_registered_witness :
  let env := demo_env 1 0 in
  let w := demo_world [] in
  let c1 := PMPI_Allgather (gather_buf env 8 w) 8 in
  0 <= comm_rank_of env 8 < comm_size_of env 8
  /\ _k_s_map (hear w) !! 8 = None
  /\ r_code (failing_oracle 0%nat c1) <> MPI_SUCCESS
  /\ (run failing_oracle 0 (insert_new_comm env 8 w)).1 = Returned 5
  /\ _k_n_storage (hear (run failing_oracle 0 (insert_new_comm env 8 w)).2)
     = [1001].
Proof.
  intros env w c1.
  assert (H1 : 0 <= comm_rank_of env 8 < comm_size_of env 8)
    by (simpl; lia).
  assert (H2 : _k_s_map (hear w) !! 8 = None) by reflexivity.
  assert (H3 : r_code (failing_oracle 0%nat c1) <> MPI_SUCCESS)
    by (by vm_compute).
  split; [exact H1|]. split; [exact H2|]. split; [exact H3|].
  destruct (insert_new_comm_failed_gather_stays_registered env 8 w
              failing_oracle 0%nat H1 H2 H3)
    as (Hout & _ & _ & Hst & _).
  split; [exact Hout|exact Hst].
Defined.

Lemma encrypt_sendbuf_unsupported_gives_buffer_back_witness :
  let cfg := demo_cfg false false 65536 in
  let w := demo_world [] in
  ~ maskable MPI_DOUBLE MPI_SUM
  /\ (USE_MPOOL cfg = false -> 0 <= int (2 * type_size MPI_DOUBLE))
  /\ exists w',
       encrypt_sendbuf cfg (demo_env 1 0) [5; 6] 2 MPI_DOUBLE MPI_SUM
         demo_comm w
       = Ret (nullptr, []) w'
       /\ balanced w w'.
Proof.
  intros cfg w.
  assert (H1 : ~ maskable MPI_DOUBLE MPI_SUM)
    by (intros [[_ [H|H]]|[H _]]; discriminate H).
  assert (H2 : USE_MPOOL cfg = false -> 0 <= int (2 * type_size MPI_DOUBLE))
    by (intros _; evaluated).
  split; [exact H1|]. split; [exact H2|].
  destruct (encrypt_sendbuf_unsupported_gives_buffer_back cfg (demo_env 1 0)
              [5; 6] 2 MPI_DOUBLE MPI_SUM demo_comm w H1 H2)
    as (w' & p & Hrun & Hbal & _).
  exists w'. split; [exact Hrun|exact Hbal].
Defined.

Lemma encrypt_then_release_round_trip_witness :
  let cfg := demo_cfg false false 65536 in
  let w := demo_world [] in
  maskable MPI_INT MPI_SUM
  /\ K_s (hear w) demo_comm = Some [1000; 2000]
  /\ K_n (hear w) demo_comm = Some 1001
  /\ pool_ready cfg 1 (2 * type_size MPI_INT) w
  /\ heap_ready cfg (2 * type_size MPI_INT)
  /\ exists p w1 w2,
       (exists d,
          encrypt_sendbuf cfg (demo_env 1 0) [5; 6] 2 MPI_INT MPI_SUM
            demo_comm w
          = Ret (p, d) w1)
       /\ p <> nullptr
       /\ release_memory cfg p w1 = Ret tt w2
       /\ balanced w w2.
Proof.
  intros cfg w.
  assert (H1 : maskable MPI_INT MPI_SUM)
    by (left; split; [reflexivity|left; reflexivity]).
  assert (H2 : K_s (hear w) demo_comm = Some [1000; 2000]) by reflexivity.
  assert (H3 : K_n (hear w) demo_comm = Some 1001) by reflexivity.
  assert (H4 : pool_ready cfg 1 (2 * type_size MPI_INT) w)
    by (intros H; discriminate H).
  assert (H5 : heap_ready cfg (2 * type_size MPI_INT))
    by (intros _; split; evaluated).
  split; [exact H1|]. split; [exact H2|]. split; [exact H3|].
  split; [exact H4|]. split; [exact H5|].
  destruct (encrypt_then_release_round_trip cfg (demo_env 1 0) [5; 6] 2
              MPI_INT MPI_SUM demo_comm w [1000; 2000] 1001 H1 H2 H3 H4 H5)
    as (p & w1 & w2 & Henc & Hp & _ & Hrel & Hbal & _).
  exists p, w1, w2. split; [eexists; exact Henc|].
  split; [exact Hp|]. split; [exact Hrel|exact Hbal].
Defined.

Lemma unsupported_request_is_forwarded_witness :
  ((MPI_MAX <> MPI_SUM /\ MPI_MAX <> MPI_PROD)
   \/ (MPI_INT <> MPI_INT /\ MPI_INT <> MPI_FLOAT))
  /\ (run solo_oracle 0
        (MPI_Allreduce (demo_cfg true true 3) (demo_env 1 0) demo_frame
           [4; 9] [0; 0] 2 MPI_INT MPI_MAX demo_comm (demo_world []))).1
     = Returned (MPI_SUCCESS, [4; 9]).
Proof.
  assert (H1 : (MPI_MAX <> MPI_SUM /\ MPI_MAX <> MPI_PROD)
               \/ (MPI_INT <> MPI_INT /\ MPI_INT <> MPI_FLOAT)).
  { left. split; intros H; discriminate H. }
  split; [exact H1|].
  rewrite (unsupported_request_is_forwarded (demo_cfg true true 3)
             (demo_env 1 0) demo_frame [4; 9] [0; 0] 2 MPI_INT MPI_MAX
             demo_comm (demo_world []) solo_oracle 0%nat H1).
  reflexivity.
Defined.

Lemma every_return_gives_scratch_back_witness :
  let cfg := demo_cfg true false 65536 in
  let w := demo_world [0; 1]%nat in
  let res := run solo_oracle 0
               (MPI_Allreduce cfg (demo_env 1 0) demo_frame [5; 6] [0; 0] 2
                  MPI_INT MPI_SUM demo_comm w) in
  ~ (USE_PIPELINING cfg = true /\ 2 = 0)
  /\ res.1 = Returned (MPI_SUCCESS, [1130118962; 2770650498])
  /\ length (mpool.free_slabs (_sbuf_mpool (hear res.2))) = 2%nat
  /\ heap res.2 = heap w.
Proof.
  intros cfg w res.
  assert (H1 : ~ (USE_PIPELINING cfg = true /\ 2 = 0))
    by (intros [H _]; discriminate H).
  assert (H2 : res.1 = Returned (MPI_SUCCESS, [1130118962; 2770650498]))
    by (vm_compute; reflexivity).
  split; [exact H1|]. split; [exact H2|].
  exact (every_return_gives_scratch_back cfg (demo_env 1 0) demo_frame
           [5; 6] [0; 0] 2 MPI_INT MPI_SUM demo_comm w
           solo_oracle 0%nat _ H1 H2).
Defined.

Lemma exhausted_pool_returns_buffer_error_witness :
  let cfg := demo_cfg true false 65536 in
  let w := demo_world [] in
  USE_MPOOL cfg = true
  /\ USE_PIPELINING cfg = false
  /\ (MPI_SUM = MPI_SUM \/ MPI_SUM = MPI_PROD)
  /\ (MPI_INT = MPI_INT \/ MPI_INT = MPI_FLOAT)
  /\ _k_n_map (hear w) !! demo_comm = Some 0%nat
  /\ _k_n_storage (hear w) !! 0%nat = Some 1001
  /\ mpool.free_slabs (_sbuf_mpool (hear w)) = []
  /\ (run solo_oracle 0
        (MPI_Allreduce cfg (demo_env 1 0) demo_frame [5] [0] 1 MPI_INT MPI_SUM
           demo_comm w)).1
     = Returned (MPI_ERR_BUFFER, [0]).
Proof.
  intros cfg w.
  split; [reflexivity|]. split; [reflexivity|].
  split; [left; reflexivity|]. split; [left; reflexivity|].
  split; [reflexivity|]. split; [reflexivity|]. split; [reflexivity|].
  destruct (exhausted_pool_returns_buffer_error cfg (demo_env 1 0) demo_frame
              [5] [0] 1 MPI_INT MPI_SUM demo_comm w 0%nat 1001 solo_oracle
              0%nat eq_refl eq_refl (or_introl eq_refl) (or_introl eq_refl)
              eq_refl eq_refl eq_refl) as (Hout & _).
  exact Hout.
Defined.

Lemma negative_length_without_pool_throws_witness :
  let cfg := demo_cfg false false 65536 in
  let w := demo_world [] in
  USE_MPOOL cfg = false
  /\ (MPI_SUM = MPI_SUM \/ MPI_SUM = MPI_PROD)
  /\ (MPI_INT = MPI_INT \/ MPI_INT = MPI_FLOAT)
  /\ _k_n_map (hear w) !! demo_comm = Some 0%nat
  /\ _k_n_storage (hear w) !! 0%nat = Some 1001
  /\ int (first_block cfg 536870912 * type_size MPI_INT) < 0
  /\ (run solo_oracle 0
        (MPI_Allreduce cfg (demo_env 1 0) demo_frame [5] [0] 536870912
           MPI_INT MPI_SUM demo_comm w)).1
     = Stopped UncaughtException.
Proof.
  intros cfg w.
  assert (H6 : int (first_block cfg 536870912 * type_size MPI_INT) < 0)
    by reflexivity.
  split; [reflexivity|].
  split; [left; reflexivity|]. split; [left; reflexivity|].
  split; [reflexivity|]. split; [reflexivity|]. split; [exact H6|].
  destruct (negative_length_without_pool_throws cfg (demo_env 1 0) demo_frame
              [5] [0] 536870912 MPI_INT MPI_SUM demo_comm w 0%nat 1001
              solo_oracle 0%nat eq_refl (or_introl eq_refl)
              (or_introl eq_refl) eq_refl eq_refl H6) as (Hout & _).
  exact Hout.
Defined.

Lemma MPI_Allreduce_changes_only_the_nonce_witness :
  let cfg := demo_cfg true true 3 in
  let w := demo_world [0; 1]%nat in
  let res := run solo_oracle 0
               (MPI_Allreduce cfg (demo_env 1 0) demo_frame [1; 2; 3; 4]
                  [0; 0; 0; 0] 4 MPI_INT MPI_SUM demo_comm w) in
  (MPI_SUM = MPI_SUM \/ MPI_SUM = MPI_PROD)
  /\ (MPI_INT = MPI_INT \/ MPI_INT = MPI_FLOAT)
  /\ K_s (hear w) demo_comm = Some [1000; 2000]
  /\ _k_n_map (hear w) !! demo_comm = Some 0%nat
  /\ _k_n_storage (hear w) !! 0%nat = Some 1001
  /\ _k_n_storage (hear res.2) = [demo_prf 1001]
  /\ _k_s_storage (hear res.2) = [[1000; 2000]].
Proof.
  intros cfg w res.
  split; [left; reflexivity|]. split; [left; reflexivity|].
  split; [reflexivity|]. split; [reflexivity|]. split; [reflexivity|].
  destruct (MPI_Allreduce_changes_only_the_nonce cfg (demo_env 1 0)
              demo_frame [1; 2; 3; 4] [0; 0; 0; 0] 4 MPI_INT MPI_SUM
              demo_comm w [1000; 2000] 0%nat 1001 solo_oracle 0%nat
              (or_introl eq_refl) (or_introl eq_refl) eq_refl eq_refl
              eq_refl) as (Hn & _ & Hs & _).
  split; [exact Hn|exact Hs].
Defined.

Lemma MPI_Allreduce_return_code_origin_witness :
  let cfg := demo_cfg true true 3 in
  let w := demo_world [0; 1]%nat in
  let res := run failing_oracle 0
               (MPI_Allreduce cfg (demo_env 1 0) demo_frame [1; 2; 3; 4]
                  [0; 0; 0; 0] 4 MPI_INT MPI_SUM demo_comm w) in
  K_s (hear w) demo_comm = Some [1000; 2000]
  /\ _k_n_map (hear w) !! demo_comm = Some 0%nat
  /\ _k_n_storage (hear w) !! 0%nat = Some 1001
  /\ res.1 = Returned (5, [0; 0; 0; 0])
  /\ (5 = MPI_SUCCESS
      \/ 5 = MPI_ERR_BUFFER
      \/ exists evs c r,
           log res.2 = log w ++ evs
           /\ EvMPL c r ∈ evs /\ is_reduce c = true /\ r_code r = 5).
Proof.
  intros cfg w res.
  assert (H4 : res.1 = Returned (5, [0; 0; 0; 0]))
    by (vm_compute; reflexivity).
  split; [reflexivity|]. split; [reflexivity|]. split; [reflexivity|].
  split; [exact H4|].
  exact (MPI_Allreduce_return_code_origin cfg (demo_env 1 0) demo_frame
           [1; 2; 3; 4] [0; 0; 0; 0] 4 MPI_INT MPI_SUM demo_comm w
           [1000; 2000] 0%nat 1001 failing_oracle 0%nat 5 [0; 0; 0; 0]
           eq_refl eq_refl eq_refl H4).
Defined.

Lemma pipelined_error_leaves_reduction_posted_witness :
  let cfg := demo_cfg true true 3 in
  let w := demo_world [0%nat] in
  let res := run solo_oracle 0
               (MPI_Allreduce cfg (demo_env 1 0) demo_frame [1; 2; 3; 4]
                  [0; 0; 0; 0] 4 MPI_INT MPI_SUM demo_comm w) in
  USE_PIPELINING cfg = true
  /\ (MPI_SUM = MPI_SUM \/ MPI_SUM = MPI_PROD)
  /\ (MPI_INT = MPI_INT \/ MPI_INT = MPI_FLOAT)
  /\ K_s (hear w) demo_comm = Some [1000; 2000]
  /\ _k_n_map (hear w) !! demo_comm = Some 0%nat
  /\ _k_n_storage (hear w) !! 0%nat = Some 1001
  /\ res.1 = Returned (MPI_ERR_BUFFER, [0; 0; 0; 0])
  /\ exists evs,
       log res.2 = log w ++ EvAdvance demo_comm 1001 (demo_prf 1001) :: evs
       /\ tally is_iallreduce evs = S (tally is_wait evs).
Proof.
  intros cfg w res.
  assert (H7 : res.1 = Returned (MPI_ERR_BUFFER, [0; 0; 0; 0]))
    by (vm_compute; reflexivity).
  assert (H8 : MPI_ERR_BUFFER <> MPI_SUCCESS) by (intros H; discriminate H).
  split; [reflexivity|].
  split; [left; reflexivity|]. split; [left; reflexivity|].
  split; [reflexivity|]. split; [reflexivity|]. split; [reflexivity|].
  split; [exact H7|].
  destruct (pipelined_error_leaves_reduction_posted cfg (demo_env 1 0)
              demo_frame [1; 2; 3; 4] [0; 0; 0; 0] 4 MPI_INT MPI_SUM
              demo_comm w [1000; 2000] 0%nat 1001 solo_oracle 0%nat
              eq_refl (or_introl eq_refl) (or_introl eq_refl) eq_refl eq_refl
              eq_refl) as (evs & Hlog & Hcodes).
  exists evs. split; [exact Hlog|].
  destruct (Hcodes MPI_ERR_BUFFER [0; 0; 0; 0] H7) as [_ Herr].
  destruct (Herr H8) as [Hcount _]. exact Hcount.
Defined.

Lemma library_sees_only_encryptor_output_witness :
  let cfg := demo_cfg true false 65536 in
  let w := demo_world [0; 1]%nat in
  let sent := [1130118962; 2770650498] in
  let c := PMPI_Allreduce sent 2 MPI_INT MPI_SUM demo_comm in
  let r := solo_oracle 0%nat c in
  let evs := [EvAdvance demo_comm 1001 (demo_prf 1001); EvAcquire (Slab 0);
              EvEncrypt MPI_INT MPI_SUM 2 (demo_prf 1001); EvMPL c r;
              EvDecrypt MPI_INT MPI_SUM 2; EvRelease (Slab 0)] in
  let res := run solo_oracle 0
               (MPI_Allreduce cfg (demo_env 1 0) demo_frame [5; 6] [0; 0] 2
                  MPI_INT MPI_SUM demo_comm w) in
  (MPI_SUM = MPI_SUM \/ MPI_SUM = MPI_PROD)
  /\ (MPI_INT = MPI_INT \/ MPI_INT = MPI_FLOAT)
  /\ K_s (hear w) demo_comm = Some [1000; 2000]
  /\ _k_n_map (hear w) !! demo_comm = Some 0%nat
  /\ _k_n_storage (hear w) !! 0%nat = Some 1001
  /\ log res.2 = log w ++ evs
  /\ EvMPL c r ∈ evs
  /\ reduce_args c = Some (true, sent, (2, MPI_INT, MPI_SUM, demo_comm))
  /\ exists offset block,
       sent
       = encrypted (engine (hear w)) (demo_env 1 0) (mem_at [5; 6] offset)
           block MPI_INT MPI_SUM demo_comm [1000; 2000]
           (prng (engine (hear w)) 1001).
Proof.
  intros cfg w sent c r evs res.
  assert (H6 : log res.2 = log w ++ evs) by (vm_compute; reflexivity).
  assert (H7 : EvMPL c r ∈ evs).
  { unfold evs. do 3 apply list_elem_of_further. apply list_elem_of_here. }
  assert (H8 : reduce_args c
               = Some (true, sent, (2, MPI_INT, MPI_SUM, demo_comm)))
    by reflexivity.
  split; [left; reflexivity|]. split; [left; reflexivity|].
  split; [reflexivity|]. split; [reflexivity|]. split; [reflexivity|].
  split; [exact H6|]. split; [exact H7|]. split; [exact H8|].
  exact (library_sees_only_encryptor_output cfg (demo_env 1 0) demo_frame
           [5; 6] [0; 0] 2 MPI_INT MPI_SUM demo_comm w [1000; 2000] 0%nat
           1001 solo_oracle 0%nat evs c r true sent
           (2, MPI_INT, MPI_SUM, demo_comm)
           (or_introl eq_refl) (or_introl eq_refl) eq_refl eq_refl eq_refl
           H6 H7 H8).
Defined.

Lemma allreduce_returns_decrypted_reply_witness :
  let cfg := demo_cfg true false 65536 in
  let w := demo_world [0; 1]%nat in
  let sent := encrypted (engine (hear w)) (demo_env 1 0) [5; 6] 2 MPI_INT
                MPI_SUM demo_comm [1000; 2000] (demo_prf 1001) in
  let c := PMPI_Allreduce sent 2 MPI_INT MPI_SUM demo_comm in
  let res := run solo_oracle 0
               (MPI_Allreduce cfg (demo_env 1 0) demo_frame [5; 6] [0; 0] 2
                  MPI_INT MPI_SUM demo_comm w) in
  USE_PIPELINING cfg = false
  /\ maskable MPI_INT MPI_SUM
  /\ K_s (hear w) demo_comm = Some [1000; 2000]
  /\ _k_n_map (hear w) !! demo_comm = Some 0%nat
  /\ _k_n_storage (hear w) !! 0%nat = Some 1001
  /\ pool_ready cfg 1 (2 * 4) w
  /\ heap_ready cfg (2 * 4)
  /\ r_code (solo_oracle 0%nat c) = MPI_SUCCESS
  /\ res.1 = Returned
               (MPI_SUCCESS,
                decrypted (engine (hear w))
                  (mem_write [0; 0] (r_data (solo_oracle 0%nat c))) 2 MPI_INT
                  MPI_SUM [1000; 2000] (demo_prf 1001))
  /\ balanced w res.2.
Proof.
  intros cfg w sent c res.
  assert (H2 : maskable MPI_INT MPI_SUM)
    by (left; split; [reflexivity|left; reflexivity]).
  assert (H6 : pool_ready cfg 1 (2 * 4) w)
    by (intros _; split; [vm_compute; lia|simpl; lia]).
  assert (H7 : heap_ready cfg (2 * 4)) by (intros H; discriminate H).
  split; [reflexivity|]. split; [exact H2|]. split; [reflexivity|].
  split; [reflexivity|]. split; [reflexivity|]. split; [exact H6|].
  split; [exact H7|]. split; [reflexivity|].
  destruct (allreduce_returns_decrypted_reply cfg (demo_env 1 0) demo_frame
              [5; 6] [0; 0] 2 MPI_INT MPI_SUM demo_comm w [1000; 2000] 0%nat
              1001 solo_oracle 0%nat eq_refl H2 eq_refl eq_refl eq_refl H6 H7
              eq_refl) as (Hout & Hbal & _).
  split; [exact Hout|exact Hbal].
Defined.

Lemma pipelined_empty_request_decrypts_stack_junk_witness :
  let cfg := demo_cfg true true 3 in
  let w := demo_world [0; 1]%nat in
  let res := run solo_oracle 0
               (MPI_Allreduce cfg (demo_env 1 0) demo_frame [] [0; 0; 0; 0] 0
                  MPI_INT MPI_SUM demo_comm w) in
  USE_PIPELINING cfg = true
  /\ 0 < pipelining_block_size cfg
  /\ maskable MPI_INT MPI_SUM
  /\ K_s (hear w) demo_comm = Some [1000; 2000]
  /\ _k_n_map (hear w) !! demo_comm = Some 0%nat
  /\ _k_n_storage (hear w) !! 0%nat = Some 1001
  /\ pool_ready cfg 1 0 w
  /\ res.1 = Returned
               (MPI_SUCCESS,
                decrypted (engine (hear w)) [0; 0; 0; 0]
                  (junk_prev_count demo_frame) MPI_INT MPI_SUM [1000; 2000]
                  (demo_prf 1001)).
Proof.
  intros cfg w res.
  assert (H2 : 0 < pipelining_block_size cfg) by (simpl; lia).
  assert (H3 : maskable MPI_INT MPI_SUM)
    by (left; split; [reflexivity|left; reflexivity]).
  assert (H7 : pool_ready cfg 1 0 w)
    by (intros _; split; [vm_compute; lia|simpl; lia]).
  split; [reflexivity|]. split; [exact H2|]. split; [exact H3|].
  split; [reflexivity|]. split; [reflexivity|]. split; [reflexivity|].
  split; [exact H7|].
  destruct (pipelined_empty_request_decrypts_stack_junk cfg (demo_env 1 0)
              demo_frame [] [0; 0; 0; 0] MPI_INT MPI_SUM demo_comm w
              [1000; 2000] 0%nat 1001 solo_oracle 0%nat eq_refl H2 H3 eq_refl
              eq_refl eq_refl H7) as (Hout & _).
  exact Hout.
Defined.

Lemma zero_block_size_never_completes_witness :
  let cfg := demo_cfg true true initial_block_size in
  let vars := {| HEAR_PIPELINING_BLOCK_SIZE := Some 0;
                 HEAR_MPOOL_SIZE := None; HEAR_MPOOL_SBUF_LEN := None;
                 HEAR_ENABLE_AESNI := false |} in
  let cfg' := (alloc_state cfg vars demo_lib initial_globals blank_world).1.1 in
  USE_PIPELINING cfg = true
  /\ HEAR_PIPELINING_BLOCK_SIZE vars = Some 0
  /\ 0 < 4
  /\ (MPI_SUM = MPI_SUM \/ MPI_SUM = MPI_PROD)
  /\ (MPI_INT = MPI_INT \/ MPI_INT = MPI_FLOAT)
  /\ forall o n rb,
       (run o n (MPI_Allreduce cfg' (demo_env 1 0) demo_frame [1; 2; 3; 4]
                   [0; 0; 0; 0] 4 MPI_INT MPI_SUM demo_comm
                   (demo_world [0; 1]%nat))).1
       <> Returned (MPI_SUCCESS, rb).
Proof.
  intros cfg vars cfg'.
  assert (H3 : 0 < 4) by lia.
  split; [reflexivity|]. split; [reflexivity|]. split; [exact H3|].
  split; [left; reflexivity|]. split; [left; reflexivity|].
  destruct (zero_block_size_never_completes cfg vars demo_lib initial_globals
              blank_world (demo_env 1 0) demo_frame [1; 2; 3; 4] [0; 0; 0; 0]
              4 MPI_INT MPI_SUM demo_comm (demo_world [0; 1]%nat) eq_refl
              eq_refl H3 (or_introl eq_refl) (or_introl eq_refl))
    as (Hnever & _).
  exact Hnever.
Defined.

Lemma one_slab_cannot_pipeline_witness :
  let cfg := demo_cfg true true 3 in
  let w := demo_world [0%nat] in
  let first := PMPI_Iallreduce
                 (encrypted (engine (hear w)) (demo_env 1 0) [1; 2; 3; 4] 3
                    MPI_INT MPI_SUM demo_comm [1000; 2000] (demo_prf 1001))
                 3 MPI_INT MPI_SUM demo_comm in
  let res := run eager_oracle 0
               (MPI_Allreduce cfg (demo_env 1 0) demo_frame [1; 2; 3; 4]
                  [0; 0; 0; 0] 4 MPI_INT MPI_SUM demo_comm w) in
  USE_MPOOL cfg = true
  /\ USE_PIPELINING cfg = true
  /\ maskable MPI_INT MPI_SUM
  /\ K_s (hear w) demo_comm = Some [1000; 2000]
  /\ _k_n_map (hear w) !! demo_comm = Some 0%nat
  /\ _k_n_storage (hear w) !! 0%nat = Some 1001
  /\ mpool.free_slabs (_sbuf_mpool (hear w)) = [0%nat]
  /\ 1 <= pipelining_block_size cfg < 4
  /\ pipelining_block_size cfg * 4 <= mpool.sbuf_len (_sbuf_mpool (hear w))
  /\ 0 <= int (pipelining_block_size cfg * 4)
  /\ r_code (eager_oracle 0%nat first) = MPI_SUCCESS
  /\ res.1 = Returned
               (MPI_ERR_BUFFER, [1130118958; 2770650494; 116214734; 0])
  /\ mpool.free_slabs (_sbuf_mpool (hear res.2)) = [0%nat].
Proof.
  intros cfg w first res.
  assert (H3 : maskable MPI_INT MPI_SUM)
    by (left; split; [reflexivity|left; reflexivity]).
  assert (H8 : 1 <= pipelining_block_size cfg < 4) by (simpl; lia).
  assert (H9 : pipelining_block_size cfg * 4
               <= mpool.sbuf_len (_sbuf_mpool (hear w))) by (simpl; lia).
  assert (H10 : 0 <= int (pipelining_block_size cfg * 4)) by evaluated.
  split; [reflexivity|]. split; [reflexivity|]. split; [exact H3|].
  split; [reflexivity|]. split; [reflexivity|]. split; [reflexivity|].
  split; [reflexivity|]. split; [exact H8|]. split; [exact H9|].
  split; [exact H10|]. split; [reflexivity|].
  destruct (one_slab_cannot_pipeline cfg (demo_env 1 0) demo_frame
              [1; 2; 3; 4] [0; 0; 0; 0] 4 MPI_INT MPI_SUM demo_comm w
              [1000; 2000] 0%nat 1001 0%nat eager_oracle 0%nat eq_refl
              eq_refl H3 eq_refl eq_refl eq_refl eq_refl H8 H9 H10 eq_refl)
    as (Hout & Hpool & _).
  split; [exact Hout|exact Hpool].
Defined.

Lemma successive_allreduces_match_native_witness :
  let cfg := demo_cfg true true 3 in
  let envs := fun r : nat => demo_env 2 (Z.of_nat r) in
  let ws := fun _ : nat => demo_world [0; 1; 2; 3]%nat in
  let fs := fun _ : nat => demo_frame in
  let rs := fun _ : nat => [0; 0; 0; 0] in
  (0 < 2)%nat
  /\ (0 < 4)%nat
  /\ (0 < 2)%nat
  /\ length [1000; 2000] = 2%nat
  /\ (USE_PIPELINING cfg = true -> 1 <= pipelining_block_size cfg)
  /\ (forall r, (r < 2)%nat ->
        rank_ready demo_prf demo_prf demo_comm 2 [1000; 2000] 1001 (envs r) r
          (ws r)
        /\ request_fits cfg (Z.of_nat 4) (ws r)
        /\ request_fits cfg (Z.of_nat 2) (ws r)
        /\ (4 <= length (demo_inputs r))%nat /\ (4 <= length (rs r))%nat
        /\ (2 <= length (demo_inputs r))%nat /\ (2 <= length (rs r))%nat)
  /\ (2 * (4 `max` 2) <= 8)%nat
  /\ exists first second,
       run_ranks no_other 8 []
         ((fun r => MPI_Allreduce cfg (envs r) (fs r) (demo_inputs r) (rs r)
                      (Z.of_nat 4) MPI_INT MPI_SUM demo_comm (ws r))
            <$> seq 0 2)
       = Some first
       /\ run_ranks no_other 8 []
            ((fun r => MPI_Allreduce cfg (envs r) (fs r) (demo_inputs r)
                         (rs r) (Z.of_nat 2) MPI_INT MPI_SUM demo_comm
                         (from_option snd (ws r) (first !! r))) <$> seq 0 2)
          = Some second
       /\ forall r, (r < 2)%nat ->
            exists a b,
              first !! r = Some a
              /\ second !! r = Some b
              /\ a.1 = Returned (MPI_SUCCESS, [11; 22; 33; 44])
              /\ b.1 = Returned (MPI_SUCCESS, [11; 22; 0; 0])
              /\ K_n (hear b.2) demo_comm = Some (demo_prf (demo_prf 1001)).
Proof.
  intros cfg envs ws fs rs.
  assert (H1 : (0 < 2)%nat) by lia.
  assert (H2 : (0 < 4)%nat) by lia.
  assert (H4 : length [1000; 2000] = 2%nat) by reflexivity.
  assert (H5 : USE_PIPELINING cfg = true -> 1 <= pipelining_block_size cfg)
    by (intros _; simpl; lia).
  assert (H6 : forall r, (r < 2)%nat ->
            rank_ready demo_prf demo_prf demo_comm 2 [1000; 2000] 1001
              (envs r) r (ws r)
            /\ request_fits cfg (Z.of_nat 4) (ws r)
        /\ request_fits cfg (Z.of_nat 2) (ws r)
            /\ (4 <= length (demo_inputs r))%nat /\ (4 <= length (rs r))%nat
            /\ (2 <= length (demo_inputs r))%nat
            /\ (2 <= length (rs r))%nat).
  { intros r Hr. split; [|split; [|split; [|split; [|split; [|split]]]]].
    - split; reflexivity.
    - fits_solver.
    - fits_solver.
    - destruct r as [|[|r]]; simpl; lia.
    - simpl. lia.
    - destruct r as [|[|r]]; simpl; lia.
    - simpl. lia. }
  assert (H7 : (2 * (4 `max` 2) <= 8)%nat) by (simpl; lia).
  split; [exact H1|]. split; [exact H2|]. split; [exact H1|].
  split; [exact H4|]. split; [exact H5|]. split; [exact H6|].
  split; [exact H7|].
  destruct (successive_allreduces_match_native no_other cfg demo_prf demo_prf
              demo_comm 2 4 2 [1000; 2000] 1001 envs ws fs fs demo_inputs rs
              demo_inputs rs 8 H1 H2 H1 H4 H5 H6 H7)
    as (first & second & Hf & Hs & Hall).
  exists first, second. split; [exact Hf|]. split; [exact Hs|].
  intros r Hr. destruct (Hall r Hr) as (a & b & Ha & Hb & Ha1 & Hb1 & HK).
  exists a, b. split; [exact Ha|]. split; [exact Hb|].
  split; [exact Ha1|]. split; [exact Hb1|exact HK].
Defined.

Lemma init_then_allreduce_matches_native_witness :
  let cfg := demo_cfg true false initial_block_size in
  let vars := demo_vars in
  let envs := fun r : nat => demo_env 2 (Z.of_nat r) in
  let gs := fun _ : nat => initial_globals in
  let ws := fun _ : nat => blank_world in
  let rs := fun _ : nat => [0; 0; 0; 0] in
  let init r := MPI_Init cfg (envs r) vars demo_lib MPI_SUCCESS (gs r) (ws r) in
  (0 < 2)%nat
  /\ (0 < 4)%nat
  /\ AESNI cfg && HEAR_ENABLE_AESNI vars = false
  /\ encryption.encrypt_int_sum demo_lib
     = encryption.encrypt_int_sum_naive demo_prf
  /\ encryption.decrypt_int_sum demo_lib = encryption.decrypt_int_sum_naive
  /\ (forall r, (r < 2)%nat ->
        comm_size_of (envs r) MPI_COMM_WORLD = Z.of_nat 2
        /\ comm_rank_of (envs r) MPI_COMM_WORLD = Z.of_nat r
        /\ (4 <= length (demo_inputs r))%nat
        /\ (4 <= length (rs r))%nat
        /\ (USE_PIPELINING cfg = true ->
            1 <= pipelining_block_size (init r).1.1)
        /\ request_fits (init r).1.1 (Z.of_nat 4)
             (alloc_state cfg vars demo_lib (gs r) (ws r)).2)
  /\ (2 * 4 + 2 <= 10)%nat
  /\ exists res,
       run_ranks no_other 10 []
         ((fun r => pbind (init r).2
                      (fun _ => MPI_Allreduce (init r).1.1 (envs r) demo_frame
                                  (demo_inputs r) (rs r) (Z.of_nat 4) MPI_INT
                                  MPI_SUM MPI_COMM_WORLD)) <$> seq 0 2)
       = Some res
       /\ forall r, (r < 2)%nat ->
            exists m, res !! r = Some m
              /\ m.1 = Returned (MPI_SUCCESS, [11; 22; 33; 44]).
Proof.
  intros cfg vars envs gs ws rs init.
  assert (H1 : (0 < 2)%nat) by lia.
  assert (H2 : (0 < 4)%nat) by lia.
  assert (H6 : forall r, (r < 2)%nat ->
            comm_size_of (envs r) MPI_COMM_WORLD = Z.of_nat 2
            /\ comm_rank_of (envs r) MPI_COMM_WORLD = Z.of_nat r
            /\ (4 <= length (demo_inputs r))%nat
            /\ (4 <= length (rs r))%nat
            /\ (USE_PIPELINING cfg = true ->
                1 <= pipelining_block_size (init r).1.1)
            /\ request_fits (init r).1.1 (Z.of_nat 4)
                 (alloc_state cfg vars demo_lib (gs r) (ws r)).2).
  { intros r Hr. split; [|split; [|split; [|split; [|split]]]].
    - reflexivity.
    - reflexivity.
    - destruct r as [|[|r]]; simpl; lia.
    - simpl. lia.
    - intros H. discriminate H.
    - fits_solver. }
  assert (H7 : (2 * 4 + 2 <= 10)%nat) by lia.
  split; [exact H1|]. split; [exact H2|]. split; [reflexivity|].
  split; [reflexivity|]. split; [reflexivity|]. split; [exact H6|].
  split; [exact H7|].
  destruct (init_then_allreduce_matches_native no_other cfg vars demo_lib
              demo_prf 2 4 envs gs ws (fun _ => demo_frame) demo_inputs rs 10
              H1 H2 eq_refl eq_refl eq_refl H6 H7) as (res & Hres & Hall).
  exists res. split; [exact Hres|].
  intros r Hr. destruct (Hall r Hr) as (m & Hm & Hout).
  exists m. split; [exact Hm|exact Hout].
Defined.

Lemma wrappers_abort_on_reused_handle_witness :
  let g := {| mpool_size := 4; mpool_sbuf_len := 8388608;
              hear_ptr := hear_live |} in
  let env := demo_env 1 0 in
  let w := demo_world [] in
  hear_ptr g = hear_live
  /\ MPI_SUCCESS = MPI_SUCCESS
  /\ 0 <= comm_rank_of env demo_comm < comm_size_of env demo_comm
  /\ is_Some (_k_s_map (hear w) !! demo_comm)
  /\ (run solo_oracle 0 (MPI_Comm_create env (MPI_SUCCESS, demo_comm) g w)).1
     = Stopped AssertionFailed
  /\ (run solo_oracle 0 (MPI_Comm_split env (MPI_SUCCESS, demo_comm) g w)).1
     = Stopped AssertionFailed
  /\ (run solo_oracle 0 (MPI_Comm_dup env (MPI_SUCCESS, demo_comm) g w)).1
     = Stopped AssertionFailed.
Proof.
  intros g env w.
  assert (H3 : 0 <= comm_rank_of env demo_comm < comm_size_of env demo_comm)
    by (simpl; lia).
  assert (H4 : is_Some (_k_s_map (hear w) !! demo_comm))
    by (exists 0%nat; reflexivity).
  split; [reflexivity|]. split; [reflexivity|]. split; [exact H3|].
  split; [exact H4|].
  exact (wrappers_abort_on_reused_handle env MPI_SUCCESS demo_comm g w
           solo_oracle 0%nat eq_refl eq_refl H3 H4).
Defined.

Lemma failed_init_leaves_no_communicator_witness :
  let cfg := demo_cfg true false initial_block_size in
  let vars := {| HEAR_PIPELINING_BLOCK_SIZE := None; HEAR_MPOOL_SIZE := None;
                 HEAR_MPOOL_SBUF_LEN := None; HEAR_ENABLE_AESNI := false |} in
  let init := MPI_Init cfg (demo_env 1 0) vars demo_lib 5 initial_globals
                blank_world in
  5 <> MPI_SUCCESS
  /\ (MPI_SUM = MPI_SUM \/ MPI_SUM = MPI_PROD)
  /\ (MPI_INT = MPI_INT \/ MPI_INT = MPI_FLOAT)
  /\ exists w',
       init.2 = Ret 5 w'
       /\ hear_ptr init.1.2 = hear_live
       /\ _k_s_map (hear w') = ∅
       /\ _k_n_map (hear w') = ∅
       /\ (run solo_oracle 0
             (MPI_Allreduce init.1.1 (demo_env 1 0) demo_frame [5; 6] [0; 0]
                2 MPI_INT MPI_SUM MPI_COMM_WORLD w')).1
          = Stopped UndefinedBehaviour.
Proof.
  intros cfg vars init.
  assert (H1 : 5 <> MPI_SUCCESS) by (intros H; discriminate H).
  split; [exact H1|]. split; [left; reflexivity|].
  split; [left; reflexivity|].
  destruct (failed_init_leaves_no_communicator cfg (demo_env 1 0) vars
              demo_lib 5 initial_globals blank_world demo_frame [5; 6] [0; 0]
              2 MPI_INT MPI_SUM MPI_COMM_WORLD solo_oracle 0%nat H1
              (or_introl eq_refl) (or_introl eq_refl)) as (_ & Hall).
  exact Hall.
Defined.

Lemma dup_then_allreduce_matches_native_witness :
  let cfg := demo_cfg true true 3 in
  let live := {| mpool_size := 4; mpool_sbuf_len := 8388608;
                 hear_ptr := hear_live |} in
  let envs := fun r : nat => demo_env 2 (Z.of_nat r) in
  let gs := fun _ : nat => live in
  let ws := fun _ : nat => demo_world [0; 1; 2; 3]%nat in
  let rs := fun _ : nat => [0; 0; 0; 0] in
  (0 < 2)%nat
  /\ (0 < 4)%nat
  /\ length [1000; 2000] = 2%nat
  /\ (USE_PIPELINING cfg = true -> 1 <= pipelining_block_size cfg)
  /\ (forall r, (r < 2)%nat ->
        hear_ptr (gs r) = hear_live
        /\ rank_ready demo_prf demo_prf demo_comm 2 [1000; 2000] 1001 (envs r)
             r (ws r)
        /\ request_fits cfg (Z.of_nat 4) (ws r)
        /\ (4 <= length (demo_inputs r))%nat
        /\ (4 <= length (rs r))%nat
        /\ comm_size_of (envs r) 8 = Z.of_nat 2
        /\ comm_rank_of (envs r) 8 = Z.of_nat r
        /\ _k_s_map (hear (ws r)) !! 8 = None
        /\ _k_n_map (hear (ws r)) !! 8 = None)
  /\ (2 * 4 + 2 <= 10)%nat
  /\ (8 = demo_comm \/ 8 = 8)
  /\ exists res,
       run_ranks no_other 10 []
         ((fun r => pbind (MPI_Comm_dup (envs r) (MPI_SUCCESS, 8) (gs r)
                             (ws r))
                      (fun _ => MPI_Allreduce cfg (envs r) demo_frame
                                  (demo_inputs r) (rs r) (Z.of_nat 4) MPI_INT
                                  MPI_SUM 8)) <$> seq 0 2)
       = Some res
       /\ forall r, (r < 2)%nat ->
            exists m, res !! r = Some m
              /\ m.1 = Returned (MPI_SUCCESS, [11; 22; 33; 44]).
Proof.
  intros cfg live envs gs ws rs.
  assert (H1 : (0 < 2)%nat) by lia.
  assert (H2 : (0 < 4)%nat) by lia.
  assert (H3 : length [1000; 2000] = 2%nat) by reflexivity.
  assert (H4 : USE_PIPELINING cfg = true -> 1 <= pipelining_block_size cfg)
    by (intros _; simpl; lia).
  assert (H5 : forall r, (r < 2)%nat ->
            hear_ptr (gs r) = hear_live
            /\ rank_ready demo_prf demo_prf demo_comm 2 [1000; 2000] 1001
                 (envs r) r (ws r)
            /\ request_fits cfg (Z.of_nat 4) (ws r)
            /\ (4 <= length (demo_inputs r))%nat
            /\ (4 <= length (rs r))%nat
            /\ comm_size_of (envs r) 8 = Z.of_nat 2
            /\ comm_rank_of (envs r) 8 = Z.of_nat r
            /\ _k_s_map (hear (ws r)) !! 8 = None
            /\ _k_n_map (hear (ws r)) !! 8 = None).
  { intros r Hr. split; [reflexivity|]. split; [split; reflexivity|].
    split; [fits_solver|].
    split; [destruct r as [|[|r]]; simpl; lia|].
    split; [simpl; lia|].
    split; [reflexivity|]. split; [reflexivity|].
    split; reflexivity. }
  assert (H6 : (2 * 4 + 2 <= 10)%nat) by lia.
  assert (H7 : 8 = demo_comm \/ 8 = 8) by (right; reflexivity).
  split; [exact H1|]. split; [exact H2|]. split; [exact H3|].
  split; [exact H4|]. split; [exact H5|]. split; [exact H6|].
  split; [exact H7|].
  destruct (dup_then_allreduce_matches_native no_other cfg demo_prf demo_prf
              demo_comm 8 2 4 [1000; 2000] 1001 envs gs ws
              (fun _ => demo_frame) demo_inputs rs 10 8 H1 H2 H3 H4 H5 H6 H7)
    as (res & Hres & Hall).
  exists res. split; [exact Hres|].
  intros r Hr. destruct (Hall r Hr) as (m & Hm & Hout).
  exists m. split; [exact Hm|exact Hout].
Defined.

Lemma float_prod_returns_buffer_error_without_pipelining_witness :
  let cfg := demo_cfg false false 65536 in
  let w := demo_world [] in
  let res := run solo_oracle 0
               (MPI_Allreduce cfg (demo_env 1 0) demo_frame [5] [0] 1
                  MPI_FLOAT MPI_PROD demo_comm w) in
  USE_PIPELINING cfg = false
  /\ (USE_MPOOL cfg = false -> 0 <= int (1 * type_size MPI_FLOAT))
  /\ _k_n_map (hear w) !! demo_comm = Some 0%nat
  /\ _k_n_storage (hear w) !! 0%nat = Some 1001
  /\ res.1 = Returned (MPI_ERR_BUFFER, [0])
  /\ K_n (hear res.2) demo_comm = Some (demo_prf 1001).
Proof.
  intros cfg w res.
  assert (H2 : USE_MPOOL cfg = false -> 0 <= int (1 * type_size MPI_FLOAT))
    by (intros _; evaluated).
  split; [reflexivity|]. split; [exact H2|].
  split; [reflexivity|]. split; [reflexivity|].
  destruct (float_prod_returns_buffer_error_without_pipelining cfg
              (demo_env 1 0) demo_frame [5] [0] 1 demo_comm w 0%nat 1001
              solo_oracle 0%nat eq_refl H2 eq_refl eq_refl)
    as (Hout & HK & _).
  split; [exact Hout|exact HK].
Defined.
